(** * RethinkAI experiment-7 dashboard: data pipeline of [app.py]

    A shallow embedding of the data-shaping functions of
    [src/experiment-7/app.py]: the streaming JSON decoder
    ([stream_to_dataframe]), the normaliser ([process_dataframe]), the
    file caches ([cache_stale], [get_311_data], [get_shots_fired_data]),
    the batch resolver ([get_select_311_data],
    [compute_area_category_counts]) and the hexagon aggregations
    ([update_map_data], [get_all_hexbin_data], [update_shot_count],
    [compute_area_shot_count]).

    Library calls whose code is not part of the repository (pandas'
    readers and writers, the h3 grid, the HTTP client, [strptime]) are
    variables of the sections below; everything the repository itself
    computes is a definition. *)

From Stdlib Require Import ZArith QArith Lqa Floats Ascii String List Lia Permutation.
From stdpp Require Import base option list gmap strings pretty.

Local Open Scope Z_scope.

(** ** Python strings *)

(** A Python [str] is a list of characters (code points below 256). *)
Definition str := list ascii.

Definition lit (s : string) : str := list_ascii_of_string s.

Definition NL : ascii := "010"%char.

Fixpoint startswith (p s : str) : bool :=
  match p, s with
  | [], _ => true
  | _ :: _, [] => false
  | a :: p', b :: s' => if Ascii.eqb a b then startswith p' s' else false
  end.

(** [s.find(p)]: index of the first occurrence. *)
Fixpoint find (p s : str) : option nat :=
  if startswith p s then Some 0%nat
  else match s with
       | [] => None
       | _ :: s' => S <$> find p s'
       end.

(** [p in s] *)
Definition contains (p s : str) : bool :=
  match find p s with Some _ => true | None => false end.

(** [s.replace(old, new)] for a non-empty [old]: occurrences are replaced
    left to right and do not overlap; [skip] counts the characters of the
    occurrence being replaced that are still to be passed over. *)
Fixpoint replace_from (old new : str) (skip : nat) (s : str) : str :=
  match s with
  | [] => []
  | c :: s' =>
      match skip with
      | S k => replace_from old new k s'
      | O => if startswith old s
             then new ++ replace_from old new (length old - 1) s'
             else c :: replace_from old new 0 s'
      end
  end.

Definition replace (old new s : str) : str := replace_from old new 0 s.

(** [str.isspace] on one character of the Latin-1 range. *)
Definition isspace (c : ascii) : bool :=
  match c with
  | "009" | "010" | "011" | "012" | "013"
  | "028" | "029" | "030" | "031" | " " | "133" | "160" => true
  | _ => false
  end%char.

Fixpoint lstrip (s : str) : str :=
  match s with
  | c :: s' => if isspace c then lstrip s' else s
  | [] => []
  end.

Definition rstrip (s : str) : str := rev (lstrip (rev s)).

Definition strip (s : str) : str := rstrip (lstrip s).

Definition endswith (s p : str) : bool := startswith (rev p) (rev s).

Definition str_eqb (a b : str) : bool := bool_decide (a = b).

(** [s[:-1]] *)
Definition drop_last (s : str) : str := take (length s - 1) s.

(** [sep.join(parts)] *)
Fixpoint join (sep : str) (parts : list str) : str :=
  match parts with
  | [] => []
  | [p] => p
  | p :: rest => p ++ sep ++ join sep rest
  end.

(** [s.split(",")] with a one-character separator: always at least one
    field, empty fields are kept. *)
Fixpoint split (sep : ascii) (s : str) : list str :=
  match s with
  | [] => [[]]
  | c :: s' =>
      if Ascii.eqb c sep then [] :: split sep s'
      else match split sep s' with
           | f :: fs => (c :: f) :: fs
           | [] => [[c]]
           end
  end.

(** ** Values, tables and exceptions *)

(** A pandas [Timestamp], as the calendar month it falls in and the
    nanoseconds elapsed since that month began. *)
Record Timestamp := { ts_year : Z; ts_month : Z; ts_nanos : Z }.

Global Instance Timestamp_eq_dec : EqDecision Timestamp.
Proof. solve_decision. Defined.

(** [pd.Timestamp(f"{year}-{month:02d}")] *)
Definition month_start (year month : Z) : Timestamp :=
  {| ts_year := year; ts_month := month; ts_nanos := 0 |}.

(** [.dt.to_period("M").dt.to_timestamp()] on one timestamp *)
Definition to_month (t : Timestamp) : Timestamp :=
  month_start (ts_year t) (ts_month t).

(** The content of one cell of a table. [VFloat nan] is the missing
    number, [VNaT] the missing timestamp, [VNone] Python's [None]. *)
Inductive value :=
| VNone
| VInt (z : Z)
| VFloat (f : float)
| VStr (s : str)
| VTime (t : Timestamp)
| VNaT.

(** A row maps column names to values. *)
Abbreviation row := (gmap string value).

(** A [DataFrame]: its column index and its rows, in order. *)
Record DataFrame := { columns : list string; rows : list row }.

(** [pd.DataFrame()] *)
Definition empty_frame : DataFrame := {| columns := []; rows := [] |}.

(** A raised exception: its class name and [str(e)]. *)
Record exn := { exn_class : string; exn_msg : str }.

Inductive result (A : Type) :=
| Ok (a : A)
| Raise (e : exn).
Arguments Ok {A} a.
Arguments Raise {A} e.

Global Instance result_ret : MRet result := @Ok.

Global Instance result_bind : MBind result := λ A B k r,
  match r with
  | Ok a => k a
  | Raise e => Raise e
  end.

(** ** The streaming decoder: [stream_to_dataframe] *)

(** The three locals of the chunk loop. *)
Record decoder := {
  json_data : str;
  buffer : str;
  in_array : bool
}.

Definition decoder_init : decoder :=
  {| json_data := []; buffer := []; in_array := false |}.

Definition OPEN : str := ["["%char; NL].
Definition SEP : str := [","%char; NL].
Definition CLOSE : str := [NL; "]"%char].

(** The inner [while in_array] loop. Each turn that continues removes at
    least two characters from the buffer, so [fuel] above the buffer's
    length is never used up. *)
Fixpoint scan_loop (fuel : nat) (json buf : str) : decoder :=
  match fuel with
  | O => {| json_data := json; buffer := buf; in_array := true |}
  | S fuel' =>
      match find SEP buf with
      | Some obj_end =>
          let obj_text := take obj_end buf in
          scan_loop fuel' (json ++ obj_text ++ [","%char]) (drop (obj_end + 2) buf)
      | None =>
          match find CLOSE buf with
          | Some obj_end =>
              let obj_text := take obj_end buf in
              let json1 := match strip obj_text with
                           | [] => json
                           | _ :: _ => json ++ obj_text
                           end in
              {| json_data := json1 ++ ["]"%char];
                 buffer := drop (obj_end + 2) buf;
                 in_array := false |}
          | None => {| json_data := json; buffer := buf; in_array := true |}
          end
      end
  end.

Definition scan (json buf : str) : decoder := scan_loop (S (length buf)) json buf.

(** One turn of [for chunk in response.iter_content(...)]. *)
Definition feed (st : decoder) (chunk : str) : decoder :=
  match chunk with
  | [] => st
  | _ :: _ =>
      let buf := buffer st ++ chunk in
      if negb (in_array st) && contains OPEN buf
      then scan (json_data st ++ ["["%char]) (replace OPEN [] buf)
      else if in_array st then scan (json_data st) buf
      else {| json_data := json_data st; buffer := buf; in_array := false |}
  end.

(** The text handed to [pd.read_json] once the stream has ended. *)
Definition assemble (chunks : list str) : str :=
  json_data (fold_left feed chunks decoder_init).

Definition MSG_EOF : str := lit "Unexpected end of file".
Definition MSG_EMPTY : str := lit "Empty data passed".

(** The handler's test on the reader's message. *)
Definition signals_empty (e : exn) : bool :=
  contains MSG_EOF (exn_msg e) || contains MSG_EMPTY (exn_msg e).

(** The [if not ... endswith("]")] repair of the handler. *)
Definition repair (json_str : str) : str :=
  if negb (endswith (rstrip json_str) ["]"%char])
  then if endswith (rstrip json_str) [","%char]
       then drop_last (rstrip json_str) ++ ["]"%char]
       else json_str ++ ["]"%char]
  else json_str.

Section Decoder.
(** [pd.read_json(text, orient="records")] *)
Variable read_json : str → result DataFrame.

(** The [try ... except] after the chunk loop. *)
Definition parse_assembled (json_str : str) : result DataFrame :=
  match read_json json_str with
  | Ok df => Ok df
  | Raise e =>
      if signals_empty e then Ok empty_frame
      else
        if negb (str_eqb (strip json_str) [])
           && negb (str_eqb (strip json_str) ["["%char])
           && negb (str_eqb (strip json_str) (lit "[]"))
        then match read_json (repair json_str) with
             | Ok df => Ok df
             | Raise _ => Raise e
             end
        else Raise e
  end.

(** The body of [with requests.get(...) as response] once the status
    is known to be 200. *)
Definition decode_stream (chunks : list str) : result DataFrame :=
  parse_assembled (assemble chunks).
End Decoder.

(** *** Streams of elements

    The layout the API streams: the opening token, the element texts
    separated by [SEP], the closing token. *)

(** An element text holds no line break. *)
Definition clean (e : str) : Prop := NL ∉ e.

(** The last element may end in neither a comma nor an opening bracket. *)
Definition ends_ok (e : str) : Prop :=
  last e ≠ Some ","%char ∧ last e ≠ Some "["%char.

(** The text of the elements [init], each followed by [sep]. *)
Definition separated (sep : str) (init : list str) : str :=
  concat ((λ e, e ++ sep) <$> init).

(** The loop's state while the array is open. *)
Definition open_state (json buf : str) : decoder :=
  {| json_data := json; buffer := buf; in_array := true |}.

(** ** The normaliser: [process_dataframe] *)

Global Instance value_inhabited : Inhabited value := populate VNone.

(** [df[c]] raises [KeyError] when the table has no column [c]. *)
Definition KeyError (c : string) : exn :=
  {| exn_class := "KeyError"; exn_msg := lit c |}.

Definition has_column (c : string) (df : DataFrame) : bool :=
  bool_decide (c ∈ columns df).

Definition has_columns (cols : list string) (df : DataFrame) : bool :=
  forallb (λ c, has_column c df) cols.

Definition require_column {A} (c : string) (df : DataFrame) (k : result A) : result A :=
  if has_column c df then k else Raise (KeyError c).

(** [df[c] = f(row)]: an existing column is overwritten in place, a new
    one is appended to the column index. *)
Definition set_column (c : string) (f : row → value) (df : DataFrame) : DataFrame :=
  {| columns := if has_column c df then columns df else columns df ++ [c];
     rows := (λ r : row, <[c := f r]> r) <$> rows df |}.

(** [df[mask]] *)
Definition select_rows (keep : row → bool) (df : DataFrame) : DataFrame :=
  {| columns := columns df; rows := List.filter keep (rows df) |}.

(** The boolean mask of [process_dataframe] on one pair of coordinates:
    IEEE comparisons, all false on [nan]. *)
Definition inside_box (lat lon : float) : bool :=
  PrimFloat.ltb 40 lat && PrimFloat.ltb lat 43
  && PrimFloat.ltb (-72) lon && PrimFloat.ltb lon (-70).

Definition in_bounding_box (r : row) : bool :=
  match r !!! "latitude", r !!! "longitude" with
  | VFloat lat, VFloat lon => inside_box lat lon
  | _, _ => false
  end.

(** A timestamp cell, [VNaT] when the conversion failed. *)
Definition time_cell (o : option Timestamp) : value :=
  match o with
  | Some t => VTime t
  | None => VNaT
  end.

(** The month bucket of a date cell; [NaT] has none. *)
Definition month_cell (v : value) : value :=
  match v with
  | VTime t => VTime (to_month t)
  | _ => VNaT
  end.

Section Normalizer.
(** [pd.to_numeric(cell, errors="coerce")]: the float64 the cell
    becomes, [nan] when it is not a number. *)
Variable to_numeric : value → float.
(** [pd.to_datetime(cell, errors="coerce")], [None] for [NaT]. *)
Variable to_datetime : value → option Timestamp.

Definition coerce_column (c : string) (df : DataFrame) : DataFrame :=
  set_column c (λ r, VFloat (to_numeric (r !!! c))) df.

Definition normalize_location (df : DataFrame) : result DataFrame :=
  require_column "latitude" df (
    let df1 := coerce_column "latitude" df in
    require_column "longitude" df1 (
      let df2 := coerce_column "longitude" df1 in
      Ok (select_rows in_bounding_box df2))).

Definition normalize_date (df : DataFrame) : result DataFrame :=
  require_column "date" df (
    let df1 := set_column "date" (λ r, time_cell (to_datetime (r !!! "date"))) df in
    Ok (set_column "month" (λ r, month_cell (r !!! "date")) df1)).

Definition process_dataframe (df : DataFrame) (location_columns date_column : bool)
  : result DataFrame :=
  df1 ← (if location_columns then normalize_location df else Ok df);
  if date_column then normalize_date df1 else Ok df1.

(** What the two phases do to one row: both coordinates coerced; the
    date parsed and the month bucket added. *)
Definition coerce_location (r : row) : row :=
  <["longitude" := VFloat (to_numeric (r !!! "longitude"))]>
    (<["latitude" := VFloat (to_numeric (r !!! "latitude"))]> r).

Definition add_month (r : row) : row :=
  let r1 := <["date" := time_cell (to_datetime (r !!! "date"))]> r in
  <["month" := month_cell (r1 !!! "date")]> r1.
End Normalizer.

(** [pd.isna] on one cell *)
Definition isna (v : value) : bool :=
  match v with
  | VNone | VNaT => true
  | VFloat f => PrimFloat.is_nan f
  | _ => false
  end.

(** [df.dropna(subset=cols)]: [KeyError] on the first missing column,
    otherwise the rows with no missing value among [cols]. *)
Fixpoint first_missing (cols : list string) (df : DataFrame) : option string :=
  match cols with
  | [] => None
  | c :: cols' => if has_column c df then first_missing cols' df else Some c
  end.

Definition dropna (cols : list string) (df : DataFrame) : result DataFrame :=
  match first_missing cols df with
  | Some c => Raise (KeyError c)
  | None => Ok (select_rows (λ r, forallb (λ c, negb (isna (r !!! c))) cols) df)
  end.

(** [df.rename(columns={old: new})]: no effect without a column [old]. *)
Definition rename_row (old new : string) (r : row) : row :=
  match r !! old with
  | Some v => <[new := v]> (delete old r)
  | None => r
  end.

Definition rename (old new : string) (df : DataFrame) : DataFrame :=
  {| columns := (λ c, if String.eqb c old then new else c) <$> columns df;
     rows := rename_row old new <$> rows df |}.

(** ** Network, clock and files *)

(** What [requests.get] hands back: status, body text and the chunks
    [iter_content] yields. *)
Record response := {
  status_code : Z;
  text : str;
  chunks : list str
}.

Inductive file_content :=
| Parquet (df : DataFrame)
| Text (s : str).

(** The part of the outside world the loaders touch: [time.time()], the
    files with their modification times, and the URLs requested so far
    (latest first). *)
Record world := {
  clock : Q;
  files : gmap string (Q * file_content);
  requested : list str
}.

Definition log_request (url : str) (w : world) : world :=
  {| clock := clock w; files := files w; requested := url :: requested w |}.

(** [df.to_parquet(path)] / [df.to_csv(path)]: the file is stamped with
    the current time. *)
Definition write_file (path : string) (c : file_content) (w : world) : world :=
  {| clock := clock w; files := <[path := (clock w, c)]> (files w);
     requested := requested w |}.

(** [cache_stale(path, max_age_minutes)] *)
Definition cache_stale (path : string) (max_age_minutes : Q) (w : world) : bool :=
  match files w !! path with
  | None => true
  | Some (mtime, _) => negb (Qle_bool (clock w - mtime) (max_age_minutes * 60))
  end.

Definition FileNotFoundError (path : string) : exn :=
  {| exn_class := "FileNotFoundError"; exn_msg := lit path |}.

Definition ArrowInvalid (path : string) : exn :=
  {| exn_class := "ArrowInvalid"; exn_msg := lit path |}.

(** [pd.read_parquet(path)] *)
Definition read_parquet (path : string) (w : world) : result DataFrame :=
  match files w !! path with
  | Some (_, Parquet df) => Ok df
  | Some (_, Text _) => Raise (ArrowInvalid path)
  | None => Raise (FileNotFoundError path)
  end.

(** [os.path.join(dir, name)] for a relative [name] *)
Definition path_join (dir name : string) : string :=
  match lit dir with
  | [] => name
  | _ :: _ => if endswith (lit dir) (lit "/") then dir +:+ name
              else dir +:+ "/" +:+ name
  end.

(** ** Tables: concatenation and grouped sums *)

(** The union of the column indexes, in order of first appearance. *)
Fixpoint union_columns (dfs : list DataFrame) : list string :=
  match dfs with
  | [] => []
  | df :: dfs' =>
      columns df ++ List.filter (λ c, negb (has_column c df)) (union_columns dfs')
  end.

(** A row widened to [cols]: the cells it lacks are [nan]. *)
Definition reindex (cols : list string) (r : row) : row :=
  foldr (λ c acc, match r !! c with
                  | Some _ => acc
                  | None => <[c := VFloat nan]> acc
                  end) r cols.

(** [pd.concat(dfs, ignore_index=True)] *)
Definition concat_frames (dfs : list DataFrame) : DataFrame :=
  let cols := remove_dups (union_columns dfs) in
  {| columns := cols;
     rows := reindex cols <$> concat (rows <$> dfs) |}.

(** [==] on two cells *)
Definition value_eqb (a b : value) : bool :=
  match a, b with
  | VNone, VNone => true
  | VInt x, VInt y => Z.eqb x y
  | VFloat x, VFloat y => PrimFloat.eqb x y
  | VStr x, VStr y => str_eqb x y
  | VTime x, VTime y => bool_decide (x = y)
  | _, _ => false
  end.

(** The distinct members of [l], each at its first position. *)
Fixpoint distinct (l : list value) : list value :=
  match l with
  | [] => []
  | v :: l' => v :: List.filter (λ u, negb (value_eqb v u)) (distinct l')
  end.

Section GroupBy.
(** [Series.sum()] of the cells of one group; pandas raises on cells
    it cannot add up. *)
Variable series_sum : list value → result value.
(** The order in which [groupby] lists its keys *)
Variable sort_keys : list value → list value.

Definition group_cells (key val : string) (k : value) (df : DataFrame) : list value :=
  (λ r : row, r !!! val) <$> List.filter (λ r : row, value_eqb k (r !!! key)) (rows df).

(** The row of the group [k]: the key and the sum of its cells. *)
Definition group_row (key val : string) (df : DataFrame) (k : value) : result row :=
  total ← series_sum (group_cells key val k df);
  Ok (<[key := k]> (<[val := total]> ∅)).

(** [df.groupby(key, as_index=False)[val].sum()]: one row per key that
    is not missing, the keys in [groupby]'s order; the error of a sum
    is raised. *)
Definition groupby_sum (key val : string) (df : DataFrame) : result DataFrame :=
  let keys := sort_keys (distinct (List.filter (λ v, negb (isna v))
                                     ((λ r : row, r !!! key) <$> rows df))) in
  group_rows ← mapM (group_row key val df) keys;
  Ok {| columns := [key; val]; rows := group_rows |}.
End GroupBy.

(** ** The loaders *)

Definition APP_VERSION : str := lit "0.7.0".

Definition HttpError (status : Z) (body : str) : exn :=
  {| exn_class := "Exception";
     exn_msg := lit "Error: " ++ lit (pretty status) ++ lit " - " ++ body |}.

(** [range(0, stop, step)] *)
Definition range_step (stop step : nat) : list nat :=
  (λ k, k * step)%nat <$> seq 0 ((stop + step - 1) / step)%nat.

(** The slices [l[i:i + size]] for [i in range(0, len(l), size)] *)
Definition batches {A} (size : nat) (l : list A) : list (list A) :=
  (λ i, take size (drop i l)) <$> range_step (length l) size.

Definition BATCH_SIZE : nat := 50.

(** [cols[:2]] unpacked into two names *)
Definition ValueError_unpack : exn :=
  {| exn_class := "ValueError"; exn_msg := lit "not enough values to unpack" |}.

(** [dict(zip(keys, vals))]: a key met again keeps its place and takes
    the later value. *)
Fixpoint dict_set (k v : value) (d : list (value * value)) : list (value * value) :=
  match d with
  | [] => [(k, v)]
  | (k', v') :: d' =>
      if value_eqb k' k then (k', v) :: d' else (k', v') :: dict_set k v d'
  end.

Definition dict_of (pairs : list (value * value)) : list (value * value) :=
  fold_left (λ d kv, dict_set kv.1 kv.2 d) pairs [].

(** The tables among a list of results. *)
Definition oks {A} (rs : list (result A)) : list A :=
  omap (λ r, match r with Ok a => Some a | Raise _ => None end) rs.

(** The world after the requests [urls], made in that order. *)
Definition log_requests (urls : list str) (w : world) : world :=
  {| clock := clock w; files := files w; requested := rev urls ++ requested w |}.

Section Loaders.
Variable read_json : str → result DataFrame.
Variable to_numeric : value → float.
Variable to_datetime : value → option Timestamp.
Variable series_sum : list value → result value.
Variable sort_keys : list value → list value.
(** The error [pd.concat] raises on tables it cannot put together,
    if any. *)
Variable concat_error : list DataFrame → option exn.
(** [df.to_csv(index=False)], which may raise, and [pd.read_csv] *)
Variable to_csv : DataFrame → result str.
Variable read_csv : str → result DataFrame.
(** [requests.get(url, ...)]: the answer may depend on everything that
    happened before. *)
Variable http_get : world → str → response.
(** [Config.CACHE_DIR] and [Config.API_BASE_URL], read from the
    environment at start-up. *)
Variable CACHE_DIR : string.
Variable API_BASE_URL : str.

Definition stream_to_dataframe (url : str) (w : world) : result DataFrame * world :=
  let response := http_get w url in
  let w1 := log_request url w in
  if bool_decide (status_code response ≠ 200)
  then (Raise (HttpError (status_code response) (text response)), w1)
  else (decode_stream read_json (chunks response), w1).

Definition url_311 : str :=
  API_BASE_URL ++ lit "/data/query?request=311_by_geo&category=all&stream=True&app_version="
    ++ APP_VERSION.

Definition path_311 : string := path_join CACHE_DIR "df_311.parquet".

(** The lines of [get_311_data] between the fetch and the write. *)
Definition prepare_311 (df : DataFrame) : result DataFrame :=
  df1 ← process_dataframe to_numeric to_datetime df true true;
  dropna ["latitude"; "longitude"; "date"; "category"]
    (rename "normalized_type" "category" df1).

Definition get_311_data (force_refresh : bool) (w : world) : result DataFrame * world :=
  if negb force_refresh && negb (cache_stale path_311 30 w)
  then (read_parquet path_311 w, w)
  else
    let '(fetched, w1) := stream_to_dataframe url_311 w in
    match fetched ≫= prepare_311 with
    | Ok df => (Ok df, write_file path_311 (Parquet df) w1)
    | Raise e => (Raise e, w1)
    end.

Definition url_shots : str :=
  API_BASE_URL ++ lit "/data/query?app_version=" ++ APP_VERSION
    ++ lit "&request=911_shots_fired&stream=True".

Definition url_matched : str :=
  API_BASE_URL ++ lit "/data/query?app_version=" ++ APP_VERSION
    ++ lit "&request=911_homicides_and_shots_fired&stream=True".

Definition path_shots : string := path_join CACHE_DIR "df_shots.parquet".
Definition path_matched : string := path_join CACHE_DIR "df_hom_shot_matched.parquet".

(** [.dt.date]: the day a timestamp falls on. *)
Definition day_cell (v : value) : value :=
  match v with
  | VTime t => VTime {| ts_year := ts_year t; ts_month := ts_month t;
                        ts_nanos := ts_nanos t - ts_nanos t `mod` 86400000000000 |}
  | _ => VNaT
  end.

Definition prepare_shots (df : DataFrame) : result DataFrame :=
  df1 ← process_dataframe to_numeric to_datetime df true true;
  require_column "ballistics_evidence" df1 (
    let df2 := coerce_column to_numeric "ballistics_evidence" df1 in
    let df3 := set_column "day" (λ r, day_cell (r !!! "date")) df2 in
    dropna ["latitude"; "longitude"; "date"] df3).

Definition prepare_matched (df : DataFrame) : result DataFrame :=
  df1 ← process_dataframe to_numeric to_datetime df true true;
  dropna ["latitude"; "longitude"; "date"] df1.

Definition get_shots_fired_data (force_refresh : bool) (w : world)
  : result (DataFrame * DataFrame) * world :=
  if negb force_refresh && negb (cache_stale path_shots 30 w)
     && negb (cache_stale path_matched 30 w)
  then (df ← read_parquet path_shots w;
        df_matched ← read_parquet path_matched w;
        Ok (df, df_matched), w)
  else
    let '(fetched, w1) := stream_to_dataframe url_shots w in
    match fetched ≫= prepare_shots with
    | Raise e => (Raise e, w1)
    | Ok df =>
        let '(fetched_matched, w2) := stream_to_dataframe url_matched w1 in
        match fetched_matched ≫= prepare_matched with
        | Raise e => (Raise e, w2)
        | Ok df_matched =>
            (Ok (df, df_matched),
             write_file path_matched (Parquet df_matched)
               (write_file path_shots (Parquet df) w2))
        end
    end.

(** *** The batch resolver: [get_select_311_data] *)

Definition url_summary (param value : str) : str :=
  API_BASE_URL ++ lit "/data/query?"
    ++ lit "request=311_summary&category=all&stream=True"
    ++ lit "&app_version=" ++ APP_VERSION
    ++ lit "&" ++ param ++ lit "=" ++ value.

(** The [for i in range(...)] loop: the tables of the batches that
    came back, in order; a batch that raised is passed over. *)
Fixpoint fetch_batches (bs : list (list str)) (all_dfs : list DataFrame) (w : world)
  : list DataFrame * world :=
  match bs with
  | [] => (all_dfs, w)
  | batch_ids :: bs' =>
      let batch_id_str := join (lit ",") batch_ids in
      let '(r, w1) := stream_to_dataframe (url_summary (lit "event_ids") batch_id_str) w in
      match r with
      | Ok batch_df => fetch_batches bs' (all_dfs ++ [batch_df]) w1
      | Raise _ => fetch_batches bs' all_dfs w1
      end
  end.

(** What each batch's request returns, in order; every request is
    made in the world the earlier ones left. *)
Fixpoint batch_results (bs : list (list str)) (w : world) : list (result DataFrame) :=
  match bs with
  | [] => []
  | b :: bs' =>
      let url := url_summary (lit "event_ids") (join (lit ",") b) in
      (stream_to_dataframe url w).1 :: batch_results bs' (log_request url w)
  end.

(** [pd.concat(all_dfs, ignore_index=True)] *)
Definition pd_concat (dfs : list DataFrame) : result DataFrame :=
  match concat_error dfs with
  | Some e => Raise e
  | None => Ok (concat_frames dfs)
  end.

(** The [if "reported_issue" in df.columns ...] step. *)
Definition summarize (df : DataFrame) : result DataFrame :=
  if has_column "reported_issue" df && has_column "total" df
  then groupby_sum series_sum sort_keys "reported_issue" "total" df
  else Ok df.

(** [df.to_csv('311_dash.csv', index=False)] followed by
    [return df.to_csv(index=False)]. *)
Definition write_and_return (df : DataFrame) (w : world) : result str * world :=
  match to_csv df with
  | Raise e => (Raise e, w)
  | Ok file_text => (to_csv df, write_file "311_dash.csv" (Text file_text) w)
  end.

(** Only the requests of the batches are inside a [try]: an error of
    [pd.concat], of the grouped sum or of [to_csv] leaves the
    function. *)
Definition get_select_311_data (event_ids event_date : str) (w : world)
  : result str * world :=
  match event_ids, event_date with
  | _ :: _, _ =>
      let id_list := split ","%char event_ids in
      let '(all_dfs, w1) := fetch_batches (batches BATCH_SIZE id_list) [] w in
      match all_dfs with
      | _ :: _ =>
          match pd_concat all_dfs ≫= summarize with
          | Ok df => write_and_return df w1
          | Raise e => (Raise e, w1)
          end
      | [] => (Ok [], w1)
      end
  | [], _ :: _ =>
      let '(r, w1) := stream_to_dataframe (url_summary (lit "date") event_date) w in
      match r with
      | Ok df => write_and_return df w1
      | Raise e => (Raise e, w1)
      end
  | [], [] => (Ok [], w)
  end.

(** *** [compute_area_category_counts] *)

Definition label_value_columns (df_area : DataFrame) : result (string * string) :=
  if has_column "reported_issue" df_area && has_column "total" df_area
  then Ok ("reported_issue", "total")
  else match columns df_area with
       | label_col :: value_col :: _ => Ok (label_col, value_col)
       | _ => Raise ValueError_unpack
       end.

Definition compute_area_category_counts (event_ids : list str) (date_str : str)
    (w : world) : result (list (value * value)) * world :=
  match event_ids with
  | [] => (Ok [], w)
  | _ :: _ =>
      let '(r, w1) := get_select_311_data (join (lit ",") event_ids) [] w in
      (csv_str ← r;
       df_area ← read_csv csv_str;
       '(label_col, value_col) ← label_value_columns df_area;
       Ok (dict_of ((λ r : row, (r !!! label_col, r !!! value_col)) <$> rows df_area)),
       w1)
  end.
End Loaders.

(** ** Hexagon aggregation *)

(** A polygon feature of the monthly view: [value] is the number of
    points, [ids] the points' ids. *)
Record month_feature := {
  mf_hex_id : str;
  mf_value : nat;
  mf_lat : float;
  mf_lon : float;
  mf_ids : list str;
  mf_coordinates : list (float * float)
}.

(** A polygon feature of the all-time view; [value] is a float64. *)
Record all_feature := {
  af_hex_id : str;
  af_value : float;
  af_count : nat;
  af_lat : float;
  af_lon : float;
  af_coordinates : list (float * float)
}.






(** What [df.apply(f, axis=1)] returns: a column, or a table. *)
Inductive applied :=
| AppliedSeries (cells : list str)
| AppliedFrame (df : DataFrame).

(** The row on which [apply] tries its function when the table has no
    row: every column holds [nan]. *)
Definition nan_row (cols : list string) : row :=
  list_to_map ((λ c, (c, VFloat nan)) <$> cols).

Definition ValueError_columns (msg : string) : exn :=
  {| exn_class := "ValueError"; exn_msg := lit msg |}.

(** [df["cell"] = x], as the cells of the new column: a column is
    stored as it is; a table is stored only when it has exactly one
    column, whose cells are taken. *)
Definition set_cell_column (x : applied) : result (list str) :=
  match x with
  | AppliedSeries cells => Ok cells
  | AppliedFrame df =>
      match columns df with
      | [] => Raise (ValueError_columns
                       "Cannot set a DataFrame without columns to the column cell")
      | [_] => Ok []
      | _ :: _ :: _ =>
          Raise (ValueError_columns
                   "Cannot set a DataFrame with multiple columns to the single column cell")
      end
  end.



(** The [selected-hexbins-store] dictionary. *)
Record selection := {
  selected_hexbins : option (list str);
  selected_ids : option (list str)
}.

(** [d.setdefault(hex_id, []).append(x)] on a dictionary kept in
    insertion order. *)
Fixpoint setdefault_append (hex_id x : str) (d : list (str * list str))
  : list (str * list str) :=
  match d with
  | [] => [(hex_id, [x])]
  | (k, xs) :: d' =>
      if str_eqb k hex_id then (k, xs ++ [x]) :: d'
      else (k, xs) :: setdefault_append hex_id x d'
  end.


Definition AttributeError (name : string) : exn :=
  {| exn_class := "AttributeError"; exn_msg := lit name |}.

Definition require_attribute {A} (c : string) (df : DataFrame) (k : result A) : result A :=
  if has_column c df then k else Raise (AttributeError c).



Definition RESOLUTION : Z := 10.

(** A count as a float64, exact below 2^53. *)
Definition count_to_float (n : nat) : float :=
  PrimFloat.of_uint63 (Uint63.of_Z (Z.of_nat n)).

Section Hexagons.
(** [h3.latlng_to_cell(lat, lng, res)], [h3.cell_to_boundary] (a ring
    of at least one [(lat, lng)] vertex: its first vertex and the
    others) and [h3.cell_to_latlng]. *)
Variable latlng_to_cell : value → value → Z → str.
Variable cell_to_boundary : str → (float * float) * list (float * float).
Variable cell_to_latlng : str → float * float.
(** The error [h3.latlng_to_cell] raises on coordinates it refuses (a
    missing value, [nan], an infinity), if any. *)
Variable latlng_error : value → value → option exn.
(** [str(x)] *)
Variable py_str : value → str.
(** [datetime.strptime(s, "%B %Y")] as (year, month), [None] when it
    raises. *)
Variable strptime_month_year : str → option (Z * Z).

Definition date_string_to_year_month (date_string : str) : Z * Z :=
  match strptime_month_year date_string with
  | Some ym => ym
  | None => (2024, 12)
  end.

Definition selected_month (date_value : str) : Timestamp :=
  let '(year, month) := date_string_to_year_month date_value in
  month_start year month.

Definition row_cell (resolution : Z) (r : row) : str :=
  latlng_to_cell (r !!! "latitude") (r !!! "longitude") resolution.


(** [[lng, lat] for lat, lng in boundary] closed with the first vertex *)
Definition ring (hex_id : str) : list (float * float) :=
  let '(first, others) := cell_to_boundary hex_id in
  let boundary := first :: others in
  ((λ p : float * float, (p.2, p.1)) <$> boundary) ++ [(first.2, first.1)].

Definition make_month_feature (entry : str * list str) : month_feature :=
  let '(hex_id, point_ids) := entry in
  let '(lat_center, lon_center) := cell_to_latlng hex_id in
  {| mf_hex_id := hex_id; mf_value := length point_ids;
     mf_lat := lat_center; mf_lon := lon_center;
     mf_ids := point_ids; mf_coordinates := ring hex_id |}.



Definition in_month (c : string) (ts : Timestamp) (r : row) : bool :=
  value_eqb (month_cell (r !!! c)) (VTime ts).


(** [1 + (count / max_value) * 9]: Python divides two integers into
    the float64 nearest to their quotient, which for counts below
    2^53 (any list a machine can hold) is the quotient of the two
    counts as floats; the product and the sum are float64 as well. *)
Definition normalized_value (count max_value : nat) : float :=
  (1 + (count_to_float count / count_to_float max_value) * 9)%float.

Definition make_all_feature (max_value : nat) (entry : str * list str) : all_feature :=
  let '(hex_id, point_ids) := entry in
  let '(lat_center, lon_center) := cell_to_latlng hex_id in
  let count := length point_ids in
  {| af_hex_id := hex_id; af_value := normalized_value count max_value;
     af_count := count; af_lat := lat_center; af_lon := lon_center;
     af_coordinates := ring hex_id |}.


(** [h3.latlng_to_cell(lat, lng, 10)] with its error. *)
Definition cell_at (lat lng : value) : result str :=
  match latlng_error lat lng with
  | Some e => Raise e
  | None => Ok (latlng_to_cell lat lng 10)
  end.

(** [lambda r: h3.latlng_to_cell(r.latitude, r.longitude, 10)] on a
    row of [df]. *)
Definition shot_cell (df : DataFrame) (r : row) : result str :=
  require_attribute "latitude" df (
    require_attribute "longitude" df (
      cell_at (r !!! "latitude") (r !!! "longitude"))).

(** [df_month.apply(f, axis=1)]. With rows the result is the column
    of the values of [f], and an error of [f] is raised. With no row
    pandas tries [f] on a row of [nan]: when that raises the result
    is a copy of the table, and otherwise a column of no cell. *)
Definition apply_rows (f : row → result str) (cols : list string) (month_rows : list row)
  : result applied :=
  match month_rows with
  | [] =>
      match f (nan_row cols) with
      | Raise _ => Ok (AppliedFrame {| columns := cols; rows := [] |})
      | Ok _ => Ok (AppliedSeries [])
      end
  | _ :: _ => cells ← mapM f month_rows; Ok (AppliedSeries cells)
  end.

(** [update_shot_count]: the month's shots, or those of them inside
    the selected hexagons. *)
Definition update_shot_count (selected : selection) (date_str : str)
    (df_shots : DataFrame) : result nat :=
  let ts := selected_month date_str in
  require_column "date" df_shots (
    let df_month := List.filter (in_month "date" ts) (rows df_shots) in
    match default [] (selected_hexbins selected) with
    | [] => Ok (length df_month)
    | hex_ids =>
        x ← apply_rows (shot_cell df_shots) (columns df_shots) df_month;
        cells ← set_cell_column x;
        Ok (length (List.filter (λ cell, bool_decide (cell ∈ hex_ids)) cells))
    end).



End Hexagons.

(** ** Start-up: the module-level loads and the slider's range *)

(** The order of two timestamps: by month, then by the time elapsed
    since the month began. *)
Definition ts_leb (a b : Timestamp) : bool :=
  (ts_year a <? ts_year b)
  || ((ts_year a =? ts_year b)
      && ((ts_month a <? ts_month b)
          || ((ts_month a =? ts_month b) && (ts_nanos a <=? ts_nanos b)))).

(** [Series.max()] of a datetime column: [NaT] cells are skipped, and
    the result is [NaT] ([None]) when nothing is left. *)
Definition max_step (acc : option Timestamp) (v : value) : option Timestamp :=
  match v with
  | VTime t =>
      match acc with
      | None => Some t
      | Some m => Some (if ts_leb m t then t else m)
      end
  | _ => acc
  end.

Definition series_max_time (cells : list value) : option Timestamp :=
  fold_left max_step cells None.

(** A timestamp whose month is one of the twelve. *)
Definition valid_month (t : Timestamp) : Prop := 1 ≤ ts_month t ≤ 12.

(** [(latest.year - 2018) * 12 + (latest.month - 1)] *)
Definition month_index (latest : Timestamp) : Z :=
  (ts_year latest - 2018) * 12 + (ts_month latest - 1).

(** [latest] and [max_value] of a table with a datetime column [date];
    [None] stands for the [nan] that [NaT] gives. *)
Definition slider_max (df_311 : DataFrame) : result (option Z) :=
  require_column "date" df_311 (
    let latest := series_max_time ((λ r : row, r !!! "date") <$> rows df_311) in
    Ok (month_index <$> latest)).

(** ** Dictionaries *)

(** No key of [d] equals a later one. *)
Definition keys_apart (d : list (value * value)) : Prop :=
  ∀ i j ki kj, (i < j)%nat → d.*1 !! i = Some ki → d.*1 !! j = Some kj →
               value_eqb ki kj = false.

(** ** Formatting the month: [f"{year}-{month:02d}"] *)

Definition format_02d (n : Z) : str :=
  let s := lit (pretty n) in
  if (length s <? 2)%nat then "0"%char :: s else s.

Definition year_month_text (ym : Z * Z) : str :=
  lit (pretty ym.1) ++ lit "-" ++ format_02d ym.2.

(** ** Category counts: [update_category_counts] *)

Definition count_of (k : value) (cells : list value) : nat :=
  length (List.filter (value_eqb k) cells).

(** A cell that holds a text. *)
Definition is_text (v : value) : Prop := ∃ s, v = VStr s.

Section Counts.
Variable py_str : value → str.
Variable strptime_month_year : str → option (Z * Z).
(** The order in which [value_counts] lists its entries (by count,
  largest first). *)
Variable order_counts : list (value * nat) → list (value * nat).

(** [Series.value_counts().to_dict()]: the cells that are not missing,
  each with the number of times it occurs. *)
Definition value_counts (cells : list value) : list (value * nat) :=
order_counts ((λ k, (k, count_of k cells))
                <$> distinct (List.filter (λ v, negb (isna v)) cells)).

Definition update_category_counts (selected : selection) (date_str : str)
  (df_311 : DataFrame) : result (list (value * nat)) :=
let ts := selected_month strptime_month_year date_str in
require_column "month" df_311 (
  let df_month :=
    List.filter (λ r : row, value_eqb (r !!! "month") (VTime ts)) (rows df_311) in
  let ids := default [] (selected_ids selected) in
  df_sel ← match ids with
           | [] => Ok df_month
           | _ :: _ =>
               require_column "id" df_311 (
                 Ok (List.filter (λ r : row, bool_decide (py_str (r !!! "id") ∈ ids))
                       df_month))
           end;
  require_column "category" df_311 (
    Ok (value_counts ((λ r : row, r !!! "category") <$> df_sel)))).
End Counts.

(** ** Dash components and callback outputs *)

(** The components the callbacks build. *)
Inductive component :=
| Str (s : str)
| Strong (s : str)
| Markdown (s : str) (dangerously_allow_html : bool)
| Div (children : child) (className : string)
with child :=
| Single (c : component)
| Several (cs : list component).

(** A [style] dictionary. *)
Definition style := list (string * string).

Definition SHOWN : style := [("display", "block")].
Definition HIDDEN : style := [("display", "none")].

(** A callback output: a value, or [dash.no_update]. *)
Inductive output (A : Type) :=
| no_update
| updated (a : A).
Arguments no_update {A}.
Arguments updated {A} a.

Definition PreventUpdate : exn :=
  {| exn_class := "PreventUpdate"; exn_msg := [] |}.

(** [0 if refresh_clicks is None else refresh_clicks + 1] *)
Definition next_clicks (refresh_clicks : option Z) : Z :=
  match refresh_clicks with
  | None => 0
  | Some n => n + 1
  end.

(** [ctx.triggered[0]["prop_id"].split(".")[0]] *)
Definition button_of (prop_id : str) : str :=
  match split "."%char prop_id with
  | b :: _ => b
  | [] => []
  end.

(** [not input_value or not input_value.strip()] *)
Definition blank (input_value : option str) : bool :=
  match input_value with
  | None | Some [] => true
  | Some s => str_eqb (strip s) []
  end.

(** *** The overlay *)

Definition FADE : style :=
  [("opacity", "0"); ("transition", "opacity 1s linear 300ms, opacity 300ms")].

Definition TELL_ME : str :=
  lit "Give me more details about what issues my neighbors are facing today.".

Record overlay := {
  overlay_style : output style;
  map_class : output string;
  chat_class : output string;
  auto_focus : output bool;
  tell_me_prompt : output (option str);
  max_intervals : output Z
}.

Definition handle_overlay_buttons (triggered : list str)
    (show_clicks tell_clicks listen_clicks : option Z) : overlay :=
  match triggered with
  | [] =>
      {| overlay_style := no_update; map_class := no_update; chat_class := no_update;
         auto_focus := no_update; tell_me_prompt := no_update; max_intervals := no_update |}
  | prop_id :: _ =>
      let button_id := button_of prop_id in
      let '(map_class, chat_class, auto_focus, tell_me_prompt) :=
        if str_eqb button_id (lit "show-me-btn")
        then ("map-controls focused", "chat-main-container", false, None)
        else if str_eqb button_id (lit "tell-me-btn")
        then ("map-controls", "chat-main-container focused", false, Some TELL_ME)
        else if str_eqb button_id (lit "listen-to-me-btn")
        then ("map-controls", "chat-main-container focused", true, None)
        else ("map-controls", "chat-main-container", false, None) in
      {| overlay_style := updated FADE; map_class := updated map_class;
         chat_class := updated chat_class; auto_focus := updated auto_focus;
         tell_me_prompt := updated tell_me_prompt; max_intervals := updated 1 |}
  end.

Definition complete_overlay_transition (n_intervals : Z) : output style * output Z :=
  if 0 <? n_intervals then (updated HIDDEN, updated 0) else (no_update, no_update).

Definition update_chat_input_from_trigger (trigger_value : option str)
  : output str * output str :=
  match trigger_value with
  | Some (c :: s) => (updated [], updated (c :: s))
  | _ => (no_update, no_update)
  end.

(** *** Tabs and the shared input box *)

Definition switch_tabs (triggered : list str) (stats_clicks community_clicks : option Z)
    (active_tab : str) : style * style * string * string * str :=
  match triggered with
  | [] => (SHOWN, HIDDEN, "chat-tab active", "chat-tab", lit "stats")
  | prop_id :: _ =>
      if str_eqb (button_of prop_id) (lit "stats-tab")
      then (SHOWN, HIDDEN, "chat-tab active", "chat-tab", lit "stats")
      else (HIDDEN, SHOWN, "chat-tab", "chat-tab active", lit "community")
  end.

Record routed := {
  left_input : output str;
  right_input : output str;
  right_submit : output Z;
  right_clicks : output Z;
  left_loading : style;
  right_loading : style
}.

Definition handle_combined_chat_input (triggered : list str) (n_clicks n_submit : option Z)
    (input_value : option str) (active_tab : str) : result routed :=
  match triggered, input_value with
  | _ :: _, Some value =>
      if blank input_value then Raise PreventUpdate
      else if str_eqb active_tab (lit "stats")
      then Ok {| left_input := updated value; right_input := no_update;
                 right_submit := no_update; right_clicks := no_update;
                 left_loading := SHOWN; right_loading := HIDDEN |}
      else Ok {| left_input := no_update; right_input := updated value;
                 right_submit := updated 1; right_clicks := updated 1;
                 left_loading := HIDDEN; right_loading := SHOWN |}
  | _, _ => Raise PreventUpdate
  end.

Definition handle_chat_input_right (triggered : list str) (n_clicks n_submit : option Z)
    (input_value : option str) (msgs : option (list component))
  : result (list component * str * style * str) :=
  match triggered, input_value with
  | _ :: _, Some value =>
      if blank input_value then Raise PreventUpdate
      else
        let msgs := default [] msgs in
        Ok (msgs ++ [Div (Single (Str value)) "user-message"], [], SHOWN, strip value)
  | _, _ => Raise PreventUpdate
  end.

Definition update_date_from_slider (n_clicks : option Z) (date_value : option str)
  : result str :=
  match date_value with
  | Some (c :: s) => Ok (c :: s)
  | _ => Raise PreventUpdate
  end.

(** ** The chat callbacks *)

Definition NO_REPLY : str := lit "[No reply received]".

Definition LIMIT : nat := 150.

Definition bot_message (children : list component) : component :=
  Div (Several children) "bot-message".

Section Chat.
Variable read_json : str → result DataFrame.
Variable to_numeric : value → float.
Variable to_datetime : value → option Timestamp.
Variable series_sum : list value → result value.
Variable sort_keys : list value → list value.
Variable concat_error : list DataFrame → option exn.
Variable to_csv : DataFrame → result str.
Variable http_get : world → str → response.
Variable CACHE_DIR : string.
Variable API_BASE_URL : str.
Variable strptime_month_year : str → option (Z * Z).
(** The [try] block of [get_chat_response]: [requests.post] with the
  prompt as [client_query], [raise_for_status] and [response.json()];
  an exception of any of them, or the value under the key
  [response], [None] when the answer has no such key. *)
Variable http_post : world → str → str → result (option str).

(** The loads the module makes when it is imported: the shots and the
  matched homicides, then the 311 records, then the slider's range. *)
Definition startup (w : world)
: result (DataFrame * DataFrame * DataFrame * option Z) * world :=
let '(shots, w1) :=
  get_shots_fired_data read_json to_numeric to_datetime http_get CACHE_DIR API_BASE_URL
    false w in
match shots with
| Raise e => (Raise e, w1)
| Ok (df_shots, df_hom_shot_matched) =>
    let '(loaded, w2) :=
      get_311_data read_json to_numeric to_datetime http_get CACHE_DIR API_BASE_URL
        false w1 in
    match loaded with
    | Raise e => (Raise e, w2)
    | Ok df_311 =>
        (max_value ← slider_max df_311;
         Ok (df_shots, df_hom_shot_matched, df_311, max_value), w2)
    end
end.

Definition select_311 :=
get_select_311_data read_json series_sum sort_keys concat_error to_csv http_get
  API_BASE_URL.

Definition chat_url (structured_response : bool) : str :=
API_BASE_URL ++ lit "/chat?request=experiment_7&app_version=" ++ APP_VERSION
  ++ lit "&structured_response="
  ++ (if structured_response then lit "True" else lit "False").

Definition get_chat_response (prompt : str) (structured_response : bool) (w : world)
: str * world :=
let url := chat_url structured_response in
(match http_post w url prompt with
 | Ok (Some reply) => reply
 | Ok None => NO_REPLY
 | Raise e => lit "[Error: " ++ exn_msg e ++ lit "]"
 end,
 log_request url w).

Definition selected_date (slider_value : str) : str :=
year_month_text (date_string_to_year_month strptime_month_year slider_value).

Definition update_date_display (value : str) : str := selected_date value.

(** *** [handle_chat_response] *)

Definition analytic_prompt (date : str) : str :=
lit "response-type = analytic. Your neighbor has selected the date " ++ date
  ++ lit " and wants to understand how the situation "
  ++ lit "in your neighborhood of Dorchester on " ++ date
  ++ lit " compares to overall trends...".

Definition area_prompt (date event_date_data event_id_data : str) : str :=
[NL; NL]
  ++ lit "Your neighbor has specifically selected an area within Dorchester to examine. "
  ++ lit "The overall neighborhood 311 data on " ++ date ++ lit " are: "
  ++ event_date_data ++ lit ". "
  ++ lit "The specific area 311 data are: " ++ event_id_data
  ++ lit ". Compare the local area data, the neighborhood-wide data, "
  ++ lit "and the overall trends in the original 311 data.".

Definition handle_chat_response (stored_input : option str) (slider_value : str)
  (current_messages : option (list component)) (selected_hexbins_data : selection)
  (refresh_clicks : option Z) (w : world)
: result (list component * style * Z) * world :=
let current_messages := default [] current_messages in
let date := selected_date slider_value in
let prompt := analytic_prompt date in
let '(prompt, w1) :=
  match default [] (selected_ids selected_hexbins_data) with
  | [] => (Ok prompt, w)
  | ids =>
      let event_ids := join (lit ",") ids in
      let '(by_id, w1) := select_311 event_ids [] w in
      match by_id with
      | Raise e => (Raise e, w1)
      | Ok event_id_data =>
          let '(by_date, w2) := select_311 [] date w1 in
          match by_date with
          | Raise e => (Raise e, w2)
          | Ok event_date_data =>
              (Ok (prompt ++ area_prompt date event_date_data event_id_data), w2)
          end
      end
  end in
match prompt with
| Raise e => (Raise e, w1)
| Ok prompt =>
    let '(reply, w2) := get_chat_response prompt true w1 in
    let bot_response := bot_message [Markdown reply true] in
    (Ok (current_messages ++ [bot_response], HIDDEN, next_clicks refresh_clicks), w2)
end.

(** *** [handle_chat_response_right] *)

Definition community_prompt_for (date : str) (stored_input : option str) : str :=
match stored_input with
| Some (c :: s) =>
    lit "response-type = mixed. Your neighbor wants community insights for " ++ date
      ++ lit ". Based on the available data, provide insight in a direct and to-the-point manner to your neighbor's question: "
      ++ (c :: s)
| _ =>
    lit "response-type = sentiment. What were the main concerns in the community around "
      ++ date ++ lit "?"
end.

Definition handle_chat_response_right (stored_input : option str) (slider_value : str)
  (msgs : option (list component)) (selected : selection) (refresh_clicks : option Z)
  (w : world) : (list component * style * Z) * world :=
let msgs := default [] msgs in
let date := selected_date slider_value in
let prompt := community_prompt_for date stored_input in
let '(reply, w1) := get_chat_response prompt false w in
((msgs ++ [Div (Single (Markdown reply true)) "bot-message"], HIDDEN,
  next_clicks refresh_clicks), w1).

(** *** [handle_tell_me_prompt] *)

Definition handle_tell_me_prompt (prompt : option str)
  (current_messages : option (list component)) (refresh_clicks : option Z) (w : world)
: result (list component * str * output str * Z) * world :=
match prompt with
| Some (c :: s) =>
    let current_messages := default [] current_messages in
    let '(reply, w1) := get_chat_response (c :: s) false w in
    let bot_response :=
      bot_message [Strong (lit "This is what your neighbors are concerned with:");
                   Markdown reply true] in
    (Ok (current_messages ++ [bot_response], [], no_update, next_clicks refresh_clicks),
     w1)
| _ => (Raise PreventUpdate, w)
end.

(** *** [handle_initial_prompts] *)

Definition area_context_for (date evt_csv date_csv : str) (n_ids : nat) : str :=
[NL; NL] ++ lit "Specific area 311 data (subset of " ++ lit (pretty (Z.of_nat LIMIT))
  ++ lit " records shown):" ++ [NL] ++ evt_csv
  ++ [NL; NL] ++ lit "Neighborhood 311 data for " ++ date ++ lit ":" ++ [NL] ++ date_csv
  ++ (if (LIMIT <? n_ids)%nat
      then [NL; NL] ++ lit "Note: This area had " ++ lit (pretty (Z.of_nat n_ids))
             ++ lit " events, but only " ++ lit (pretty (Z.of_nat LIMIT))
             ++ lit " are analyzed due to system limits."
      else []).

Definition stats_prompt_for (date area_context : str) : str :=
lit "response-type = analytic. A by-the-numbers overview for Dorchester on " ++ date
  ++ lit ":" ++ area_context ++ lit " "
  ++ lit "Your neighbor has selected this specific area to focus on. You don't have to compare the statistics but just analyze the data and give the statistics along with insights. Focus on counts of 311, shots fired, etc.".

Definition meeting_prompt_for (date area_context : str) : str :=
lit "response-type = mixed. Community meeting summary for " ++ date
  ++ lit ":" ++ area_context ++ lit " "
  ++ lit "Your neighbor has selected this specific area to focus on. Share neighbor quotes and concerns.".

Definition handle_initial_prompts (n_clicks : option Z) (selected : selection)
  (slider_value : str) (refresh_clicks : option Z) (w : world)
: result (list component * list component * Z) * world :=
match n_clicks with
| None | Some 0 => (Raise PreventUpdate, w)
| Some _ =>
    let date := selected_date slider_value in
    let ids := default [] (selected_ids selected) in
    let '(area_context, w1) :=
      match ids with
      | [] => (Ok [], w)
      | _ :: _ =>
          let limited_ids := take LIMIT ids in
          let '(by_id, w1) := select_311 (join (lit ",") limited_ids) [] w in
          match by_id with
          | Raise e => (Raise e, w1)
          | Ok evt_csv =>
              let '(by_date, w2) := select_311 [] date w1 in
              match by_date with
              | Raise e => (Raise e, w2)
              | Ok date_csv =>
                  (Ok (area_context_for date evt_csv date_csv (length ids)), w2)
              end
          end
      end in
    match area_context with
    | Raise e => (Raise e, w1)
    | Ok area_context =>
        let '(stats_reply, w2) :=
          get_chat_response (stats_prompt_for date area_context) true w1 in
        let stats_message :=
          bot_message [Strong (lit "A by-the-numbers overview of your neighborhood:");
                       Markdown stats_reply true] in
        let '(community_reply, w3) :=
          get_chat_response (meeting_prompt_for date area_context) false w2 in
        let community_message :=
          bot_message [Strong (lit "From recent community meetings:");
                       Markdown community_reply true] in
        (Ok ([stats_message], [community_message], next_clicks refresh_clicks), w3)
    end
end.
End Chat.

(** ** Reference instances

    Concrete stand-ins for the library calls, small enough to run the
    model on explicit inputs. *)

Definition ValueError (msg : string) : exn :=
  {| exn_class := "ValueError"; exn_msg := lit msg |}.

Definition is_digit (c : ascii) : bool :=
  (48 <=? Z.of_nat (nat_of_ascii c)) && (Z.of_nat (nat_of_ascii c) <=? 57).

Definition digits_value (s : str) : option Z :=
  match s with
  | [] => None
  | _ :: _ =>
      if forallb is_digit s
      then Some (fold_left (λ acc c, 10 * acc + (Z.of_nat (nat_of_ascii c) - 48)) s 0)
      else None
  end.

(** The table [pd.read_json] makes of an array of numbers: one column,
    named [0]. *)
Definition int_frame (zs : list Z) : DataFrame :=
  {| columns := ["0"]; rows := (λ z, ({[ "0" := VInt z ]} : row)) <$> zs |}.

Definition QUOTE : ascii := "034"%char.
Definition quoted (s : string) : str := QUOTE :: lit s ++ [QUOTE].

(** One record of the 311 and shots endpoints, and its table. *)
Definition demo_record_json : str :=
  lit "{" ++ quoted "id" ++ lit ":7," ++ quoted "latitude" ++ lit ":42.25,"
    ++ quoted "longitude" ++ lit ":-71.0625," ++ quoted "date" ++ lit ":"
    ++ quoted "2024-12-03" ++ lit "," ++ quoted "normalized_type" ++ lit ":"
    ++ quoted "Trash" ++ lit "," ++ quoted "ballistics_evidence" ++ lit ":1}".

Definition demo_record : row :=
  {[ "id" := VInt 7; "latitude" := VFloat 42.25; "longitude" := VFloat (-71.0625);
     "date" := VTime {| ts_year := 2024; ts_month := 12; ts_nanos := 172800000000000 |};
     "normalized_type" := VStr (lit "Trash"); "ballistics_evidence" := VInt 1 ]}.

Definition demo_record_frame : DataFrame :=
  {| columns := ["id"; "latitude"; "longitude"; "date"; "normalized_type";
                 "ballistics_evidence"];
     rows := [demo_record] |}.

(** One row of the summary endpoint, and its table. *)
Definition demo_summary_json : str :=
  lit "{" ++ quoted "reported_issue" ++ lit ":" ++ quoted "Trash" ++ lit ","
    ++ quoted "total" ++ lit ":2}".

Definition demo_summary_frame : DataFrame :=
  {| columns := ["reported_issue"; "total"];
     rows := [({[ "reported_issue" := VStr (lit "Trash"); "total" := VInt 2 ]} : row)] |}.

(** A reader for a fragment of JSON: the two record arrays above by
    their exact text, the empty array, and arrays of unsigned integers.
    Everything else, the empty text included, is refused with the
    message ujson gives. *)
Definition demo_read_json (s : str) : result DataFrame :=
  if str_eqb s (["["%char] ++ demo_record_json ++ ["]"%char]) then Ok demo_record_frame
  else if str_eqb s (["["%char] ++ demo_summary_json ++ ["]"%char]) then Ok demo_summary_frame
  else
    match s with
    | "["%char :: rest =>
        if endswith rest ["]"%char]
        then match drop_last rest with
             | [] => Ok empty_frame
             | inner =>
                 match mapM digits_value (split ","%char inner) with
                 | Some zs => Ok (int_frame zs)
                 | None => Raise (ValueError "Expected object or value")
                 end
             end
        else Raise (ValueError "Expected object or value")
    | _ => Raise (ValueError "Expected object or value")
    end.

(** Numbers stay, small non-negative integers become floats, the rest
    is [nan]. *)
Definition demo_to_numeric (v : value) : float :=
  match v with
  | VFloat f => f
  | VInt z => if (0 <=? z) && (z <? 9007199254740992)
              then PrimFloat.of_uint63 (Uint63.of_Z z) else nan
  | _ => nan
  end.

Definition demo_to_datetime (v : value) : option Timestamp :=
  match v with
  | VTime t => Some t
  | _ => None
  end.

Definition TypeError (msg : string) : exn :=
  {| exn_class := "TypeError"; exn_msg := lit msg |}.

(** The sum of the integers of a group; a text among them is
    refused. *)
Definition demo_series_sum (cells : list value) : result value :=
  if existsb (λ v, match v with VStr _ => true | _ => false end) cells
  then Raise (TypeError "unsupported operand type(s) for +: 'int' and 'str'")
  else Ok (VInt (fold_left (λ acc v, match v with VInt z => acc + z | _ => acc end)
                   cells 0)).

(** Keys in the order they were met. *)
Definition demo_sort_keys (keys : list value) : list value := keys.

Definition demo_str (v : value) : str :=
  match v with
  | VInt z => lit (pretty z)
  | VStr s => s
  | _ => lit "nan"
  end.

(** A table as text: the header, then one line per row. *)
Definition demo_to_csv (df : DataFrame) : result str :=
  Ok (join [NL] (join (lit ",") (lit <$> columns df)
                 :: ((λ r : row, join (lit ",") ((λ c, demo_str (r !!! c)) <$> columns df))
                     <$> rows df))).

(** Tables that are always put together. *)
Definition demo_concat_error (dfs : list DataFrame) : option exn := None.

Definition demo_cell_value (s : str) : value :=
  match digits_value s with
  | Some z => VInt z
  | None => VStr s
  end.

Definition EmptyDataError : exn :=
  {| exn_class := "EmptyDataError"; exn_msg := lit "No columns to parse from file" |}.

Definition demo_read_csv (s : str) : result DataFrame :=
  match s with
  | [] => Raise EmptyDataError
  | _ :: _ =>
      match split NL s with
      | [] => Raise EmptyDataError
      | header :: lines =>
          let cols := string_of_list_ascii <$> split ","%char header in
          Ok {| columns := cols;
                rows := (λ line, list_to_map (zip cols (demo_cell_value <$> split ","%char line)))
                        <$> lines |}
      end
  end.

(** The API: an error for any request that names the id [bad], the
    summary row for summary requests, the record otherwise; a body comes
    in two chunks. *)
Definition demo_http_get (w : world) (url : str) : response :=
  if contains (lit "bad") url
  then {| status_code := 500; text := lit "failure"; chunks := [lit "failure"] |}
  else
    let element := if contains (lit "311_summary") url
                   then demo_summary_json else demo_record_json in
    let body := OPEN ++ element ++ CLOSE in
    {| status_code := 200; text := body; chunks := [take 5 body; drop 5 body] |}.

Definition demo_world : world :=
  {| clock := 1000; files := ∅; requested := [] |}.

(** A grid of two cells, split at latitude 42.5. *)
Definition demo_latlng_to_cell (lat lng : value) (res : Z) : str :=
  match lat with
  | VFloat f => if PrimFloat.ltb f 42.5 then lit "8a2a1072b59ffff" else lit "8a2a1072b5b7fff"
  | _ => lit "0"
  end.

Definition H3LatLngDomainError : exn :=
  {| exn_class := "H3LatLngDomainError";
     exn_msg := lit "Latitude or longitude arguments were outside of acceptable range" |}.

(** The grid takes finite floats only. *)
Definition demo_latlng_error (lat lng : value) : option exn :=
  match lat, lng with
  | VFloat a, VFloat b =>
      if PrimFloat.is_finite a && PrimFloat.is_finite b then None
      else Some H3LatLngDomainError
  | _, _ => Some (TypeError "must be real number")
  end.




Definition demo_strptime (s : str) : option (Z * Z) :=
  if str_eqb s (lit "December 2024") then Some (2024, 12)
  else if str_eqb s (lit "January 2025") then Some (2025, 1)
  else None.

Definition demo_point (id : Z) (lat : float) (year month : Z) : row :=
  {[ "id" := VInt id; "latitude" := VFloat lat; "longitude" := VFloat (-71.0625);
     "date" := VTime {| ts_year := year; ts_month := month; ts_nanos := 86400000000000 |};
     "month" := VTime (month_start year month); "category" := VStr (lit "Trash") ]}.

(** Four records: ids 1, 2 and 4 in one cell, id 3 in the other; id 4
    is of January 2025, the others of December 2024. *)
Definition demo_311 : DataFrame :=
  {| columns := ["id"; "latitude"; "longitude"; "date"; "month"; "category"];
     rows := [demo_point 1 42.25 2024 12; demo_point 2 42.25 2024 12;
              demo_point 3 42.75 2024 12; demo_point 4 42.25 2025 1] |}.

(** The three records of December 2024 alone: a table with no record
    of January 2025. *)
Definition demo_december : DataFrame :=
  {| columns := columns demo_311; rows := take 3 (rows demo_311) |}.

(** Raw rows for the normaliser: inside the box, on its edge, not a

    number, outside. *)
Definition demo_raw : DataFrame :=
  {| columns := ["latitude"; "longitude"];
     rows := [({[ "latitude" := VFloat 42.25; "longitude" := VFloat (-71.0625) ]} : row);
              ({[ "latitude" := VFloat 40; "longitude" := VFloat (-71.0625) ]} : row);
              ({[ "latitude" := VStr (lit "n/a"); "longitude" := VFloat (-71.0625) ]} : row);
              ({[ "latitude" := VFloat 42.25; "longitude" := VFloat (-69.5) ]} : row)] |}.

(** A stream of three numbers, whole and cut off before the bracket. *)
Definition demo_whole : str := OPEN ++ join SEP [lit "1"; lit "2"; lit "3"] ++ CLOSE.
Definition demo_cut : str := OPEN ++ join SEP [lit "1"; lit "2"; lit "3"] ++ [NL].

Definition demo_update_shot_count :=
  update_shot_count demo_latlng_to_cell demo_latlng_error demo_strptime.
Definition demo_get_311_data :=
  get_311_data demo_read_json demo_to_numeric demo_to_datetime demo_http_get
    "./cache" (lit "http://127.0.0.1:8888").
Definition demo_get_shots_fired_data :=
  get_shots_fired_data demo_read_json demo_to_numeric demo_to_datetime demo_http_get
    "./cache" (lit "http://127.0.0.1:8888").
Definition demo_get_select_311_data :=
  get_select_311_data demo_read_json demo_series_sum demo_sort_keys demo_concat_error
    demo_to_csv demo_http_get (lit "http://127.0.0.1:8888").
Definition demo_compute_area_category_counts :=
  compute_area_category_counts demo_read_json demo_series_sum demo_sort_keys
    demo_concat_error demo_to_csv demo_read_csv demo_http_get (lit "http://127.0.0.1:8888").

(** 120 ids, the eighth of which the API refuses. *)
Definition demo_ids : list str :=
  <[7%nat := lit "bad"]> ((λ n, lit (pretty (Z.of_nat n))) <$> seq 0 120).
Definition demo_event_ids : str := join (lit ",") demo_ids.

(** ** Reference instances for the callbacks *)

(** Counts in the order the categories were met. *)
Definition demo_order_counts (counts : list (value * nat)) : list (value * nat) := counts.

(** The chat API: it answers every prompt with the same line. *)
Definition demo_http_post (w : world) (url prompt : str) : result (option str) :=
  Ok (Some (lit "Noted.")).

(** An API whose every answer is the array of no record. *)
Definition demo_http_get_empty (w : world) (url : str) : response :=
  {| status_code := 200; text := OPEN ++ CLOSE; chunks := [OPEN ++ CLOSE] |}.

Definition demo_url : str := lit "http://127.0.0.1:8888/data/query?request=311_by_geo".

(** A selection of two records, and one of 160. *)
Definition demo_selection : selection :=
  {| selected_hexbins := Some [lit "8a2a1072b59ffff"];
     selected_ids := Some [lit "1"; lit "2"] |}.

Definition demo_wide_selection : selection :=
  {| selected_hexbins := Some [lit "8a2a1072b59ffff"];
     selected_ids := Some ((λ n, lit (pretty (Z.of_nat n))) <$> seq 0 160) |}.

Definition demo_update_category_counts :=
  update_category_counts demo_str demo_strptime demo_order_counts.
Definition demo_handle_chat_response :=
  handle_chat_response demo_read_json demo_series_sum demo_sort_keys demo_concat_error
    demo_to_csv demo_http_get (lit "http://127.0.0.1:8888") demo_strptime demo_http_post.
Definition demo_handle_initial_prompts :=
  handle_initial_prompts demo_read_json demo_series_sum demo_sort_keys demo_concat_error
    demo_to_csv demo_http_get (lit "http://127.0.0.1:8888") demo_strptime demo_http_post.

(** An API that answers every request with no body at all. *)
Definition demo_http_get_blank (w : world) (url : str) : response :=
  {| status_code := 200; text := []; chunks := [] |}.


(** * Properties *)

Local Close Scope Z_scope.
Local Open Scope nat_scope.

(** ** Grouping by cell *)

Lemma str_eqb_eq a b : str_eqb a b = true ↔ a = b.
Proof. unfold str_eqb. by rewrite bool_decide_eq_true. Qed.








Section Grouping.
Variable latlng_to_cell : value → value → Z → str.
Variable py_str : value → str.

Let cell_of := row_cell latlng_to_cell.
Let id_of (r : row) : str := py_str (r !!! "id").
Let step res := (λ d (r : row), setdefault_append (cell_of res r) (id_of r) d).




End Grouping.

Lemma has_columns_cons c cs df :
  has_columns (c :: cs) df = true ↔ has_column c df = true ∧ has_columns cs df = true.
Proof. unfold has_columns. simpl. apply andb_true_iff. Qed.

Ltac split_columns :=
  repeat match goal with
         | H : has_columns (_ :: _) _ = true |- _ =>
             apply has_columns_cons in H as [? H]
         end.

Lemma length_concat_sum {A} (ls : list (list A)) :
  length (concat ls) = sum_list (length <$> ls).
Proof. induction ls as [|l ls IH]; simpl; [done|]. by rewrite length_app, IH. Qed.



Section MonthView.
Variable latlng_to_cell : value → value → Z → str.
Variable cell_to_boundary : str → (float * float) * list (float * float).
Variable cell_to_latlng : str → float * float.
Variable py_str : value → str.
Variable strptime_month_year : str → option (Z * Z).

Let cell_of := row_cell latlng_to_cell RESOLUTION.
Let id_of (r : row) : str := py_str (r !!! "id").









Lemma require_column_ok {A} c df (k : result A) :
  has_column c df = true → require_column c df k = k.
Proof. unfold require_column. by intros ->. Qed.

Lemma require_attribute_ok {A} c df (k : result A) :
  has_column c df = true → require_attribute c df k = k.
Proof. unfold require_attribute. by intros ->. Qed.


End MonthView.




(** ** float64 facts

    The operations of [PrimFloat] are specified by those of
    [SpecFloat]; the facts below are read off that specification. *)











(** The rounding at work: three records in a view whose largest cell
    holds five do not give 6.4. *)
Example normalized_value_rounds :
  normalized_value 3 5 = 0x1.9999999999999p+2%float
  ∧ (64 / 10)%float = 0x1.999999999999ap+2%float.
Proof. split; reflexivity. Qed.


Section AllTimeView.
Variable latlng_to_cell : value → value → Z → str.
Variable cell_to_boundary : str → (float * float) * list (float * float).
Variable cell_to_latlng : str → float * float.
Variable latlng_error : value → value → option exn.
Variable py_str : value → str.
Variable strptime_month_year : str → option (Z * Z).







(** *** Shot counts *)

Let cell10 (r : row) : str := row_cell latlng_to_cell 10 r.
Let shots_in := update_shot_count latlng_to_cell latlng_error strptime_month_year.
Let probe (df : DataFrame) : result str :=
  shot_cell latlng_to_cell latlng_error df (nan_row (columns df)).

Lemma nan_row_lookup cols c : c ∈ cols → nan_row cols !!! c = VFloat nan.
Proof.
  intros Hc. unfold nan_row. apply lookup_total_correct.
  apply elem_of_list_to_map_1'.
  - intros v (c' & [= <- ->] & _)%list_elem_of_fmap. done.
  - apply list_elem_of_fmap. by exists c.

Qed.

(** The function applied to a row whose coordinates h3 accepts. *)
Lemma shot_cell_ok df r :
  has_column "latitude" df = true → has_column "longitude" df = true →
  latlng_error (r !!! "latitude") (r !!! "longitude") = None →
  shot_cell latlng_to_cell latlng_error df r = Ok (cell10 r).
Proof.
  intros Hlat Hlon Hok. unfold shot_cell, cell_at.
  rewrite !require_attribute_ok by done. by rewrite Hok.
Qed.

Lemma mapM_shot_cell df rs :
  has_column "latitude" df = true → has_column "longitude" df = true →
  (∀ r, r ∈ rs → latlng_error (r !!! "latitude") (r !!! "longitude") = None) →
  mapM (shot_cell latlng_to_cell latlng_error df) rs = Ok (cell10 <$> rs).
Proof.
  intros Hlat Hlon. induction rs as [|r rs IH]; intros Hok; [done|].
  cbn [mapM]. rewrite shot_cell_ok; [|done|done|apply Hok; by left].
  cbn [mbind result_bind]. rewrite IH; [done|]. intros r' Hr'. apply Hok. by right.
Qed.

(** On a table with both coordinate columns, the function tried on
    the row of [nan] raises exactly when h3 refuses [nan]. *)
Lemma probe_coordinates df :
  has_column "latitude" df = true → has_column "longitude" df = true →
  probe df = match latlng_error (VFloat nan) (VFloat nan) with
             | Some e => Raise e
             | None => Ok (latlng_to_cell (VFloat nan) (VFloat nan) 10)
             end.
Proof.
  intros Hlat Hlon. unfold probe, shot_cell, cell_at.
  rewrite !require_attribute_ok by done.
  rewrite !nan_row_lookup; [done|..].
  - unfold has_column in Hlon. by apply bool_decide_eq_true in Hlon.
  - unfold has_column in Hlat. by apply bool_decide_eq_true in Hlat.
Qed.

(** The query with a selection: the three steps after the test. *)
Lemma update_shot_count_selected selected date_str df_shots h hs :
  has_column "date" df_shots = true →
  default [] (selected_hexbins selected) = h :: hs →
  shots_in selected date_str df_shots
  = (x ← apply_rows (shot_cell latlng_to_cell latlng_error df_shots) (columns df_shots)
           (List.filter (in_month "date" (selected_month strptime_month_year date_str))
              (rows df_shots));
     cells ← set_cell_column x;
     Ok (length (List.filter (λ cell, bool_decide (cell ∈ h :: hs)) cells))).
Proof.
  intros Hdate Eh. unfold shots_in, update_shot_count.
  rewrite require_column_ok by done. by rewrite Eh.
Qed.

(** A month with shot rows, all with coordinates h3 accepts. *)
Lemma update_shot_count_rows selected date_str df_shots :
  let ts := selected_month strptime_month_year date_str in
  let df_month := List.filter (in_month "date" ts) (rows df_shots) in
  let hex_ids := default [] (selected_hexbins selected) in
  has_column "date" df_shots = true →
  hex_ids ≠ [] → df_month ≠ [] →
  has_columns ["latitude"; "longitude"] df_shots = true →
  (∀ r, r ∈ df_month → latlng_error (r !!! "latitude") (r !!! "longitude") = None) →
  shots_in selected date_str df_shots
  = Ok (length (List.filter (λ r, bool_decide (cell10 r ∈ hex_ids)) df_month)).
Proof.
  intros ts df_month hex_ids Hdate Hne Hm Hcols Hok. split_columns.
  destruct hex_ids as [|h hs] eqn:Eh; [done|].
  rewrite (update_shot_count_selected _ _ _ h hs) by done.
  fold ts. fold df_month. unfold apply_rows.
  destruct df_month as [|r rs] eqn:Em; [done|].
  rewrite mapM_shot_cell by done. cbn [mbind result_bind set_cell_column].
  f_equal. change (cell10 <$> r :: rs) with (map cell10 (r :: rs)).
  by rewrite filter_map_swap, length_map.
Qed.

(** A month without shot rows: what [apply] returns on the empty
    table decides. *)
Lemma update_shot_count_no_rows selected date_str df_shots :
  let ts := selected_month strptime_month_year date_str in
  let df_month := List.filter (in_month "date" ts) (rows df_shots) in
  let hex_ids := default [] (selected_hexbins selected) in
  has_column "date" df_shots = true →
  hex_ids ≠ [] → df_month = [] →
  shots_in selected date_str df_shots
  = match probe df_shots, columns df_shots with
    | Ok _, _ | Raise _, [_] => Ok 0
    | Raise _, [] =>
        Raise (ValueError_columns
                 "Cannot set a DataFrame without columns to the column cell")
    | Raise _, _ :: _ :: _ =>
        Raise (ValueError_columns
                 "Cannot set a DataFrame with multiple columns to the single column cell")
    end.
Proof.
  intros ts df_month hex_ids Hdate Hne Em.
  destruct hex_ids as [|h hs] eqn:Eh; [done|].
  rewrite (update_shot_count_selected _ _ _ h hs) by done.
  fold ts. fold df_month. rewrite Em. unfold apply_rows. fold (probe df_shots).
  destruct (probe df_shots) as [c|e]; [done|].
  cbn [mbind result_bind set_cell_column columns].
  by destruct (columns df_shots) as [|c1 [|c2 cs]].
Qed.

(** A table with the columns [date] and [latitude] has two columns
    or more. *)
Lemma two_columns df :
  has_column "date" df = true → has_column "latitude" df = true →
  ∃ c1 c2 cs, columns df = c1 :: c2 :: cs.
Proof.
  unfold has_column. intros Hd Hl.
  apply bool_decide_eq_true in Hd, Hl.
  destruct (columns df) as [|c1 [|c2 cs]]; [by apply elem_of_nil in Hd| |by eexists _, _, _].
  apply list_elem_of_singleton in Hd, Hl. congruence.
Qed.

(** C8. The month's shot count on a table with a [date] column.
    Without a hexagon selection it is the number of shot rows of the
    month. With a selection and shot rows in the month, all with
    coordinates h3 accepts, it is the number of those rows whose cell
    at resolution 10 is selected. With a selection and no shot row in
    the month, the outcome is decided by what [apply] returns on a
    table without rows: when h3 refuses [nan], a copy of the table,
    which cannot be stored as the column [cell] of a table of two
    columns or more, so that the query raises [ValueError] where the
    count is 0; when h3 accepts [nan], a column of no cell, and the
    count is 0. *)
Theorem update_shot_count_spec selected date_str df_shots :
  let ts := selected_month strptime_month_year date_str in
  let df_month := List.filter (in_month "date" ts) (rows df_shots) in
  let hex_ids := default [] (selected_hexbins selected) in
  has_column "date" df_shots = true →
  (hex_ids = [] → shots_in selected date_str df_shots = Ok (length df_month))
  ∧ (hex_ids ≠ [] → df_month ≠ [] →
     has_columns ["latitude"; "longitude"] df_shots = true →
     (∀ r, r ∈ df_month → latlng_error (r !!! "latitude") (r !!! "longitude") = None) →
     shots_in selected date_str df_shots
     = Ok (length (List.filter (λ r, bool_decide (cell10 r ∈ hex_ids)) df_month)))
  ∧ (hex_ids ≠ [] → df_month = [] →
     has_columns ["latitude"; "longitude"] df_shots = true →
     shots_in selected date_str df_shots
     = match latlng_error (VFloat nan) (VFloat nan) with
       | Some _ =>
           Raise (ValueError_columns
                    "Cannot set a DataFrame with multiple columns to the single column cell")
       | None => Ok 0
       end)
  ∧ (hex_ids ≠ [] → df_month = [] →
     has_columns ["latitude"; "longitude"] df_shots = false →
     shots_in selected date_str df_shots
     = match columns df_shots with
       | [_] => Ok 0
       | _ =>
           Raise (ValueError_columns
                    "Cannot set a DataFrame with multiple columns to the single column cell")
       end).
Proof.
  intros ts df_month hex_ids Hdate. split_and!.
  - intros Eh. unfold shots_in, update_shot_count. fold ts.
    rewrite require_column_ok by done. fold df_month. fold hex_ids. by rewrite Eh.
  - by apply update_shot_count_rows.
  - intros Hne Em Hcols. rewrite update_shot_count_no_rows by done.
    pose proof Hcols as Hc. split_columns.
    rewrite probe_coordinates by done.
    destruct (two_columns df_shots) as (c1 & c2 & cs & ->); [done..|].
    by destruct (latlng_error _ _).
  - intros Hne Em Hcols. rewrite update_shot_count_no_rows by done.
    assert (∃ e, probe df_shots = Raise e) as [e ->].
    { unfold probe, shot_cell, require_attribute.
      unfold has_columns in Hcols. cbn [forallb] in Hcols. rewrite andb_true_r in Hcols.
      destruct (has_column "latitude" df_shots); [|by eexists].
      destruct (has_column "longitude" df_shots); [done|by eexists]. }
    destruct (columns df_shots) as [|c1 [|c2 cs]] eqn:Ec; try done.
    unfold has_column in Hdate. rewrite Ec in Hdate.
    apply bool_decide_eq_true in Hdate. by apply elem_of_nil in Hdate.
Qed.

(** *** The counter of an area *)







End AllTimeView.

(** *** IEEE comparisons

    [<=] and [>] exclude each other, [nan] included. *)

Lemma SFcompare_swap x y : SFcompare y x = option_map CompOpp (SFcompare x y).
Proof.
  destruct x as [s|s| |s m e], y as [s'|s'| |s' m' e']; simpl;
    try reflexivity; try (destruct s; reflexivity); try (destruct s'; reflexivity);
    try (destruct s, s'; reflexivity).
  destruct s, s'; try reflexivity; f_equal;
    rewrite (Z.compare_antisym e e');
    change (Pos.compare_cont Eq m' m) with (Pos.compare m' m);
    change (Pos.compare_cont Eq m m') with (Pos.compare m m');
    rewrite (Pos.compare_antisym m m');
    destruct (Z.compare e e'), (Pos.compare m m'); reflexivity.
Qed.

Lemma float_leb_not_ltb x y : PrimFloat.leb x y = true → PrimFloat.ltb y x = false.
Proof.
  rewrite leb_spec, ltb_spec. unfold SFleb, SFltb.
  rewrite (SFcompare_swap (Prim2SF x) (Prim2SF y)).
  by destruct (SFcompare (Prim2SF x) (Prim2SF y)) as [[]|].
Qed.

Section NormalizerFacts.
Variable to_numeric : value → float.
Variable to_datetime : value → option Timestamp.

Let lat (r : row) : float := to_numeric (r !!! "latitude").
Let lon (r : row) : float := to_numeric (r !!! "longitude").

Let coerced := coerce_location to_numeric.
Let with_month := add_month to_datetime.

Lemma has_column_set c c' f df :
  has_column c df = true → has_column c (set_column c' f df) = true.
Proof.
  unfold has_column at 1 2. rewrite !bool_decide_eq_true. intros Hc.
  unfold set_column. simpl.
  destruct (has_column c' df); [done|]. apply elem_of_app. by left.
Qed.

Lemma set_column_columns c f df :
  has_column c df = true → columns (set_column c f df) = columns df.
Proof. unfold set_column. simpl. by intros ->. Qed.

Lemma in_bounding_box_coerced r :
  in_bounding_box (coerced r) = inside_box (lat r) (lon r).
Proof.
  unfold in_bounding_box, coerced, coerce_location.
  rewrite lookup_total_insert_ne by done.
  by rewrite !lookup_total_insert_eq.
Qed.

Lemma normalize_location_eq df :
  has_columns ["latitude"; "longitude"] df = true →
  normalize_location to_numeric df
  = Ok {| columns := columns df;
          rows := coerced
                  <$> List.filter (λ r, inside_box (lat r) (lon r)) (rows df) |}.
Proof.
  intros Hc. split_columns. unfold normalize_location.
  rewrite require_column_ok by done.
  rewrite require_column_ok by (by apply has_column_set).
  f_equal. unfold select_rows. f_equal.
  - unfold coerce_column. rewrite !set_column_columns; try done. by apply has_column_set.
  - unfold coerce_column, set_column at 1. simpl. rewrite <-list_fmap_compose.
    assert (∀ r : row,
      ((λ r0 : row, <["longitude" := VFloat (to_numeric (r0 !!! "longitude"))]> r0)
       ∘ (λ r0 : row, <["latitude" := VFloat (to_numeric (r0 !!! "latitude"))]> r0)) r
      = coerced r) as Hco.
    { intros r. unfold compose, coerced, coerce_location.
      by rewrite lookup_total_insert_ne by done. }
    rewrite (list_fmap_ext _ coerced (rows df)) by (intros; apply Hco).
    change (coerced <$> rows df) with (map coerced (rows df)).
    rewrite filter_map_swap. f_equal. apply filter_ext. intros r.
    apply in_bounding_box_coerced.
Qed.

Lemma normalize_date_eq df :
  has_column "date" df = true →
  ∃ out, normalize_date to_datetime df = Ok out ∧ rows out = with_month <$> rows df.
Proof.
  intros Hd. unfold normalize_date. rewrite require_column_ok by done.
  eexists. split; [done|]. unfold set_column. simpl.
  by rewrite <-list_fmap_compose.
Qed.

(** C4. The normaliser with [location_columns=True]: the rows kept are
    exactly those whose coerced latitude is strictly between 40 and 43
    and whose coerced longitude is strictly between -72 and -70, in
    their order and with both coordinates coerced; a row on an edge
    of the box, or with a coordinate that is not a number, is
    dropped. *)
Theorem process_dataframe_bounding_box df :
  let kept := List.filter (λ r, inside_box (lat r) (lon r)) (rows df) in
  has_columns ["latitude"; "longitude"] df = true →
  process_dataframe to_numeric to_datetime df true false
  = Ok {| columns := columns df; rows := coerced <$> kept |}
  ∧ (has_column "date" df = true →
     ∃ out, process_dataframe to_numeric to_datetime df true true = Ok out
            ∧ rows out = with_month <$> (coerced <$> kept))
  ∧ (∀ r, r ∈ kept ↔
          r ∈ rows df
          ∧ PrimFloat.ltb 40 (lat r) = true ∧ PrimFloat.ltb (lat r) 43 = true
          ∧ PrimFloat.ltb (-72) (lon r) = true ∧ PrimFloat.ltb (lon r) (-70) = true)
  ∧ (∀ r, lat r = nan ∨ lon r = nan → r ∉ kept)
  ∧ (∀ r, lat r = 40%float ∨ lat r = 43%float
          ∨ lon r = (-72)%float ∨ lon r = (-70)%float → r ∉ kept)
  ∧ (∀ r, PrimFloat.leb (lat r) 40 = true ∨ PrimFloat.leb 43 (lat r) = true
          ∨ PrimFloat.leb (lon r) (-72) = true ∨ PrimFloat.leb (-70) (lon r) = true →
          r ∉ kept).
Proof.
  intros kept Hc. pose proof (normalize_location_eq df Hc) as Hloc.
  assert (∀ r, r ∈ kept ↔ r ∈ rows df ∧ inside_box (lat r) (lon r) = true) as Hkept.
  { intros r. unfold kept. by rewrite list_elem_of_In, filter_In, <-list_elem_of_In. }
  split_and!.
  - unfold process_dataframe. rewrite Hloc. done.
  - intros Hd. unfold process_dataframe. rewrite Hloc. simpl.
    destruct (normalize_date_eq
                {| columns := columns df; rows := coerced <$> kept |})
      as (out & Hout & Hrows); [done|].
    exists out. split; [exact Hout|exact Hrows].
  - intros r. rewrite Hkept. unfold inside_box. rewrite !andb_true_iff. tauto.
  - intros r Hnan (_ & Hin)%Hkept. unfold inside_box in Hin.
    destruct Hnan as [E|E]; rewrite E in Hin.
    + done.
    + by destruct (PrimFloat.ltb 40 (lat r)), (PrimFloat.ltb (lat r) 43).
  - intros r Hb (_ & Hin)%Hkept. unfold inside_box in Hin.
    destruct Hb as [E|[E|[E|E]]]; rewrite E in Hin.
    + done.
    + done.
    + by destruct (PrimFloat.ltb 40 (lat r)), (PrimFloat.ltb (lat r) 43).
    + by destruct (PrimFloat.ltb 40 (lat r)), (PrimFloat.ltb (lat r) 43),
           (PrimFloat.ltb (-72) (-70)).
  - intros r Hout (_ & Hin)%Hkept. unfold inside_box in Hin.
    rewrite !andb_true_iff in Hin. destruct Hin as [[[H1 H2] H3] H4].
    destruct Hout as [E|[E|[E|E]]]; apply float_leb_not_ltb in E; congruence.
Qed.
End NormalizerFacts.

Lemma path_join_inj dir a b : path_join dir a = path_join dir b → a = b.
Proof.
  unfold path_join. destruct (lit dir); [done|].
  destruct (endswith _ _).
  - apply String.app_inj.
  - intros H. apply String.app_inj in H. by apply String.app_inj in H.
Qed.

Lemma cache_stale_false path age w :
  cache_stale path age w = false ↔
  ∃ mtime c, files w !! path = Some (mtime, c) ∧ (clock w - mtime <= age * 60)%Q.
Proof.
  unfold cache_stale. destruct (files w !! path) as [[mtime c]|] eqn:E.
  - rewrite negb_false_iff, Qle_bool_iff. split.
    + intros H. by exists mtime, c.
    + intros (m & c' & [= <- <-] & H). done.
  - split; [done|]. by intros (m & c & ? & _).
Qed.

Section CacheFacts.
Variable read_json : str → result DataFrame.
Variable to_numeric : value → float.
Variable to_datetime : value → option Timestamp.
Variable http_get : world → str → response.
Variable CACHE_DIR : string.
Variable API_BASE_URL : str.

Let stream := stream_to_dataframe read_json http_get.
Let load_311 := get_311_data read_json to_numeric to_datetime http_get CACHE_DIR API_BASE_URL.
Let load_shots :=
  get_shots_fired_data read_json to_numeric to_datetime http_get CACHE_DIR API_BASE_URL.
Let path311 := path_311 CACHE_DIR.
Let url311 := url_311 API_BASE_URL.

Lemma stream_world url w :
  (stream url w).2 = log_request url w.
Proof. unfold stream, stream_to_dataframe. by case_bool_decide. Qed.

Let pshots := path_shots CACHE_DIR.
Let pmatched := path_matched CACHE_DIR.
Let ushots := url_shots API_BASE_URL.
Let umatched := url_matched API_BASE_URL.

Lemma path_shots_matched : pshots ≠ pmatched.
Proof. intros H. by apply path_join_inj in H. Qed.

(** C6. Two loads inside the 30 minute window, without a forced
    refresh, for each of the three datasets. The 311 records: a first
    load that returned made one request when the cache file was
    stale and none when it was fresh, the file holds the table
    returned, and any later load that finds the file no older than
    30 minutes returns that table and requests nothing. The shots and
    the matched homicides, which are loaded together: a first load
    that returned made one request for each of the two when a file
    was stale and none when both were fresh, the two files hold the
    two tables returned, and any later load that finds both files no
    older than 30 minutes returns those tables and requests
    nothing. *)
Theorem cached_load_fetches_once w :
  (∀ df w1,
     load_311 false w = (Ok df, w1) →
     ∃ mtime,
       files w1 !! path311 = Some (mtime, Parquet df)
       ∧ (cache_stale path311 30 w = true → requested w1 = url311 :: requested w)
       ∧ (cache_stale path311 30 w = false → requested w1 = requested w)
       ∧ ∀ w2, files w2 = files w1 → (clock w2 - mtime <= 30 * 60)%Q →
               load_311 false w2 = (Ok df, w2))
  ∧ (∀ df df_matched w1,
       load_shots false w = (Ok (df, df_matched), w1) →
       ∃ mtime_shots mtime_matched,
         files w1 !! pshots = Some (mtime_shots, Parquet df)
         ∧ files w1 !! pmatched = Some (mtime_matched, Parquet df_matched)
         ∧ (cache_stale pshots 30 w || cache_stale pmatched 30 w = true →
            requested w1 = umatched :: ushots :: requested w)
         ∧ (cache_stale pshots 30 w || cache_stale pmatched 30 w = false →
            requested w1 = requested w)
         ∧ ∀ w2, files w2 = files w1 →
                 (clock w2 - mtime_shots <= 30 * 60)%Q →
                 (clock w2 - mtime_matched <= 30 * 60)%Q →
                 load_shots false w2 = (Ok (df, df_matched), w2)).
Proof.
  split.
  - intros df w1 Hcall.
    assert (∀ mtime w2, files w1 !! path311 = Some (mtime, Parquet df) →
              files w2 = files w1 → (clock w2 - mtime <= 30 * 60)%Q →
              load_311 false w2 = (Ok df, w2)) as Hsecond.
    { intros mtime w2 Hfile Hfiles Hage. unfold load_311, get_311_data. fold path311.
      assert (cache_stale path311 30 w2 = false) as ->.
      { apply cache_stale_false. exists mtime, (Parquet df). by rewrite Hfiles. }
      simpl. unfold read_parquet. by rewrite Hfiles, Hfile. }
    unfold load_311, get_311_data in Hcall. fold path311 in Hcall. simpl in Hcall.
    destruct (cache_stale path311 30 w) eqn:Hstale; simpl in Hcall.
    + fold stream url311 in Hcall.
      pose proof (stream_world url311 w) as Hw.
      destruct (stream url311 w) as [fetched w'] eqn:Es. simpl in Hw. subst w'.
      destruct (fetched ≫= _) as [df'|e] eqn:Ep; [|done].
      injection Hcall as -> <-.
      exists (clock w). split_and!.
      * simpl. by rewrite lookup_insert_eq.
      * done.
      * done.
      * intros w2. apply Hsecond. simpl. by rewrite lookup_insert_eq.
    + injection Hcall as Hread <-.
      unfold read_parquet in Hread.
      destruct (files w !! path311) as [[mtime [df'|s]]|] eqn:Ef; simplify_eq.
      exists mtime. split_and!; try done.
      intros w2. by apply Hsecond.
  - intros df dm w1 Hcall.
    assert (∀ m1 m2 w2, files w1 !! pshots = Some (m1, Parquet df) →
              files w1 !! pmatched = Some (m2, Parquet dm) →
              files w2 = files w1 → (clock w2 - m1 <= 30 * 60)%Q →
              (clock w2 - m2 <= 30 * 60)%Q →
              load_shots false w2 = (Ok (df, dm), w2)) as Hsecond.
    { intros m1 m2 w2 Hf1 Hf2 Hfiles Ha1 Ha2.
      unfold load_shots, get_shots_fired_data. fold pshots pmatched.
      assert (cache_stale pshots 30 w2 = false) as ->.
      { apply cache_stale_false. exists m1, (Parquet df). by rewrite Hfiles. }
      assert (cache_stale pmatched 30 w2 = false) as ->.
      { apply cache_stale_false. exists m2, (Parquet dm). by rewrite Hfiles. }
      simpl. unfold read_parquet. by rewrite Hfiles, Hf1, Hf2. }
    unfold load_shots, get_shots_fired_data in Hcall. fold pshots pmatched in Hcall.
    simpl in Hcall.
    destruct (negb (cache_stale pshots 30 w) && negb (cache_stale pmatched 30 w))
      eqn:Hfresh.
    + apply andb_true_iff in Hfresh as [Hs Hm]. apply negb_true_iff in Hs, Hm.
      injection Hcall as Hread <-. unfold read_parquet in Hread.
      destruct (files w !! pshots) as [[m1 [d1|s1]]|] eqn:E1; try done.
      cbn [mbind result_bind] in Hread.
      destruct (files w !! pmatched) as [[m2 [d2|s2]]|] eqn:E2; try done.
      cbn [mbind result_bind] in Hread. injection Hread as <- <-.
      exists m1, m2. rewrite Hs, Hm. split_and!; try done.
      intros w2. by apply Hsecond.
    + assert (cache_stale pshots 30 w || cache_stale pmatched 30 w = true) as Hstale.
      { apply andb_false_iff in Hfresh as [H|H]; apply negb_false_iff in H; rewrite H;
          [done|apply orb_true_r]. }
      fold stream ushots umatched in Hcall.
      pose proof (stream_world ushots w) as Hw.
      destruct (stream ushots w) as [fetched w'] eqn:Es. simpl in Hw. subst w'.
      destruct (fetched ≫= prepare_shots to_numeric to_datetime) as [df'|e] eqn:Ep;
        [|done].
      pose proof (stream_world umatched (log_request ushots w)) as Hw.
      destruct (stream umatched (log_request ushots w)) as [fetched2 w'] eqn:Es2.
      simpl in Hw. subst w'.
      destruct (fetched2 ≫= prepare_matched to_numeric to_datetime) as [dm'|e] eqn:Ep2;
        [|done].
      injection Hcall as -> -> <-.
      assert (files (write_file pmatched (Parquet dm)
                       (write_file pshots (Parquet df)
                          (log_request umatched (log_request ushots w)))) !! pshots
              = Some (clock w, Parquet df)) as Hf1.
      { simpl. rewrite lookup_insert_ne by (apply not_eq_sym, path_shots_matched).
        by rewrite lookup_insert_eq. }
      assert (files (write_file pmatched (Parquet dm)
                       (write_file pshots (Parquet df)
                          (log_request umatched (log_request ushots w)))) !! pmatched
              = Some (clock w, Parquet dm)) as Hf2.
      { simpl. by rewrite lookup_insert_eq. }
      exists (clock w), (clock w). rewrite Hstale. split_and!; try done.
      intros w2. by apply Hsecond.
Qed.

(** A forced refresh always goes to the network. *)
Lemma get_311_data_forced w :
  requested (load_311 true w).2 = url311 :: requested w.
Proof.
  unfold load_311, get_311_data. simpl. fold stream url311.
  pose proof (stream_world url311 w) as Hw.
  destruct (stream url311 w) as [fetched w'] eqn:Es. simpl in Hw. subst w'.
  by destruct (fetched ≫= _).
Qed.

End CacheFacts.

(** ** Batches *)

Lemma range_count_step n s :
  0 < s → 0 < n → (n + s - 1) / s = S ((n - s + s - 1) / s).
Proof.
  intros Hs Hn. destruct (decide (s ≤ n)) as [Hle|Hlt].
  - replace (n + s - 1) with ((n - s + s - 1) + 1 * s) by lia.
    rewrite Nat.div_add by lia. lia.
  - replace (n - s + s - 1) with (s - 1) by lia.
    rewrite (Nat.div_small (s - 1)) by lia.
    symmetry. apply (Nat.div_unique _ _ _ (n - 1)); lia.
Qed.

Lemma batches_nil {A} size : batches size ([] : list A) = [].
Proof.
  unfold batches, range_step. simpl.
  destruct size as [|s]; [done|].
  replace (0 + S s - 1) with s by lia. by rewrite Nat.div_small by lia.
Qed.

Lemma batches_cons {A} size (l : list A) :
  0 < size → l ≠ [] →
  batches size l = take size l :: batches size (drop size l).
Proof.
  intros Hs Hl. unfold batches, range_step.
  assert (0 < length l) as Hn by (destruct l; [done|simpl; lia]).
  rewrite (range_count_step (length l) size) by done.
  rewrite length_drop. simpl seq. rewrite !fmap_cons. simpl. f_equal.
  rewrite <-fmap_S_seq.
  rewrite <-!list_fmap_compose. apply list_fmap_ext. intros _ k _. simpl.
  rewrite drop_drop. by do 2 f_equal.
Qed.

Lemma batches_ind {A} (P : list A → Prop) size :
  0 < size →
  P [] → (∀ l, l ≠ [] → P (drop size l) → P l) → ∀ l, P l.
Proof.
  intros Hs Hnil Hstep l.
  remember (length l) as n eqn:Hn. revert l Hn.
  induction n as [n IH] using lt_wf_ind. intros l ->.
  destruct l as [|a l]; [done|]. apply Hstep; [done|].
  apply (IH (length (drop size (a :: l)))); [|done].
  rewrite length_drop. simpl. lia.
Qed.

Lemma batches_concat {A} size (l : list A) : 0 < size → concat (batches size l) = l.
Proof.
  intros Hs. revert l. apply (batches_ind _ size Hs).
  - by rewrite batches_nil.
  - intros l Hl IH. rewrite batches_cons by done. simpl. rewrite IH. apply take_drop.
Qed.

Lemma batches_sizes {A} size (l : list A) b :
  0 < size → b ∈ batches size l → 1 ≤ length b ≤ size.
Proof.
  intros Hs. revert l. apply (batches_ind (λ l, b ∈ batches size l → _) size Hs).
  - rewrite batches_nil. intros H. by apply elem_of_nil in H.
  - intros l Hl IH. rewrite batches_cons by done.
    intros [->|Hin]%elem_of_cons; [|by apply IH].
    rewrite length_take. destruct l; [done|]. simpl. lia.
Qed.

Lemma batches_length {A} size (l : list A) :
  length (batches size l) = (length l + size - 1) / size.
Proof. unfold batches, range_step. by rewrite !length_fmap, length_seq. Qed.

Lemma batches_120 {A} (l : list A) :
  length l = 120 → length <$> batches BATCH_SIZE l = [50; 50; 20].
Proof.
  intros Hl. unfold batches, range_step. rewrite Hl. simpl.
  rewrite !length_take, !length_drop, Hl. done.
Qed.

(** ** [split] and [join] *)

Lemma split_nonempty sep s : split sep s ≠ [].
Proof.
  induction s as [|c s IH]; simpl; [done|].
  destruct (Ascii.eqb c sep); [done|]. by destruct (split sep s).
Qed.

Lemma split_no_sep sep a : sep ∉ a → split sep a = [a].
Proof.
  induction a as [|c a IH]; intros Hn; simpl; [done|].
  destruct (Ascii.eqb_spec c sep) as [->|Hc].
  - exfalso. apply Hn. by left.
  - rewrite IH; [done|]. intros H. apply Hn. by right.
Qed.

Lemma split_app_sep sep a rest :
  sep ∉ a → split sep (a ++ sep :: rest) = a :: split sep rest.
Proof.
  induction a as [|c a IH]; intros Hn; simpl.
  - by rewrite Ascii.eqb_refl.
  - destruct (Ascii.eqb_spec c sep) as [->|Hc].
    + exfalso. apply Hn. by left.
    + rewrite IH; [done|]. intros H. apply Hn. by right.
Qed.

Lemma split_join sep ids :
  ids ≠ [] → Forall (λ i, sep ∉ i) ids → split sep (join [sep] ids) = ids.
Proof.
  induction ids as [|i ids IH]; intros Hne Hall; [done|].
  apply Forall_cons in Hall as [Hi Hall].
  destruct ids as [|j ids].
  - simpl. by apply split_no_sep.
  - change (join [sep] (i :: j :: ids)) with (i ++ sep :: join [sep] (j :: ids)).
    rewrite split_app_sep by done. f_equal. by apply IH.
Qed.

Lemma split_join_comma ids :
  ids ≠ [] → Forall (λ i, ","%char ∉ i) ids →
  split ","%char (join (lit ",") ids) = ids.
Proof. apply (split_join ","%char). Qed.

(** ** Cells that hold a text *)

Lemma value_eqb_str s v : value_eqb (VStr s) v = true ↔ v = VStr s.
Proof.
  destruct v; simpl; try (split; [done|by intros [=]]).
  rewrite str_eqb_eq. split; [by intros ->|by intros [= ->]].
Qed.

Lemma value_eqb_str_r s v : value_eqb v (VStr s) = true ↔ v = VStr s.
Proof.
  destruct v; simpl; try (split; [done|by intros [=]]).
  rewrite str_eqb_eq. split; [by intros ->|by intros [= ->]].
Qed.

Lemma value_eqb_str_refl s : value_eqb (VStr s) (VStr s) = true.
Proof. by apply value_eqb_str. Qed.

Lemma filter_label_distinct s v d :
  List.filter (value_eqb (VStr s)) (List.filter (λ u, negb (value_eqb v u)) d)
  = if value_eqb (VStr s) v then [] else List.filter (value_eqb (VStr s)) d.
Proof.
  induction d as [|u d IH]; [by destruct (value_eqb (VStr s) v)|].
  cbn [List.filter].
  destruct (value_eqb (VStr s) v) eqn:Ev.
  - apply value_eqb_str in Ev. subst v.
    destruct (value_eqb (VStr s) u) eqn:Eu; cbn [negb List.filter]; [done|].
    by rewrite Eu.
  - destruct (value_eqb v u) eqn:Evu; cbn [negb List.filter].
    + destruct (value_eqb (VStr s) u) eqn:Eu; [|done].
      apply value_eqb_str in Eu. subst u. apply value_eqb_str_r in Evu. subst v.
      by rewrite value_eqb_str_refl in Ev.
    + destruct (value_eqb (VStr s) u); [by f_equal|done].
Qed.

Lemma distinct_str_filter s l :
  List.filter (value_eqb (VStr s)) (distinct l)
  = if existsb (value_eqb (VStr s)) l then [VStr s] else [].
Proof.
  induction l as [|v l IH]; [done|].
  cbn [distinct List.filter existsb]. rewrite filter_label_distinct.
  destruct (value_eqb (VStr s) v) eqn:Ev; cbn [orb].
  - by apply value_eqb_str in Ev as ->.
  - by rewrite IH.
Qed.

Lemma filter_perm_singleton {A} (f : A → bool) (l l' : list A) x :
  l' ≡ₚ l → List.filter f l = [x] → List.filter f l' = [x].
Proof.
  intros Hp Hf. apply Permutation_singleton_r. rewrite <-Hf.
  clear Hf. induction Hp; simpl.
  - done.
  - destruct (f x0); [by constructor|done].
  - destruct (f x0), (f y); try done. apply perm_swap.
  - by etrans.
Qed.

Lemma reindex_lookup cols (r : row) c :
  reindex cols r !! c
  = match r !! c with
    | Some v => Some v
    | None => if bool_decide (c ∈ cols) then Some (VFloat nan) else None
    end.
Proof.
  unfold reindex. induction cols as [|c' cols IH]; simpl.
  - by destruct (r !! c).
  - destruct (r !! c') eqn:Ec'.
    + rewrite IH. destruct (r !! c) eqn:Ec; [done|].
      destruct (decide (c = c')) as [->|Hne]; [congruence|].
      destruct (bool_decide (c ∈ cols)) eqn:Eb.
      * apply bool_decide_eq_true in Eb. rewrite bool_decide_eq_true_2; [done|by right].
      * apply bool_decide_eq_false in Eb. rewrite bool_decide_eq_false_2; [done|].
        by intros [?|?]%elem_of_cons.
    + destruct (decide (c = c')) as [->|Hne].
      * rewrite lookup_insert_eq, Ec'. rewrite bool_decide_eq_true_2; [done|by left].
      * rewrite lookup_insert_ne by done. rewrite IH. destruct (r !! c) eqn:Ec; [done|].
        destruct (bool_decide (c ∈ cols)) eqn:Eb.
        -- apply bool_decide_eq_true in Eb. rewrite bool_decide_eq_true_2; [done|by right].
        -- apply bool_decide_eq_false in Eb. rewrite bool_decide_eq_false_2; [done|].
           by intros [?|?]%elem_of_cons.
Qed.

(** ** Lists of results *)

Lemma mapM_result_Forall2 {A B} (f : A → result B) l bs :
  mapM f l = Ok bs → Forall2 (λ a b, f a = Ok b) l bs.
Proof.
  revert bs. induction l as [|x l IH]; intros bs Hm.
  - injection Hm as <-. constructor.
  - cbn [mapM] in Hm. destruct (f x) as [b|e] eqn:Ex; [|done].
    cbn [mbind result_bind] in Hm. destruct (mapM f l) as [bs'|e] eqn:El; [|done].
    injection Hm as <-. constructor; [done|]. by apply IH.
Qed.

(** ** Dictionaries built from pairs *)

Lemma dict_set_keys k v d :
  (dict_set k v d).*1
  = if existsb (λ k', value_eqb k' k) d.*1 then d.*1 else d.*1 ++ [k].
Proof.
  induction d as [|[k0 v0] d IH]; [done|].
  cbn [dict_set fmap list_fmap fst existsb].
  destruct (value_eqb k0 k); [done|]. cbn [orb fmap list_fmap fst].
  change (list_fmap _ _ fst ?l) with (l.*1). rewrite IH.
  by destruct (existsb _ _).
Qed.

Lemma keys_apart_nil : keys_apart [].
Proof. intros i j ki kj _ Hi. by destruct i. Qed.

Lemma dict_set_keys_apart k v d : keys_apart d → keys_apart (dict_set k v d).
Proof.
  intros Hd. unfold keys_apart. rewrite dict_set_keys.
  destruct (existsb (λ k', value_eqb k' k) d.*1) eqn:E; [exact Hd|].
  intros i j ki kj Hij Hi Hj.
  assert (j < length (d.*1 ++ [k])) as Hlen by (by eapply lookup_lt_Some).
  rewrite length_app in Hlen. simpl in Hlen.
  destruct (decide (j < length d.*1)) as [Hj'|Hj'].
  - rewrite lookup_app_l in Hi, Hj by lia. by apply (Hd i j ki kj).
  - rewrite lookup_app_l in Hi by lia.
    rewrite lookup_app_r in Hj by lia.
    replace (j - length d.*1) with 0 in Hj by lia. injection Hj as <-.
    destruct (value_eqb ki k) eqn:Ek; [|done].
    assert (existsb (λ k', value_eqb k' k) d.*1 = true); [|congruence].
    apply existsb_exists. exists ki. split; [|done].
    apply list_elem_of_In. by eapply list_elem_of_lookup_2.
Qed.

Lemma dict_of_snoc pairs k v : dict_of (pairs ++ [(k, v)]) = dict_set k v (dict_of pairs).
Proof. unfold dict_of. by rewrite fold_left_app. Qed.

Lemma dict_of_keys_apart pairs : keys_apart (dict_of pairs).
Proof.
  induction pairs as [|[k v] pairs IH] using rev_ind; [apply keys_apart_nil|].
  rewrite dict_of_snoc. by apply dict_set_keys_apart.
Qed.

Lemma keys_apart_tail kv d : keys_apart (kv :: d) → keys_apart d.
Proof. intros H i j ki kj Hij Hi Hj. by apply (H (S i) (S j) ki kj); [lia|..]. Qed.

(** Setting the label [s]: its entry holds the new value. *)
Lemma dict_set_label_same s v d v' :
  keys_apart d → (VStr s, v') ∈ dict_set (VStr s) v d ↔ v' = v.
Proof.
  induction d as [|[k0 v0] d IH]; intros Hd; cbn [dict_set].
  - rewrite list_elem_of_singleton. split; [by intros [= ->]|by intros ->].
  - destruct (value_eqb k0 (VStr s)) eqn:E.
    + apply value_eqb_str_r in E as ->. rewrite elem_of_cons. split.
      * intros [[= ->]|Hin]; [done|]. exfalso.
        apply list_elem_of_lookup in Hin as [j Hj].
        assert (value_eqb (VStr s) (VStr s) = false); [|by rewrite value_eqb_str_refl in *].
        apply (Hd 0 (S j)); [lia|done|]. simpl. by rewrite list_lookup_fmap, Hj.
      * intros ->. by left.
    + rewrite elem_of_cons, IH by (by eapply keys_apart_tail). split; [|by right].
      intros [[= <- _]|?]; [|done]. by rewrite value_eqb_str_refl in E.
Qed.

(** Setting another key leaves the entry of the label [s] alone. *)
Lemma dict_set_label_other s k v d v' :
  k ≠ VStr s → (VStr s, v') ∈ dict_set k v d ↔ (VStr s, v') ∈ d.
Proof.
  intros Hk. induction d as [|[k0 v0] d IH]; cbn [dict_set].
  - rewrite list_elem_of_singleton. split; [by intros [= <- _]|by intros ?%elem_of_nil].
  - destruct (value_eqb k0 k) eqn:E.
    + rewrite !elem_of_cons.
      assert (k0 ≠ VStr s) as Hk0.
      { intros ->. apply value_eqb_str in E. done. }
      split; (intros [[= <- _]|?]; [done|by right]).
    + by rewrite !elem_of_cons, IH.
Qed.

(** The dictionary of a list of pairs holds, under a label, the value
    of the last pair with that label. *)
Lemma dict_of_label pairs s v :
  (VStr s, v) ∈ dict_of pairs
  ↔ last (List.filter (λ kv : value * value, value_eqb (VStr s) kv.1) pairs)
    = Some (VStr s, v).
Proof.
  induction pairs as [|[k u] pairs IH] using rev_ind.
  - simpl. split; [by intros ?%elem_of_nil|done].
  - rewrite dict_of_snoc, List.filter_app. cbn [List.filter fst].
    destruct (value_eqb (VStr s) k) eqn:E.
    + apply value_eqb_str in E as ->. rewrite last_snoc.
      rewrite dict_set_label_same by apply dict_of_keys_apart.
      split; [by intros ->|by intros [= ->]].
    + rewrite app_nil_r, <-IH. apply dict_set_label_other.
      intros ->. by rewrite value_eqb_str_refl in E.
Qed.

(** ** The batch loop *)

Section BatchFacts.
Variable read_json : str → result DataFrame.
Variable series_sum : list value → result value.
Variable sort_keys : list value → list value.
Variable concat_error : list DataFrame → option exn.
Variable to_csv : DataFrame → result str.
Variable read_csv : str → result DataFrame.
Variable http_get : world → str → response.
Variable API_BASE_URL : str.

Let stream := stream_to_dataframe read_json http_get.
Let batch_url (batch_ids : list str) : str :=
  url_summary API_BASE_URL (lit "event_ids") (join (lit ",") batch_ids).
Let fetch := fetch_batches read_json http_get API_BASE_URL.
Let select :=
  get_select_311_data read_json series_sum sort_keys concat_error to_csv http_get
    API_BASE_URL.
Let summary := summarize series_sum sort_keys.
Let joined := pd_concat concat_error.

Let results_of := batch_results read_json http_get API_BASE_URL.

Lemma stream_to_dataframe_world url w : (stream url w).2 = log_request url w.
Proof. unfold stream, stream_to_dataframe. by case_bool_decide. Qed.

Lemma fetch_batches_cons b bs all_dfs w :
  fetch (b :: bs) all_dfs w
  = let '(r, w1) := stream (batch_url b) w in
    match r with
    | Ok batch_df => fetch bs (all_dfs ++ [batch_df]) w1
    | Raise _ => fetch bs all_dfs w1
    end.
Proof. reflexivity. Qed.

Lemma fetch_batches_spec bs all_dfs w :
  fetch bs all_dfs w
  = (all_dfs ++ oks (results_of bs w), log_requests (batch_url <$> bs) w).
Proof.
  revert all_dfs w. induction bs as [|b bs IH]; intros all_dfs w.
  - simpl. rewrite app_nil_r. by destruct w.
  - rewrite fetch_batches_cons.
    change (results_of (b :: bs) w)
      with ((stream (batch_url b) w).1 :: results_of bs (log_request (batch_url b) w)).
    pose proof (stream_to_dataframe_world (batch_url b) w) as Hw.
    destruct (stream (batch_url b) w) as [r w1] eqn:Es. simpl in Hw. subst w1.
    assert (log_requests (batch_url <$> bs) (log_request (batch_url b) w)
            = log_requests (batch_url <$> b :: bs) w) as Hlog.
    { unfold log_requests, log_request. simpl. f_equal. by rewrite <-(assoc_L (++)). }
    destruct r as [df|e]; rewrite IH, Hlog; unfold oks; simpl.
    + by rewrite <-(assoc_L (++)).
    + done.
Qed.

(** *** Grouped sums *)

Hypothesis sort_keys_perm : ∀ l, sort_keys l ≡ₚ l.

(** The rows of a grouped sum that bear the label [s]: one, when a
    row of the table bears it, holding the sum of the cells of the
    rows with that label, in the order of the table. *)
Lemma groupby_sum_label key val df out s :
  groupby_sum series_sum sort_keys key val df = Ok out →
  (∃ r, r ∈ rows df ∧ r !!! key = VStr s) →
  ∃ total,
    series_sum ((λ r : row, r !!! val)
                  <$> List.filter (λ r : row, value_eqb (VStr s) (r !!! key)) (rows df))
    = Ok total
    ∧ List.filter (λ r : row, value_eqb (VStr s) (r !!! key)) (rows out)
      = [<[key := VStr s]> (<[val := total]> ∅)].
Proof.
  intros Hout (r & Hr & Hk). unfold groupby_sum in Hout.
  set (keys := sort_keys (distinct _)) in Hout.
  destruct (mapM (group_row series_sum key val df) keys) as [group_rows|e] eqn:Em;
    [|done].
  cbn [mbind result_bind] in Hout. injection Hout as <-. cbn [rows].
  apply mapM_result_Forall2 in Em.
  assert (List.filter (value_eqb (VStr s)) keys = [VStr s]) as Hone.
  { apply (filter_perm_singleton _ (distinct (List.filter (λ v, negb (isna v))
                                                ((λ r : row, r !!! key) <$> rows df))));
      [apply sort_keys_perm|].
    rewrite distinct_str_filter.
    assert (existsb (value_eqb (VStr s))
              (List.filter (λ v, negb (isna v)) ((λ r : row, r !!! key) <$> rows df))
            = true) as ->; [|done].
    apply existsb_exists. exists (VStr s). split; [|by apply value_eqb_str].
    apply filter_In. split; [|done].
    apply list_elem_of_In, list_elem_of_fmap. exists r. by rewrite Hk. }
  clearbody keys. clear Hr Hk r.
  induction Em as [|k gr keys' grs Hrow Hrest IH]; [done|].
  unfold group_row, group_cells in Hrow.
  destruct (series_sum _) as [total|e] eqn:Esum; [|done].
  cbn [mbind result_bind] in Hrow. injection Hrow as <-.
  cbn [List.filter] in Hone |- *. rewrite lookup_total_insert_eq.
  destruct (value_eqb (VStr s) k) eqn:Ek.
  - apply value_eqb_str in Ek as ->. exists total. split; [done|].
    f_equal. injection Hone as Hnone.
    clear IH Esum. induction Hrest as [|k' gr' keys'' grs' Hrow' Hrest' IH']; [done|].
    unfold group_row in Hrow'.
    destruct (series_sum _) as [t'|e'] eqn:Esum'; [|done].
    cbn [mbind result_bind] in Hrow'. injection Hrow' as <-.
    cbn [List.filter] in Hnone |- *. rewrite lookup_total_insert_eq.
    destruct (value_eqb (VStr s) k'); [done|]. by apply IH'.
  - by apply IH.
Qed.

Let counts :=
  compute_area_category_counts read_json series_sum sort_keys concat_error to_csv
    read_csv http_get API_BASE_URL.

(** The resolver given ids: the requests, then the steps that follow
    the loop. *)
Lemma select_batches event_ids event_date w :
  event_ids ≠ [] →
  select event_ids event_date w
  = let bs := batches BATCH_SIZE (split ","%char event_ids) in
    let w1 := log_requests (batch_url <$> bs) w in
    match oks (results_of bs w) with
    | [] => (Ok [], w1)
    | dfs =>
        match joined dfs ≫= summary with
        | Ok df => write_and_return to_csv df w1
        | Raise e => (Raise e, w1)
        end
    end.
Proof.
  intros Hne. destruct event_ids as [|c ids]; [done|].
  unfold select, get_select_311_data. fold fetch. rewrite fetch_batches_spec. simpl app.
  cbv zeta. by destruct (oks _).
Qed.

Lemma write_and_return_result df w :
  (write_and_return to_csv df w).1 = to_csv df
  ∧ requested (write_and_return to_csv df w).2 = requested w.
Proof. unfold write_and_return. by destruct (to_csv df) eqn:E. Qed.

(** The rows of a concatenation: those of the tables, in order, each
    with the cells it had. *)
Lemma concat_frames_rows dfs :
  length (rows (concat_frames dfs)) = sum_list ((λ t : DataFrame, length (rows t)) <$> dfs)
  ∧ ∀ i (r : row),
      concat (rows <$> dfs) !! i = Some r →
      ∃ r' : row, rows (concat_frames dfs) !! i = Some r'
                  ∧ ∀ c v, r !! c = Some v → r' !! c = Some v.
Proof.
  unfold concat_frames. cbn [rows]. split.
  - rewrite length_fmap, length_concat_sum, <-list_fmap_compose. done.
  - intros i r Hi. eexists. rewrite list_lookup_fmap, Hi. split; [done|].
    intros c v Hv. by rewrite reindex_lookup, Hv.
Qed.

(** C5. The batch resolver given ids. The ids are split into batches
    of at most 50 (120 ids: 50, 50 and 20); one request is made per
    batch, whatever the earlier ones returned; the tables of the
    batches whose request failed are left out and the others are
    concatenated: every row of every such table is there, in order,
    with its cells. With the columns [reported_issue] and [total]
    the result has one row per label, holding the sum of the [total]
    cells of the rows with that label; otherwise the table is left as
    it is. The text returned is the CSV of that table, and
    [compute_area_category_counts] reads it back into a dictionary
    that has, under each label, the value of the last row with that
    label, the label and the value taken from [reported_issue] and
    [total] when the CSV has both and from its first two columns
    otherwise. *)
Theorem get_select_311_data_batches event_ids event_date w :
  let id_list := split ","%char event_ids in
  let bs := batches BATCH_SIZE id_list in
  let dfs := oks (results_of bs w) in
  event_ids ≠ [] →
  (concat bs = id_list
   ∧ (∀ b, b ∈ bs → 1 ≤ length b ≤ 50)
   ∧ (length id_list = 120 → length <$> bs = [50; 50; 20]))
  ∧ requested (select event_ids event_date w).2 = rev (batch_url <$> bs) ++ requested w
  ∧ (select event_ids event_date w).1
    = match dfs with
      | [] => Ok []
      | _ :: _ => df ← joined dfs; out ← summary df; to_csv out
      end
  ∧ (∀ df, joined dfs = Ok df →
       length (rows df) = sum_list ((λ t : DataFrame, length (rows t)) <$> dfs)
       ∧ ∀ i (r : row),
           concat (rows <$> dfs) !! i = Some r →
           ∃ r' : row, rows df !! i = Some r'
                       ∧ ∀ c v, r !! c = Some v → r' !! c = Some v)
  ∧ (∀ df out,
       summary df = Ok out →
       if has_column "reported_issue" df && has_column "total" df
       then columns out = ["reported_issue"; "total"]
            ∧ ∀ s, (∃ r, r ∈ rows df ∧ r !!! "reported_issue" = VStr s) →
                   ∃ total,
                     series_sum
                       ((λ r : row, r !!! "total")
                          <$> List.filter
                                (λ r : row, value_eqb (VStr s) (r !!! "reported_issue"))
                                (rows df))
                     = Ok total
                     ∧ List.filter
                         (λ r : row, value_eqb (VStr s) (r !!! "reported_issue"))
                         (rows out)
                       = [<["reported_issue" := VStr s]> (<["total" := total]> ∅)]
       else out = df)
  ∧ (∀ ids date_str,
       join (lit ",") ids ≠ [] → Forall (λ i, ","%char ∉ i) ids →
       requested (counts ids date_str w).2
       = rev (batch_url <$> batches BATCH_SIZE ids) ++ requested w
       ∧ ∀ d, (counts ids date_str w).1 = Ok d →
           ∃ csv df_area label_col value_col,
             (select (join (lit ",") ids) [] w).1 = Ok csv
             ∧ read_csv csv = Ok df_area
             ∧ (if has_column "reported_issue" df_area && has_column "total" df_area
                then label_col = "reported_issue" ∧ value_col = "total"
                else ∃ others, columns df_area = label_col :: value_col :: others)
             ∧ ∀ s v,
                 (VStr s, v) ∈ d
                 ↔ ∃ r : row,
                     last (List.filter
                             (λ r : row, value_eqb (VStr s) (r !!! label_col))
                             (rows df_area)) = Some r
                     ∧ r !!! value_col = v).
Proof.
  intros id_list bs dfs Hne.
  pose proof (select_batches event_ids event_date w Hne) as Hsel.
  cbv zeta in Hsel. fold id_list bs dfs in Hsel.
  split_and!.
  - apply batches_concat. unfold BATCH_SIZE. lia.
  - intros b Hb. apply (batches_sizes BATCH_SIZE id_list); [unfold BATCH_SIZE; lia|done].
  - apply batches_120.
  - rewrite Hsel. destruct dfs as [|df0 dfs']; [done|].
    destruct (joined (df0 :: dfs') ≫= summary) as [df|e]; [|done].
    by destruct (write_and_return_result df (log_requests (batch_url <$> bs) w)) as [_ ->].
  - rewrite Hsel. destruct dfs as [|df0 dfs']; [done|].
    destruct (joined (df0 :: dfs')) as [j|e]; cbn [fst mbind result_bind]; [|done].
    destruct (summary j) as [df|e]; cbn [fst mbind result_bind]; [|done].
    by destruct (write_and_return_result df (log_requests (batch_url <$> bs) w))
      as [-> _].

  - intros df Hj. unfold joined, pd_concat in Hj.
    destruct (concat_error dfs); [done|]. injection Hj as <-.
    apply concat_frames_rows.
  - intros df out Hout. unfold summary, summarize in Hout.
    destruct (has_column "reported_issue" df && has_column "total" df).
    + split.
      * unfold groupby_sum in Hout. destruct (mapM _ _); [|done].
        cbn [mbind result_bind] in Hout. by injection Hout as <-.
      * intros s Hs. by apply groupby_sum_label.
    + by injection Hout as <-.
  - intros ids date_str Hj Hall. unfold counts, compute_area_category_counts.
    destruct ids as [|i ids]; [done|].
    fold select.
    pose proof (select_batches (join (lit ",") (i :: ids)) [] w Hj) as Hs.
    cbv zeta in Hs. rewrite !split_join_comma in Hs by done.
    destruct (select (join (lit ",") (i :: ids)) [] w) as [r w1] eqn:Er.
    cbn [fst snd]. split.
    + destruct (oks _) in Hs; [by injection Hs as _ ->|].
      destruct (joined _ ≫= summary) as [df|e]; [|by injection Hs as _ ->].
      pose proof (write_and_return_result df
                    (log_requests (batch_url <$> batches BATCH_SIZE (i :: ids)) w))
        as [_ Hreq].
      rewrite <-Hs in Hreq. exact Hreq.
    + intros d Hd. destruct r as [csv|]; [|done]. cbn in Hd.
      destruct (read_csv csv) as [df_area|] eqn:Ecsv; [|done]. cbn in Hd.
      destruct (label_value_columns df_area) as [[label_col value_col]|] eqn:El; [|done].
      cbn in Hd. injection Hd as <-.
      exists csv, df_area, label_col, value_col. split_and!; try done.
      * unfold label_value_columns in El.
        destruct (has_column "reported_issue" df_area && has_column "total" df_area).
        -- by injection El as <- <-.
        -- destruct (columns df_area) as [|c1 [|c2 cs]]; try done.
           injection El as <- <-. by eexists.
      * intros s v. rewrite dict_of_label.
        change ((λ r : row, (r !!! label_col, r !!! value_col)) <$> rows df_area)
          with (map (λ r : row, (r !!! label_col, r !!! value_col)) (rows df_area)).
        rewrite filter_map_swap. cbn [fst].
        change (map ?f ?l) with (f <$> l). rewrite fmap_last.
        set (matching := List.filter (λ r : row, value_eqb (VStr s) (r !!! label_col))
                           (rows df_area)).
        destruct (last matching) as [r|] eqn:E; simpl.
        -- assert (r !!! label_col = VStr s) as ->.
           { apply last_Some_elem_of in E. unfold matching in E.
             apply list_elem_of_In, filter_In in E as [_ E]. by apply value_eqb_str in E. }
           split.
           ++ intros [= <-]. by exists r.
           ++ intros (r' & [= <-] & <-). done.
        -- split; [done|]. by intros (r' & ? & _).
Qed.
End BatchFacts.

(** ** Searching for a two-character token *)

Section TwoChars.
Variables a b : ascii.

Lemma find2_nil : find [a; b] [] = None.
Proof. reflexivity. Qed.

Lemma find2_cons c s :
  find [a; b] (c :: s)
  = if startswith [a; b] (c :: s) then Some 0 else S <$> find [a; b] s.
Proof. reflexivity. Qed.

Lemma startswith2 s :
  startswith [a; b] s
  = match s with
    | c :: d :: _ => Ascii.eqb a c && Ascii.eqb b d
    | _ => false
    end.
Proof.
  destruct s as [|c [|d s]]; simpl; [done| |].
  - by destruct (Ascii.eqb a c).
  - by destruct (Ascii.eqb a c), (Ascii.eqb b d).
Qed.

Lemma startswith2_app s t :
  startswith [a; b] s = true → startswith [a; b] (s ++ t) = true.
Proof. rewrite !startswith2. by destruct s as [|c [|d s]]. Qed.

Lemma startswith2_app_long s t :
  2 ≤ length s → startswith [a; b] (s ++ t) = startswith [a; b] s.
Proof. rewrite !startswith2. destruct s as [|c [|d s]]; simpl; [lia|lia|done]. Qed.

Lemma find2_bound s i : find [a; b] s = Some i → i + 2 ≤ length s.
Proof.
  revert i. induction s as [|c s IH]; intros i; [done|].
  rewrite find2_cons. destruct (startswith [a; b] (c :: s)) eqn:E.
  - intros [= <-]. rewrite startswith2 in E. destruct s; [done|simpl; lia].
  - destruct (find [a; b] s) as [j|]; [|done]. intros [= <-].
    specialize (IH j eq_refl). simpl. lia.
Qed.

Lemma find2_app s t i : find [a; b] s = Some i → find [a; b] (s ++ t) = Some i.
Proof.
  revert i. induction s as [|c s IH]; intros i; [done|].
  rewrite <-app_comm_cons, !find2_cons.
  destruct (startswith [a; b] (c :: s)) eqn:E.
  - intros [= <-]. change (c :: s ++ t) with ((c :: s) ++ t).
    by rewrite startswith2_app.
  - destruct (find [a; b] s) as [j|] eqn:Ej; [|done]. intros [= <-].
    change (c :: s ++ t) with ((c :: s) ++ t).
    rewrite startswith2_app_long, E.
    + by rewrite (IH j).
    + apply find2_bound in Ej. simpl. lia.
Qed.

Lemma find2_none_prefix s t : find [a; b] (s ++ t) = None → find [a; b] s = None.
Proof.
  intros H. destruct (find [a; b] s) as [i|] eqn:E; [|done].
  by rewrite (find2_app s t i E) in H.
Qed.

Lemma find2_none_fst s : a ∉ s → find [a; b] s = None.
Proof.
  induction s as [|c s IH]; intros Hn; [done|].
  rewrite find2_cons, startswith2.
  assert (Ascii.eqb a c = false) as Hc.
  { apply Ascii.eqb_neq. intros ->. apply Hn. by left. }
  rewrite IH by (intros H; apply Hn; by right).
  destruct s as [|d s]; [done|]. by rewrite Hc.
Qed.

Lemma find2_none_snd s : b ∉ s → find [a; b] s = None.
Proof.
  induction s as [|c s IH]; intros Hn; [done|].
  rewrite find2_cons, startswith2.
  rewrite IH by (intros H; apply Hn; by right).
  destruct s as [|d s]; [done|].
  assert (Ascii.eqb b d = false) as Hd.
  { apply Ascii.eqb_neq. intros ->. apply Hn. right. by left. }
  by rewrite Hd, andb_false_r.
Qed.

(** No occurrence starts inside [e] when [e] lacks the first
    character. *)
Lemma find2_app_fst e t :
  a ∉ e → find [a; b] (e ++ t) = (λ i, length e + i) <$> find [a; b] t.
Proof.
  induction e as [|c e IH]; intros Hn.
  - simpl. by destruct (find [a; b] t).
  - rewrite <-app_comm_cons, find2_cons, startswith2.
    assert (Ascii.eqb a c = false) as Hc.
    { apply Ascii.eqb_neq. intros ->. apply Hn. by left. }
    rewrite IH by (intros H; apply Hn; by right).
    destruct (e ++ t) as [|d r]; rewrite ?Hc; simpl; by destruct (find [a; b] t).
Qed.

(** The same when [e] lacks the second character, unless the token
    straddles the end of [e]. *)
Lemma find2_app_snd e t :
  b ∉ e → last e ≠ Some a ∨ head t ≠ Some b →
  find [a; b] (e ++ t) = (λ i, length e + i) <$> find [a; b] t.
Proof.
  induction e as [|c e IH]; intros Hn Hedge.
  - simpl. by destruct (find [a; b] t).
  - rewrite <-app_comm_cons, find2_cons.
    assert (b ∉ e) as Hn' by (intros H; apply Hn; by right).
    assert (last e ≠ Some a ∨ head t ≠ Some b) as Hedge'.
    { destruct Hedge as [H|H]; [|by right]. left. destruct e; [done|]. exact H. }
    assert (startswith [a; b] (c :: e ++ t) = false) as ->.
    { rewrite startswith2. destruct e as [|d e].
      - destruct t as [|d t]; [done|]. cbn [app]. apply andb_false_iff.
        destruct Hedge as [H|H].
        + left. apply Ascii.eqb_neq. intros ->. by apply H.
        + right. apply Ascii.eqb_neq. intros ->. by apply H.
      - cbn [app]. apply andb_false_iff. right.
        apply Ascii.eqb_neq. intros ->. apply Hn. right. by left. }
    rewrite (IH Hn' Hedge'). by destruct (find [a; b] t).
Qed.
End TwoChars.

(** ** The scanning loop *)

Lemma scan_loop_fuel f1 f2 json buf :
  length buf < f1 → length buf < f2 → scan_loop f1 json buf = scan_loop f2 json buf.
Proof.
  revert f2 json buf. induction f1 as [|f1 IH]; intros f2 json buf H1 H2; [lia|].
  destruct f2 as [|f2]; [lia|]. simpl.
  destruct (find SEP buf) as [i|] eqn:E; [|done].
  apply find2_bound in E. apply IH; rewrite length_drop; lia.
Qed.

(** One turn of the loop, free of fuel. *)
Lemma scan_eq json buf :
  scan json buf
  = match find SEP buf with
    | Some obj_end =>
        scan (json ++ take obj_end buf ++ [","%char]) (drop (obj_end + 2) buf)
    | None =>
        match find CLOSE buf with
        | Some obj_end =>
            {| json_data := match strip (take obj_end buf) with
                            | [] => json
                            | _ :: _ => json ++ take obj_end buf
                            end ++ ["]"%char];
               buffer := drop (obj_end + 2) buf;
               in_array := false |}
        | None => open_state json buf
        end
    end.
Proof.
  unfold scan at 1. simpl.
  destruct (find SEP buf) as [i|] eqn:E; [|done].
  apply find2_bound in E. unfold scan. apply scan_loop_fuel; rewrite length_drop; lia.
Qed.

(** What was scanned so far need not be scanned again when more text
    arrives. *)
Lemma scan_incr buf json more :
  in_array (scan json buf) = true →
  scan json (buf ++ more)
  = scan (json_data (scan json buf)) (buffer (scan json buf) ++ more).
Proof.
  remember (length buf) as n eqn:Hn. revert buf json Hn.
  induction n as [n IH] using lt_wf_ind. intros buf json -> Hopen.
  rewrite (scan_eq json buf) in Hopen |- *.
  destruct (find SEP buf) as [i|] eqn:E.
  - rewrite (scan_eq json (buf ++ more)).
    assert (find SEP (buf ++ more) = Some i) as -> by (by apply find2_app).
    pose proof (find2_bound _ _ _ _ E) as Hb.
    rewrite take_app_le, drop_app_le by lia.
    apply (IH (length (drop (i + 2) buf))); [rewrite length_drop; lia|done|done].
  - destruct (find CLOSE buf) as [i|] eqn:E2; [done|]. done.
Qed.

Lemma scan_no_newline json buf : NL ∉ buf → scan json buf = open_state json buf.
Proof.
  intros Hn. rewrite scan_eq.
  assert (find SEP buf = None) as -> by (by apply find2_none_snd).
  by assert (find CLOSE buf = None) as -> by (by apply find2_none_fst).
Qed.

(** ** Chunks *)

Lemma feed_nil st : feed st [] = st.
Proof. done. Qed.

Lemma feed_open st chunk :
  in_array st = true → chunk ≠ [] →
  feed st chunk = scan (json_data st) (buffer st ++ chunk).
Proof. intros Ho Hc. unfold feed. destruct chunk; [done|]. by rewrite Ho. Qed.

Lemma replace_from_none old new s :
  find old s = None → replace_from old new 0 s = s.
Proof.
  induction s as [|c s IH]; [done|]. intros Hf. simpl in Hf |- *.
  destruct (startswith old (c :: s)); [done|].
  destruct (find old s); [done|]. by rewrite IH.
Qed.

Lemma replace_open text : find OPEN text = None → replace OPEN [] (OPEN ++ text) = text.
Proof.
  intros Hf. unfold replace. simpl. by apply replace_from_none.
Qed.

Section Streams.
(** [text] is what follows the opening token. Every proper prefix of
    it leaves the array open. *)
Variable text : str.
Hypothesis text_no_open : find OPEN text = None.
Hypothesis prefixes_open :
  ∀ seen rest, text = seen ++ rest → rest ≠ [] → in_array (scan ["["%char] seen) = true.

Lemma run_open chunks seen :
  seen ++ concat chunks = text →
  fold_left feed chunks (scan ["["%char] seen) = scan ["["%char] text.
Proof.
  revert seen. induction chunks as [|c chunks IH]; intros seen Hs.
  - simpl in *. by rewrite app_nil_r in Hs; subst.
  - simpl in *. destruct c as [|x c].
    + apply IH. exact Hs.
    + rewrite feed_open; [|eapply prefixes_open; [symmetry; exact Hs|done]|done].
      rewrite <-scan_incr by (eapply prefixes_open; [symmetry; exact Hs|done]).
      apply IH. by rewrite <-(assoc_L (++)).
Qed.

Lemma run_start chunks seen :
  length seen < 2 → seen ++ concat chunks = OPEN ++ text →
  fold_left feed chunks {| json_data := []; buffer := seen; in_array := false |}
  = scan ["["%char] text.
Proof.
  revert seen. induction chunks as [|c chunks IH]; intros seen Hlen Hs.
  - simpl in Hs. rewrite app_nil_r in Hs. subst. simpl in Hlen. lia.
  - simpl in Hs. destruct c as [|x c]; [by apply IH|].
    cbn [fold_left]. unfold feed. cbn [buffer in_array json_data negb andb].
    destruct (decide (length (seen ++ x :: c) < 2)) as [Hshort|Hlong].
    + assert (contains OPEN (seen ++ x :: c) = false) as ->.
      { unfold contains. destruct (find OPEN (seen ++ x :: c)) as [i|] eqn:E; [|done].
        apply find2_bound in E. lia. }
      apply IH; [done|]. by rewrite <-(assoc_L (++)).
    + assert (∃ seen', seen ++ x :: c = OPEN ++ seen' ∧ seen' ++ concat chunks = text)
        as (seen' & Heq & Hrest).
      { exists (drop 2 (seen ++ x :: c)). 
        assert (take 2 (seen ++ x :: c) = OPEN) as Ht.
        { apply (f_equal (take 2)) in Hs. rewrite (assoc_L (++)) in Hs.
          rewrite take_app_le in Hs by lia. exact Hs. }
        split.
        - by rewrite <-Ht, take_drop.
        - apply (f_equal (drop 2)) in Hs. rewrite (assoc_L (++)) in Hs.
          rewrite drop_app_le in Hs by lia. exact Hs. }
      rewrite Heq.
      assert (contains OPEN (OPEN ++ seen') = true) as -> by done.
      cbn [app]. rewrite replace_open.
      * by apply run_open.
      * apply (find2_none_prefix _ _ seen' (concat chunks)). by rewrite Hrest.
Qed.

Lemma assemble_text chunks :
  concat chunks = OPEN ++ text → assemble chunks = json_data (scan ["["%char] text).
Proof.
  intros Hc. unfold assemble, decoder_init.
  rewrite (run_start chunks []); [done|simpl; lia|done].
Qed.
End Streams.

Lemma run_no_open chunks seen :
  find OPEN (seen ++ concat chunks) = None →
  fold_left feed chunks {| json_data := []; buffer := seen; in_array := false |}
  = {| json_data := []; buffer := seen ++ concat chunks; in_array := false |}.
Proof.
  revert seen. induction chunks as [|c chunks IH]; intros seen Hf.
  - simpl. by rewrite app_nil_r.
  - simpl in Hf |- *. destruct c as [|x c]; [by apply IH|].
    unfold feed. cbn [buffer in_array json_data negb andb].
    rewrite (assoc_L (++)) in Hf.
    assert (contains OPEN (seen ++ x :: c) = false) as ->.
    { unfold contains.
      by assert (find OPEN (seen ++ x :: c) = None) as ->
        by (eapply find2_none_prefix; exact Hf). }
    rewrite IH by done. by rewrite (assoc_L (++)).
Qed.

(** A stream that never shows the opening token leaves nothing to parse. *)
Lemma assemble_no_open chunks : find OPEN (concat chunks) = None → assemble chunks = [].
Proof. intros Hf. unfold assemble, decoder_init. by rewrite (run_no_open chunks []). Qed.

(** ** Streams of elements *)

Lemma join_snoc sep init l : join sep (init ++ [l]) = separated sep init ++ l.
Proof.
  unfold separated. induction init as [|e init IH]; [done|].
  cbn [app fmap list_fmap concat]. rewrite <-(assoc_L (++)), <-IH.
  destruct init; simpl; by rewrite <-(assoc_L (++)).
Qed.

Lemma separated_join sep init : init ≠ [] → separated sep init = join sep init ++ sep.
Proof.
  unfold separated. induction init as [|e init IH]; [done|]. intros _.
  cbn [fmap list_fmap concat]. destruct init as [|e' init].
  - simpl. by rewrite app_nil_r.
  - change (join sep (e :: e' :: init)) with (e ++ sep ++ join sep (e' :: init)).
    rewrite IH by done. by rewrite <-!(assoc_L (++)).
Qed.

Lemma scan_sep json e rest :
  clean e → scan json (e ++ SEP ++ rest) = scan (json ++ e ++ [","%char]) rest.
Proof.
  intros He. rewrite scan_eq.
  assert (find SEP (e ++ SEP ++ rest) = Some (length e + 0)) as ->.
  { unfold SEP at 1. rewrite find2_app_snd; [done|exact He|by right]. }
  rewrite Nat.add_0_r, take_app_length.
  replace (length e + 2) with (length (e ++ SEP)) by (rewrite length_app; done).
  by rewrite (app_assoc e SEP rest), drop_app_length.
Qed.

Lemma scan_separated json init rest :
  Forall clean init →
  scan json (separated SEP init ++ rest)
  = scan (json ++ separated [","%char] init) rest.
Proof.
  unfold separated. revert json. induction init as [|e init IH]; intros json Hc.
  - simpl. by rewrite app_nil_r.
  - apply Forall_cons in Hc as [He Hc]. cbn [fmap list_fmap concat].
    rewrite <-!(assoc_L (++)), scan_sep by done. rewrite IH by done.
    by rewrite <-!(assoc_L (++)).
Qed.

Lemma find_SEP_last l tail :
  clean l → last l ≠ Some ","%char → tail = [] ∨ tail = [NL] ∨ tail = CLOSE →
  find SEP (l ++ tail) = None.
Proof.
  intros Hl Hlast Ht. unfold SEP. rewrite find2_app_snd; [|exact Hl|by left].
  by destruct Ht as [->|[->| ->]].
Qed.

Lemma scan_close json l :
  clean l → last l ≠ Some ","%char →
  scan json (l ++ CLOSE)
  = {| json_data := match strip l with [] => json | _ :: _ => json ++ l end ++ ["]"%char];
       buffer := []; in_array := false |}.
Proof.
  intros Hl Hlast. rewrite scan_eq, find_SEP_last by auto.
  assert (find CLOSE (l ++ CLOSE) = Some (length l + 0)) as ->.
  { unfold CLOSE at 1. by rewrite find2_app_fst. }
  rewrite Nat.add_0_r, take_app_length.
  replace (length l + 2) with (length (l ++ CLOSE)) by (rewrite length_app; done).
  by rewrite drop_all.
Qed.

Lemma scan_cut json l tail :
  clean l → last l ≠ Some ","%char → tail = [] ∨ tail = [NL] →
  scan json (l ++ tail) = open_state json (l ++ tail).
Proof.
  intros Hl Hlast Ht. rewrite scan_eq, find_SEP_last by tauto.
  assert (find CLOSE (l ++ tail) = None) as ->; [|done].
  unfold CLOSE. rewrite find2_app_fst by done. by destruct Ht as [->| ->].
Qed.

(** *** Every proper prefix leaves the array open *)

Lemma prefix_open_last json l tail seen rest :
  clean l → last l ≠ Some ","%char → tail = [] ∨ tail = [NL] ∨ tail = CLOSE →
  l ++ tail = seen ++ rest → rest ≠ [] →
  in_array (scan json seen) = true.
Proof.
  intros Hl Hlast Ht Heq Hrest.
  apply app_eq_app in Heq as [k [[-> ->]|[-> Hk]]].
  - rewrite scan_no_newline; [done|]. intros H. apply Hl. apply elem_of_app. by left.
  - assert (k = [] ∨ k = [NL]) as Hk'.
    { destruct Ht as [->|[->| ->]].
      - symmetry in Hk. apply app_eq_nil in Hk as [-> _]. by left.
      - destruct k as [|x k]; [by left|]. injection Hk as <- Hk.
        symmetry in Hk. apply app_eq_nil in Hk as [-> ->]. done.
      - destruct k as [|x k]; [by left|]. injection Hk as <- Hk.
        destruct k as [|y k]; [by right|]. injection Hk as <- Hk.
        symmetry in Hk. apply app_eq_nil in Hk as [-> ->]. done. }
    by rewrite scan_cut.
Qed.

Lemma prefix_open_separated init json text seen rest :
  Forall clean init →
  (∀ json' seen' rest', text = seen' ++ rest' → rest' ≠ [] →
                        in_array (scan json' seen') = true) →
  separated SEP init ++ text = seen ++ rest → rest ≠ [] →
  in_array (scan json seen) = true.
Proof.
  unfold separated. revert json seen.
  induction init as [|e init IH]; intros json seen Hc Htext Heq Hrest.
  - simpl in Heq. by eapply Htext.
  - apply Forall_cons in Hc as [He Hc]. cbn [fmap list_fmap concat] in Heq.
    rewrite <-(assoc_L (++)) in Heq.
    apply app_eq_app in Heq as [k [[Hes Hk]|[-> Hk]]].
    + destruct k as [|x k _] using rev_ind.
      * rewrite app_nil_r in Hes. subst seen. simpl in Hk.
        rewrite <-(app_nil_r (e ++ SEP)), <-(assoc_L (++)), scan_sep by done.
        by rewrite scan_no_newline by (by intros ?%elem_of_nil).
      * assert (NL ∉ seen) as Hn.
        { destruct k as [|y k _] using rev_ind.
          - simpl in Hes. unfold SEP in Hes.
            change (e ++ [","%char; NL]) with (e ++ [","%char] ++ [NL]) in Hes.
            rewrite (assoc_L (++)) in Hes. apply app_inj_tail in Hes as [<- _].
            intros [H|H]%elem_of_app; [done|].
            by apply list_elem_of_singleton in H.
          - unfold SEP in Hes.
            change (e ++ [","%char; NL]) with (e ++ [","%char] ++ [NL]) in Hes.
            rewrite !(assoc_L (++)) in Hes. apply app_inj_tail in Hes as [Hes _].
            apply app_inj_tail in Hes as [-> _].
            intros H. apply He. apply elem_of_app. by left. }
        by rewrite scan_no_newline.
    + rewrite <-(assoc_L (++)), scan_sep by done. by eapply IH.
Qed.

(** *** No second opening token *)

Lemma no_open_last l tail :
  clean l → last l ≠ Some "["%char → tail = [] ∨ tail = [NL] ∨ tail = CLOSE →
  find OPEN (l ++ tail) = None.
Proof.
  intros Hl Hlast Ht. unfold OPEN. rewrite find2_app_snd; [|exact Hl|by left].
  by destruct Ht as [->|[->| ->]].
Qed.

Lemma find_open_skip_sep t : find OPEN (SEP ++ t) = S <$> (S <$> find OPEN t).
Proof. reflexivity. Qed.

Lemma no_open_separated init text :
  Forall clean init → find OPEN text = None →
  find OPEN (separated SEP init ++ text) = None.
Proof.
  unfold separated. intros Hc Ht. induction init as [|e init IH]; [done|].
  apply Forall_cons in Hc as [He Hc]. cbn [fmap list_fmap concat].
  rewrite <-!(assoc_L (++)). unfold OPEN at 1. rewrite find2_app_snd; [|exact He|by right].
  fold OPEN. by rewrite find_open_skip_sep, IH.
Qed.

(** *** What the chunk loop assembles *)

Lemma assemble_elements init l tail chunks :
  Forall clean init → clean l → ends_ok l →
  tail = [] ∨ tail = [NL] ∨ tail = CLOSE →
  concat chunks = OPEN ++ separated SEP init ++ l ++ tail →
  assemble chunks = json_data (scan (["["%char] ++ separated [","%char] init) (l ++ tail)).
Proof.
  intros Hinit Hl [Hcomma Hopen] Ht Hc.
  rewrite (assemble_text (separated SEP init ++ l ++ tail)); try done.
  - by rewrite scan_separated.
  - apply no_open_separated; [done|]. by apply no_open_last.
  - intros seen rest Heq Hrest. eapply prefix_open_separated; try done.
    intros json' seen' rest' Heq' Hrest'. by eapply prefix_open_last.
Qed.

(** A complete stream, cut into chunks anywhere: the elements joined by
    commas, between brackets. *)
Theorem assemble_wellformed els chunks :
  Forall clean els →
  (∀ l, last els = Some l → ends_ok l ∧ strip l ≠ []) →
  concat chunks = OPEN ++ join SEP els ++ CLOSE →
  assemble chunks = ["["%char] ++ join [","%char] els ++ ["]"%char].
Proof.
  intros Hc Hlast Hchunks.
  destruct els as [|l init _] using rev_ind.
  - rewrite (assemble_elements [] [] CLOSE chunks);
      [done|constructor|by intros ?%elem_of_nil|done|tauto|exact Hchunks].
  - apply Forall_app in Hc as [Hinit [Hl _]%Forall_cons].
    destruct (Hlast l) as [Hends Hblank]; [by rewrite last_snoc|].
    rewrite join_snoc in Hchunks. rewrite <-(assoc_L (++)) in Hchunks.
    rewrite (assemble_elements init l CLOSE chunks);
      [|done|done|done|tauto|exact Hchunks].
    destruct Hends as [Hcomma _]. rewrite scan_close by done. simpl.
    rewrite join_snoc. by destruct (strip l).
Qed.

(** A stream cut off before its closing bracket: only the elements
    that were followed by a separator are assembled. *)
Theorem assemble_truncated init l tail chunks :
  Forall clean init → clean l → ends_ok l →
  tail = [] ∨ tail = [NL] →
  concat chunks = OPEN ++ join SEP (init ++ [l]) ++ tail →
  assemble chunks = ["["%char] ++ separated [","%char] init.
Proof.
  intros Hinit Hl Hends Ht Hchunks.
  rewrite join_snoc, <-(assoc_L (++)) in Hchunks.
  rewrite (assemble_elements init l tail chunks);
    [|done|done|done|tauto|exact Hchunks].
  destruct Hends as [Hcomma _]. by rewrite scan_cut.
Qed.

(** ** The handler *)

Lemma lstrip_nonspace c s : isspace c = false → lstrip (c :: s) = c :: s.
Proof. simpl. by intros ->. Qed.

Lemma rstrip_nonspace s c : isspace c = false → rstrip (s ++ [c]) = s ++ [c].
Proof.
  intros Hc. unfold rstrip. rewrite rev_app_distr. simpl. rewrite Hc.
  change (c :: rev s) with ([c] ++ rev s). by rewrite rev_app_distr, rev_involutive.
Qed.

Lemma endswith_snoc s c p : endswith (s ++ [c]) [p] = Ascii.eqb p c.
Proof.
  unfold endswith. rewrite rev_app_distr. simpl. by destruct (Ascii.eqb p c).
Qed.

Lemma drop_last_snoc s c : drop_last (s ++ [c]) = s.
Proof.
  unfold drop_last. rewrite length_app. simpl.
  replace (length s + 1 - 1) with (length s) by lia. apply take_app_length.
Qed.

(** The text assembled from a cut-off stream with at least one
    separator, and its repair. *)
Lemma repair_trailing_comma body :
  let json_str := ["["%char] ++ body ++ [","%char] in
  strip json_str = json_str
  ∧ json_str ≠ [] ∧ json_str ≠ ["["%char] ∧ json_str ≠ lit "[]"
  ∧ repair json_str = ["["%char] ++ body ++ ["]"%char].
Proof.
  intros json_str.
  assert (json_str = (["["%char] ++ body) ++ [","%char]) as Hsnoc
    by (unfold json_str; by rewrite <-(assoc_L (++))).
  assert (rstrip json_str = json_str) as Hr by (rewrite Hsnoc; by apply rstrip_nonspace).
  split_and!.
  - unfold strip. unfold json_str at 1. simpl. exact Hr.
  - done.
  - rewrite Hsnoc. intros H.
    by apply (app_inj_tail (["["%char] ++ body) [] ","%char "["%char) in H as [_ [=]].
  - rewrite Hsnoc. intros H.
    by apply (app_inj_tail (["["%char] ++ body) ["["%char] ","%char "]"%char) in H as [_ [=]].
  - unfold repair. by rewrite Hr, Hsnoc, !endswith_snoc, drop_last_snoc.
Qed.

Section Handler.
Variable read_json : str → result DataFrame.

Lemma parse_assembled_ok json_str df :
  read_json json_str = Ok df → parse_assembled read_json json_str = Ok df.
Proof. unfold parse_assembled. by intros ->. Qed.

(** A text that is blank, or a lone opening bracket, or an empty
    array is never repaired: the reader's answer stands. *)
Lemma parse_assembled_no_repair json_str :
  strip json_str = [] ∨ strip json_str = ["["%char] ∨ strip json_str = lit "[]" →
  parse_assembled read_json json_str
  = match read_json json_str with
    | Ok df => Ok df
    | Raise e => if signals_empty e then Ok empty_frame else Raise e
    end.
Proof.
  intros Hs. unfold parse_assembled, signals_empty.
  destruct (read_json json_str) as [df|e]; [done|].
  destruct (_ || _); [done|].
  by destruct Hs as [->|[->| ->]].
Qed.

Lemma parse_assembled_trailing_comma body :
  parse_assembled read_json (["["%char] ++ body ++ [","%char])
  = match read_json (["["%char] ++ body ++ [","%char]) with
    | Ok df => Ok df
    | Raise e =>
        if signals_empty e then Ok empty_frame
        else match read_json (["["%char] ++ body ++ ["]"%char]) with
             | Ok df => Ok df
             | Raise _ => Raise e
             end
    end.
Proof.
  destruct (repair_trailing_comma body) as (Hstrip & Hne & Hne1 & Hne2 & Hrep).
  cbv zeta in *. unfold parse_assembled, signals_empty.
  destruct (read_json _) as [df|e] eqn:E; [done|].
  destruct (_ || _); [done|].
  rewrite Hstrip, Hrep. unfold str_eqb.
  by rewrite !bool_decide_eq_false_2 by done.
Qed.

(** C2. A stream of at least two elements cut off before its closing
    bracket, in any chunking. The element that was being received
    never leaves the buffer: the text assembled is that of the
    earlier elements, ending in a comma. When the reader refuses it,
    the repair (strip the comma, append the bracket) gives the text
    of the complete stream of the earlier elements, and decoding
    returns the rows of that shorter stream, not those of the stream
    that was sent; when the repaired text is refused too, the first
    error is raised. *)
Theorem decode_truncated_stream init l tail chunks :
  let cut := ["["%char] ++ join [","%char] init ++ [","%char] in
  let mended := ["["%char] ++ join [","%char] init ++ ["]"%char] in
  init ≠ [] → Forall clean init → clean l → ends_ok l →
  tail = [] ∨ tail = [NL] →
  concat chunks = OPEN ++ join SEP (init ++ [l]) ++ tail →
  assemble chunks = cut
  ∧ repair cut = mended
  ∧ decode_stream read_json chunks
    = match read_json cut with
      | Ok df => Ok df
      | Raise e =>
          if signals_empty e then Ok empty_frame
          else match read_json mended with
               | Ok df => Ok df
               | Raise _ => Raise e
               end
      end
  ∧ (∀ whole,
       (∀ l', last init = Some l' → ends_ok l' ∧ strip l' ≠ []) →
       concat whole = OPEN ++ join SEP init ++ CLOSE →
       assemble whole = mended
       ∧ ∀ e df, read_json cut = Raise e → signals_empty e = false →
                 read_json mended = Ok df →
                 decode_stream read_json chunks = Ok df
                 ∧ decode_stream read_json whole = Ok df)
  ∧ (∀ e e', read_json cut = Raise e → signals_empty e = false →
             read_json mended = Raise e' →
             decode_stream read_json chunks = Raise e).
Proof.
  intros cut mended Hne Hinit Hl Hends Ht Hchunks.
  assert (assemble chunks = cut) as Hcut.
  { rewrite (assemble_truncated init l tail chunks) by done.
    unfold cut. by rewrite separated_join by done. }
  assert (decode_stream read_json chunks
          = match read_json cut with
            | Ok df => Ok df
            | Raise e =>
                if signals_empty e then Ok empty_frame
                else match read_json mended with
                     | Ok df => Ok df
                     | Raise _ => Raise e
                     end
            end) as Hdec.
  { unfold decode_stream. rewrite Hcut. apply parse_assembled_trailing_comma. }
  split_and!.
  - exact Hcut.
  - by destruct (repair_trailing_comma (join [","%char] init)) as (_ & _ & _ & _ & ?).
  - exact Hdec.
  - intros whole Hlast Hwhole.
    assert (assemble whole = mended) as Hw.
    { apply assemble_wellformed; [done|done|exact Hwhole]. }
    split; [exact Hw|]. intros e df He Hsig Hm. split.
    + by rewrite Hdec, He, Hsig, Hm.
    + unfold decode_stream. rewrite Hw. by apply parse_assembled_ok.
  - intros e e' He Hsig Hm. by rewrite Hdec, He, Hsig, Hm.
Qed.

(** The same with a single element: the assembled text is the lone
    opening bracket, which the handler does not repair. *)
Lemma decode_truncated_single l tail chunks :
  clean l → ends_ok l → tail = [] ∨ tail = [NL] →
  concat chunks = OPEN ++ l ++ tail →
  assemble chunks = ["["%char]
  ∧ decode_stream read_json chunks
    = match read_json ["["%char] with
      | Ok df => Ok df
      | Raise e => if signals_empty e then Ok empty_frame else Raise e
      end.
Proof.
  intros Hl Hends Ht Hchunks.
  assert (assemble chunks = ["["%char]) as Ha.
  { rewrite (assemble_truncated [] l tail chunks); [done|constructor|done..]. }
  split; [exact Ha|]. unfold decode_stream. rewrite Ha.
  apply parse_assembled_no_repair. right. by left.
Qed.

(** Streams with nothing in them, in any chunking. The layout's
    empty array is assembled to the empty array's text and read. A
    body that never shows the opening token (no body at all, or an
    empty array written without line breaks) is assembled to the
    empty text: the result is the reader's table, or an empty one
    when the reader's error bears one of the two messages the handler
    looks for, and otherwise the reader's error. An error whose
    repair fails as well is raised as it came. *)
Lemma decode_empty_stream chunks :
  (concat chunks = OPEN ++ CLOSE →
   assemble chunks = lit "[]"
   ∧ decode_stream read_json chunks
     = match read_json (lit "[]") with
       | Ok df => Ok df
       | Raise e => if signals_empty e then Ok empty_frame else Raise e
       end)
  ∧ (concat chunks = [] ∨ concat chunks = lit "[]" →
     assemble chunks = []
     ∧ decode_stream read_json chunks
       = match read_json [] with
         | Ok df => Ok df
         | Raise e => if signals_empty e then Ok empty_frame else Raise e
         end)
  ∧ (∀ e, read_json (assemble chunks) = Raise e → signals_empty e = false →
          (∀ df, read_json (repair (assemble chunks)) ≠ Ok df) →
          decode_stream read_json chunks = Raise e).
Proof.
  split_and!.
  - intros Hc.
    assert (assemble chunks = lit "[]") as Ha.
    { rewrite (assemble_wellformed [] chunks); [done|constructor|done|exact Hc]. }
    split; [exact Ha|]. unfold decode_stream. rewrite Ha.
    apply parse_assembled_no_repair. right. by right.
  - intros Hc.
    assert (assemble chunks = []) as Ha.
    { apply assemble_no_open. by destruct Hc as [->| ->]. }
    split; [exact Ha|]. unfold decode_stream. rewrite Ha.
    apply parse_assembled_no_repair. by left.
  - intros e He Hsig Hrep. unfold decode_stream, parse_assembled. rewrite He.
    fold (signals_empty e). rewrite Hsig.
    destruct (_ && _); [|done].
    destruct (read_json (repair (assemble chunks))) as [df|e'] eqn:E; [|done].
    by destruct (Hrep df).
Qed.

(** C9. An empty response body, in any chunking, read by a reader
    that refuses the empty text with an error bearing neither of the
    two messages the handler looks for, as pandas does (its message
    is "Expected object or value"): nothing is assembled, the blank
    text is not repaired, and the decoder raises the reader's error
    where an empty table was to be returned. *)
Theorem empty_body_reraises chunks e :
  concat chunks = [] → read_json [] = Raise e → signals_empty e = false →
  assemble chunks = []
  ∧ strip (assemble chunks) = []
  ∧ decode_stream read_json chunks = Raise e.
Proof.
  intros Hc He Hsig.
  assert (assemble chunks = []) as Ha.
  { apply assemble_no_open. by rewrite Hc. }
  split; [exact Ha|]. split; [by rewrite Ha|].
  unfold decode_stream. rewrite Ha.
  rewrite parse_assembled_no_repair by (by left). by rewrite He, Hsig.
Qed.
End Handler.

(** * Further properties of the decoder *)

(** ** The text grows at its end and stays within what was received *)

Lemma scan_loop_prefix fuel json buf :
  json `prefix_of` json_data (scan_loop fuel json buf).
Proof.
  revert json buf. induction fuel as [|fuel IH]; intros json buf; simpl; [done|].
  destruct (find SEP buf) as [i|].
  - etrans; [|apply IH]. by apply prefix_app_r.
  - destruct (find CLOSE buf) as [i|]; simpl; [|done].
    destruct (strip (take i buf)); [by apply prefix_app_r|].
    rewrite <-(assoc_L (++)). by apply prefix_app_r.
Qed.

Lemma scan_loop_length fuel json buf :
  length (json_data (scan_loop fuel json buf)) + length (buffer (scan_loop fuel json buf))
  ≤ length json + length buf.
Proof.
  revert json buf. induction fuel as [|fuel IH]; intros json buf; simpl; [done|].
  destruct (find SEP buf) as [i|] eqn:E.
  - apply find2_bound in E. etrans; [apply IH|].
    rewrite !length_app, length_take, length_drop. simpl. lia.
  - destruct (find CLOSE buf) as [i|] eqn:E2; simpl; [|done].
    apply find2_bound in E2. rewrite length_drop.
    destruct (strip (take i buf)); rewrite !length_app, ?length_take; simpl; lia.
Qed.

Lemma startswith_length p s : startswith p s = true → length p ≤ length s.
Proof.
  revert s. induction p as [|a p IH]; intros [|b s]; simpl; try done; [lia|].
  destruct (Ascii.eqb a b); [|done]. intros H%IH. lia.
Qed.

Lemma replace_from_length old skip s :
  length (replace_from old [] skip s) + Nat.min skip (length s) ≤ length s.
Proof.
  revert skip. induction s as [|c s IH]; intros skip; simpl; [lia|].
  destruct skip as [|k].
  - destruct (startswith old (c :: s)) eqn:E.
    + simpl. pose proof (IH (length old - 1)). lia.
    + simpl. pose proof (IH 0). lia.
  - pose proof (IH k). lia.
Qed.

Lemma replace_found_length old s i :
  find old s = Some i → length (replace old [] s) + length old ≤ length s.
Proof.
  unfold replace. revert i. induction s as [|c s IH]; intros i; simpl.
  - destruct (startswith old []) eqn:E; [|done].
    apply startswith_length in E. simpl in *. lia.
  - destruct (startswith old (c :: s)) eqn:E.
    + intros _. apply startswith_length in E. simpl in *.
      pose proof (replace_from_length old (length old - 1) s). lia.
    + destruct (find old s) as [j|] eqn:F; [|done]. intros _.
      simpl. pose proof (IH j eq_refl). lia.
Qed.

Lemma feed_prefix st chunk : json_data st `prefix_of` json_data (feed st chunk).
Proof.
  unfold feed. destruct chunk as [|c chunk]; [done|].
  destruct (negb (in_array st) && contains OPEN (buffer st ++ c :: chunk)).
  - etrans; [|apply scan_loop_prefix]. by apply prefix_app_r.
  - destruct (in_array st); [apply scan_loop_prefix|done].
Qed.

Lemma feed_length st chunk :
  length (json_data (feed st chunk)) + length (buffer (feed st chunk))
  ≤ length (json_data st) + length (buffer st) + length chunk.
Proof.
  unfold feed. destruct chunk as [|c chunk]; [simpl; lia|].
  set (buf := buffer st ++ c :: chunk).
  assert (length buf = length (buffer st) + length (c :: chunk)) as Hbuf
    by (unfold buf; by rewrite length_app).
  destruct (negb (in_array st) && contains OPEN buf) eqn:E.
  - apply andb_true_iff in E as [_ E]. unfold contains in E.
    destruct (find OPEN buf) as [i|] eqn:F; [|done].
    apply replace_found_length in F. change (length OPEN) with 2 in F. unfold scan.
    etrans; [apply scan_loop_length|]. rewrite length_app.
    change (length ["["%char]) with 1. lia.
  - destruct (in_array st).
    + unfold scan. etrans; [apply scan_loop_length|]. lia.
    + cbn [json_data buffer]. lia.
Qed.

Lemma run_prefix chunks st :
  json_data st `prefix_of` json_data (fold_left feed chunks st).
Proof.
  revert st. induction chunks as [|c chunks IH]; intros st; simpl; [done|].
  etrans; [apply feed_prefix|apply IH].
Qed.

Lemma run_length chunks st :
  length (json_data (fold_left feed chunks st)) + length (buffer (fold_left feed chunks st))
  ≤ length (json_data st) + length (buffer st) + length (concat chunks).
Proof.
  revert st. induction chunks as [|c chunks IH]; intros st; simpl; [lia|].
  etrans; [apply IH|]. pose proof (feed_length st c). rewrite length_app. lia.
Qed.

(** The decoder works as a stream: the text assembled from the chunks
    received so far is a prefix of the text assembled once more chunks
    have come, chunks that are empty change nothing, and the text is
    never longer than the body received. *)
Theorem assemble_streaming chunks more :
  assemble chunks `prefix_of` assemble (chunks ++ more)
  ∧ assemble (List.filter (λ c, negb (str_eqb c [])) chunks) = assemble chunks
  ∧ length (assemble chunks) ≤ length (concat chunks).
Proof.
  unfold assemble. split_and!.
  - rewrite fold_left_app. apply run_prefix.
  - f_equal. generalize decoder_init.
    induction chunks as [|c chunks IH]; intros st; [done|].
    cbn [List.filter]. destruct (str_eqb c []) eqn:E; cbn [negb fold_left].
    + apply str_eqb_eq in E as ->. rewrite feed_nil. apply IH.
    + apply IH.
  - pose proof (run_length chunks decoder_init) as H. simpl in H. lia.
Qed.

(** ** The repair of a text that lacks its closing bracket *)

Lemma rstrip_snoc_bracket s : rstrip (s ++ ["]"%char]) = s ++ ["]"%char].
Proof. by apply rstrip_nonspace. Qed.

Lemma endswith_bracket s : endswith (s ++ ["]"%char]) ["]"%char] = true.
Proof. by rewrite endswith_snoc. Qed.

(** The repaired text always ends in a closing bracket (trailing
    white space apart); a text that does so already is left as it is,
    so that repairing twice is repairing once; and the repair adds at
    most one character. *)
Theorem repair_closes_the_array json_str :
  endswith (rstrip (repair json_str)) ["]"%char] = true
  ∧ repair (repair json_str) = repair json_str
  ∧ (endswith (rstrip json_str) ["]"%char] = true ↔ repair json_str = json_str)
  ∧ length (repair json_str) ≤ S (length json_str).
Proof.
  assert (∀ s, endswith (rstrip s) ["]"%char] = true → repair s = s) as Hfix.
  { intros s Hs. unfold repair. by rewrite Hs. }
  assert (endswith (rstrip (repair json_str)) ["]"%char] = true) as Hclosed.
  { unfold repair. destruct (endswith (rstrip json_str) ["]"%char]) eqn:E; simpl; [done|].
    destruct (endswith (rstrip json_str) [","%char]);
      by rewrite rstrip_snoc_bracket, endswith_bracket. }
  split_and!.
  - exact Hclosed.
  - by apply Hfix.
  - split; [apply Hfix|]. intros Heq. by rewrite <-Heq.
  - unfold repair. destruct (endswith (rstrip json_str) ["]"%char]); simpl; [lia|].
    destruct (endswith (rstrip json_str) [","%char]).
    + rewrite length_app. unfold drop_last. rewrite length_take. simpl.
      assert (length (rstrip json_str) ≤ length json_str); [|lia].
      unfold rstrip. rewrite length_rev.
      assert (∀ s, length (lstrip s) ≤ length s) as Hl.
      { induction s as [|c s IH]; simpl; [lia|]. destruct (isspace c); simpl; lia. }
      etrans; [apply Hl|]. by rewrite length_rev.
    + rewrite length_app. simpl. lia.
Qed.

(** ** What a request can return *)

Section Outcomes.
Variable read_json : str → result DataFrame.
Variable http_get : world → str → response.

Let stream := stream_to_dataframe read_json http_get.


(** A complete stream of elements decodes to the reader's table for
  the elements joined by commas between brackets, however the body
  was cut into chunks; and any two ways of cutting the same body
  decode alike. *)
Theorem stream_to_dataframe_wellformed url w els :
let response := http_get w url in
let json_str := ["["%char] ++ join [","%char] els ++ ["]"%char] in
status_code response = 200%Z →
Forall clean els →
(∀ l, last els = Some l → ends_ok l ∧ strip l ≠ []) →
concat (chunks response) = OPEN ++ join SEP els ++ CLOSE →
(∀ other, concat other = concat (chunks response) →
          assemble other = json_str
          ∧ decode_stream read_json other = decode_stream read_json (chunks response))
∧ (∀ df, read_json json_str = Ok df → stream url w = (Ok df, log_request url w))
∧ (∀ e, read_json json_str = Raise e → signals_empty e = false →
        (∀ df, read_json (repair json_str) ≠ Ok df) →
        stream url w = (Raise e, log_request url w)).
Proof.
intros response json_str Hs Hclean Hlast Hbody.
assert (∀ other, concat other = concat (chunks response) → assemble other = json_str)
  as Hany.
{ intros other Ho. apply assemble_wellformed; [done|done|]. by rewrite Ho. }
assert (stream url w
        = (parse_assembled read_json json_str, log_request url w)) as Hrun.
{ unfold stream, stream_to_dataframe. fold response.
  rewrite bool_decide_eq_false_2 by (by intros ?).
  unfold decode_stream. by rewrite (Hany (chunks response)). }
split_and!.
- intros other Ho. split; [by apply Hany|].
  unfold decode_stream. by rewrite (Hany other), (Hany (chunks response)).
- intros df Hdf. rewrite Hrun. by rewrite (parse_assembled_ok read_json json_str df).
- intros e He Hsig Hrep. rewrite Hrun. f_equal.
  unfold parse_assembled. rewrite He. fold (signals_empty e). rewrite Hsig.
  destruct (_ && _); [|done].
  destruct (read_json (repair json_str)) as [df|e'] eqn:E; [|done].
  by destruct (Hrep df).
Qed.
End Outcomes.

(** * Further properties of the normaliser *)

Lemma has_column_columns c df df' :
  columns df' = columns df → has_column c df' = has_column c df.
Proof. unfold has_column. by intros ->. Qed.

Lemma has_column_set_other c c' f df :
  c ≠ c' → has_column c (set_column c' f df) = has_column c df.
Proof.
  intros Hne. unfold set_column, has_column. simpl.
  destruct (bool_decide (c' ∈ columns df)); [done|].
  apply bool_decide_ext. rewrite elem_of_app, list_elem_of_singleton.
  split; [|by left]. by intros [?|?].
Qed.

Lemma has_column_set_same c f df : has_column c (set_column c f df) = true.
Proof.
  unfold has_column at 1, set_column. simpl. apply bool_decide_eq_true.
  destruct (has_column c df) eqn:E.
  - by apply bool_decide_eq_true in E.
  - apply elem_of_app. right. by apply list_elem_of_singleton.
Qed.

Lemma has_column_coerce_other to_numeric c c' df :
  c ≠ c' → has_column c (coerce_column to_numeric c' df) = has_column c df.
Proof. intros. unfold coerce_column. by apply has_column_set_other. Qed.

Lemma has_column_select c keep df : has_column c (select_rows keep df) = has_column c df.
Proof. done. Qed.

Lemma filter_all {A} (f : A → bool) l : (∀ x, x ∈ l → f x = true) → List.filter f l = l.
Proof.
  induction l as [|x l IH]; intros H; simpl; [done|].
  rewrite H by (by left). f_equal. apply IH. intros y Hy. apply H. by right.
Qed.

Section NormalizerMore.
Variable to_numeric : value → float.
Variable to_datetime : value → option Timestamp.

Let lat (r : row) : float := to_numeric (r !!! "latitude").
Let lon (r : row) : float := to_numeric (r !!! "longitude").
Let coerced := coerce_location to_numeric.
Let with_month := add_month to_datetime.
Let process := process_dataframe to_numeric to_datetime.

(** The table the date phase makes. *)
Lemma normalize_date_all df :
has_column "date" df = true →
normalize_date to_datetime df
= Ok {| columns := if has_column "month" df then columns df else columns df ++ ["month"];
        rows := with_month <$> rows df |}.
Proof.
intros Hd. unfold normalize_date. rewrite require_column_ok by done. f_equal.
unfold set_column at 1. f_equal.
- rewrite has_column_set_other by done. unfold set_column. simpl. by rewrite Hd.
- unfold set_column. simpl. by rewrite <-list_fmap_compose.
Qed.

(** The table both phases make. *)
Lemma process_dataframe_all df :
has_columns ["latitude"; "longitude"; "date"] df = true →
process df true true
= Ok {| columns := if has_column "month" df then columns df else columns df ++ ["month"];
        rows := with_month
                <$> (coerced <$> List.filter (λ r, inside_box (lat r) (lon r)) (rows df)) |}.
Proof.
intros Hc.
assert (has_columns ["latitude"; "longitude"] df = true) as Hloc.
{ split_columns. apply has_columns_cons. split; [done|]. by apply has_columns_cons. }
unfold process, process_dataframe.
rewrite (normalize_location_eq to_numeric df Hloc). simpl.
split_columns. by rewrite normalize_date_all.
Qed.

(** A table that lacks a column it needs is refused. *)
Lemma process_dataframe_inv df out :
process df true true = Ok out →
has_columns ["latitude"; "longitude"; "date"] df = true.
Proof.
unfold process, process_dataframe, normalize_location, require_column.
destruct (has_column "latitude" df) eqn:E1; [|done].
rewrite has_column_coerce_other by done.
destruct (has_column "longitude" df) eqn:E2; [|done]. cbn [mbind result_bind].
unfold normalize_date, require_column.
rewrite has_column_select, !has_column_coerce_other by done.
destruct (has_column "date" df) eqn:E3; [|done]. intros _.
unfold has_columns. simpl. by rewrite E1, E2, E3.
Qed.

Lemma with_month_date r : with_month r !!! "date" = time_cell (to_datetime (r !!! "date")).
Proof.
unfold with_month, add_month. rewrite lookup_total_insert_ne by done.
by rewrite lookup_total_insert_eq.
Qed.

Lemma with_month_month r :
with_month r !!! "month" = month_cell (time_cell (to_datetime (r !!! "date"))).
Proof.
unfold with_month, add_month. by rewrite !lookup_total_insert_eq.
Qed.

Lemma with_month_other r c : c ≠ "date" → c ≠ "month" → with_month r !! c = r !! c.
Proof.
intros H1 H2. unfold with_month, add_month. by rewrite !lookup_insert_ne.
Qed.

Lemma coerced_latitude r : coerced r !!! "latitude" = VFloat (lat r).
Proof.
unfold coerced, coerce_location. rewrite lookup_total_insert_ne by done.
by rewrite lookup_total_insert_eq.
Qed.

Lemma coerced_longitude r : coerced r !!! "longitude" = VFloat (lon r).
Proof. unfold coerced, coerce_location. by rewrite lookup_total_insert_eq. Qed.

Lemma coerced_other r c :
c ≠ "latitude" → c ≠ "longitude" → coerced r !! c = r !! c.
Proof. intros H1 H2. unfold coerced, coerce_location. by rewrite !lookup_insert_ne. Qed.

Lemma lookup_total_eq (r r' : row) c : r !! c = r' !! c → r !!! c = r' !!! c.
Proof. intros H. by rewrite !lookup_total_alt, H. Qed.

(** The date phase on its own keeps every row, in place: the date cell
  becomes the timestamp it parses to and the month cell the first
  instant of that timestamp's month; a date that does not parse
  becomes [NaT], as does its month, and the row stays. The other
  cells are untouched, and [month] is the only column that may be
  added. *)
Theorem process_dataframe_month_column df :
has_column "date" df = true →
∃ out,
  process df false true = Ok out
  ∧ length (rows out) = length (rows df)
  ∧ columns out = (if has_column "month" df then columns df else columns df ++ ["month"])
  ∧ ∀ i r, rows df !! i = Some r →
      ∃ r', rows out !! i = Some r'
            ∧ (∀ c, c ≠ "date" → c ≠ "month" → r' !! c = r !! c)
            ∧ match to_datetime (r !!! "date") with
              | Some t =>
                  r' !!! "date" = VTime t
                  ∧ r' !!! "month"
                    = VTime {| ts_year := ts_year t; ts_month := ts_month t; ts_nanos := 0 |}
              | None => r' !!! "date" = VNaT ∧ r' !!! "month" = VNaT
              end.
Proof.
intros Hd. eexists. split.
{ unfold process, process_dataframe. simpl. by apply normalize_date_all. }
cbn [rows columns]. split_and!.
- by rewrite length_fmap.
- done.
- intros i r Hi. exists (with_month r). split_and!.
  + by rewrite list_lookup_fmap, Hi.
  + intros c. apply with_month_other.
  + rewrite with_month_date, with_month_month.
    by destruct (to_datetime (r !!! "date")).
Qed.

(** Normalising a normalised table changes nothing, provided the two
  conversions leave alone what is already converted: a float is its
  own number, a timestamp its own date, and [NaT] stays [NaT]. *)
Theorem process_dataframe_idempotent df out :
(∀ f, to_numeric (VFloat f) = f) →
(∀ t, to_datetime (VTime t) = Some t) →
to_datetime VNaT = None →
process df true true = Ok out →
process out true true = Ok out.
Proof.
intros Hnum Htime Hnat Hout.
pose proof (process_dataframe_inv _ _ Hout) as Hc.
rewrite (process_dataframe_all df Hc) in Hout. injection Hout as <-.
set (kept := List.filter (λ r, inside_box (lat r) (lon r)) (rows df)).
set (cols := if has_column "month" df then columns df else columns df ++ ["month"]).
set (out := {| columns := cols; rows := with_month <$> (coerced <$> kept) |}).
assert (∀ c, has_column c df = true → has_column c out = true) as Hkeep.
{ intros c. unfold has_column at 1 2. unfold out, cols. cbn [columns].
  rewrite !bool_decide_eq_true.
  destruct (has_column "month" df); [done|]. intros ?. apply elem_of_app. by left. }
assert (has_column "month" out = true) as Hmonth.
{ unfold has_column at 1. unfold out, cols. cbn [columns]. apply bool_decide_eq_true.
  destruct (has_column "month" df) eqn:E.
  - by apply bool_decide_eq_true in E.
  - apply elem_of_app. right. by apply list_elem_of_singleton. }
assert (has_columns ["latitude"; "longitude"; "date"] out = true) as Hc'.
{ split_columns. unfold has_columns. simpl. by rewrite !Hkeep. }
rewrite (process_dataframe_all out Hc'). rewrite Hmonth. f_equal. unfold out at 3.
f_equal. cbn [rows].
assert (∀ r0, r0 ∈ kept →
          let r := with_month (coerced r0) in
          inside_box (lat r) (lon r) = true ∧ with_month (coerced r) = r) as Hrow.
{ intros r0 Hr0 r.
  assert (inside_box (lat r0) (lon r0) = true) as Hin.
  { unfold kept in Hr0. apply list_elem_of_In, filter_In in Hr0. tauto. }
  assert (r !! "latitude" = Some (VFloat (lat r0))) as Hlat.
  { unfold r. rewrite with_month_other by done. unfold coerced, coerce_location.
    rewrite lookup_insert_ne by done. by rewrite lookup_insert_eq. }
  assert (r !! "longitude" = Some (VFloat (lon r0))) as Hlon.
  { unfold r. rewrite with_month_other by done. unfold coerced, coerce_location.
    by rewrite lookup_insert_eq. }
  assert (lat r = lat r0) as Elat.
  { unfold lat at 1. rewrite lookup_total_alt, Hlat. simpl. apply Hnum. }
  assert (lon r = lon r0) as Elon.
  { unfold lon at 1. rewrite lookup_total_alt, Hlon. simpl. apply Hnum. }
  split; [by rewrite Elat, Elon|].
  assert (coerced r = r) as ->.
  { unfold coerced, coerce_location. fold (lat r) (lon r). rewrite Elat, Elon.
    rewrite (insert_id r "latitude") by done. by rewrite insert_id. }
  set (d := time_cell (to_datetime (coerced r0 !!! "date"))).
  assert (r !! "date" = Some d) as Hdate.
  { unfold r, with_month, add_month. rewrite lookup_insert_ne by done.
    by rewrite lookup_insert_eq. }
  assert (r !! "month" = Some (month_cell d)) as Hm.
  { unfold r, with_month, add_month. rewrite lookup_insert_eq.
    by rewrite lookup_total_insert_eq. }
  assert (time_cell (to_datetime d) = d) as Hd.
  { unfold d. destruct (to_datetime (coerced r0 !!! "date")) as [t|]; simpl.
    - by rewrite Htime.
    - by rewrite Hnat. }
  unfold with_month, add_month.
  assert (r !!! "date" = d) as -> by (by rewrite lookup_total_alt, Hdate).
  rewrite Hd. rewrite (insert_id r "date") by done.
  assert (r !!! "date" = d) as -> by (by rewrite lookup_total_alt, Hdate).
  by rewrite insert_id. }
rewrite filter_all.
- change (rows out) with (with_month <$> (coerced <$> kept)).
  rewrite <-!list_fmap_compose. apply list_fmap_ext. intros i r0 Hi. simpl.
  apply (Hrow r0). by eapply list_elem_of_lookup_2.
- intros r Hr. change (rows out) with (with_month <$> (coerced <$> kept)) in Hr.
  apply list_elem_of_fmap in Hr as (r1 & -> & (r0 & -> & Hr0)%list_elem_of_fmap).
  by apply (Hrow r0).
Qed.
End NormalizerMore.

(** * Further properties of the loaders *)

(** ** Staleness *)

(** A file that is missing is stale. Staleness only sets in: a file
    that is stale stays so as the clock advances and as the allowed
    age shrinks. A file is fresh right after it was written, and
    still fresh at exactly the allowed age. *)
Theorem cache_stale_monotone path (age : Q) w :
  (files w !! path = None → cache_stale path age w = true)
  ∧ (∀ w2 age2, files w2 !! path = files w !! path →
                (clock w <= clock w2)%Q → (age2 <= age)%Q →
                cache_stale path age w = true → cache_stale path age2 w2 = true)
  ∧ (∀ c, (0 <= age)%Q → cache_stale path age (write_file path c w) = false)
  ∧ (∀ mtime c, files w !! path = Some (mtime, c) →
                (clock w - mtime == age * 60)%Q → cache_stale path age w = false).
Proof.
  split_and!.
  - intros Hf. unfold cache_stale. by rewrite Hf.
  - intros w2 age2 Hf Hc Ha. unfold cache_stale. rewrite Hf.
    destruct (files w !! path) as [[mtime c]|]; [|done].
    rewrite !negb_true_iff. intros Hs.
    destruct (Qle_bool (clock w2 - mtime) (age2 * 60)) eqn:E; [|done].
    apply Qle_bool_iff in E.
    assert (Qle_bool (clock w - mtime) (age * 60) = true) as Hle; [|congruence].
    apply Qle_bool_iff. lra.
  - intros c Ha. apply cache_stale_false. exists (clock w), c. split.
    + simpl. by rewrite lookup_insert_eq.
    + simpl. lra.
  - intros mtime c Hf He. apply cache_stale_false. exists mtime, c. split; [done|].
    rewrite He. lra.
Qed.

(** ** Tables with missing values and missing columns *)

Lemma first_missing_none cols df :
  first_missing cols df = None ↔ has_columns cols df = true.
Proof.
  induction cols as [|c cols IH]; [done|].
  cbn [first_missing]. rewrite has_columns_cons. destruct (has_column c df).
  - rewrite IH. tauto.
  - split; [done|by intros [? _]].
Qed.

Lemma first_missing_some cols df c :
  first_missing cols df = Some c → c ∈ cols ∧ has_column c df = false.
Proof.
  induction cols as [|c' cols IH]; simpl; [done|].
  destruct (has_column c' df) eqn:E.
  - intros [? ?]%IH. split; [by right|done].
  - intros [= <-]. split; [by left|done].
Qed.

Lemma dropna_ok cols df out :
  dropna cols df = Ok out →
  has_columns cols df = true
  ∧ out = select_rows (λ r, forallb (λ c, negb (isna (r !!! c))) cols) df.
Proof.
  unfold dropna. destruct (first_missing cols df) eqn:E; [done|].
  intros [= <-]. split; [by apply first_missing_none|done].
Qed.

Lemma dropna_raise cols df :
  has_columns cols df = false → ∃ e, dropna cols df = Raise e ∧ exn_class e = "KeyError".
Proof.
  intros H. unfold dropna. destruct (first_missing cols df) as [c|] eqn:E.
  - by eexists.
  - apply first_missing_none in E. congruence.
Qed.

Lemma rename_row_other old new (r : row) c :
  c ≠ old → c ≠ new → rename_row old new r !! c = r !! c.
Proof.
  intros H1 H2. unfold rename_row. destruct (r !! old); [|done].
  rewrite lookup_insert_ne by done. by rewrite lookup_delete_ne.
Qed.

Lemma rename_row_other_total old new (r : row) c :
  c ≠ old → c ≠ new → rename_row old new r !!! c = r !!! c.
Proof. intros H1 H2. by rewrite !lookup_total_alt, rename_row_other. Qed.

Lemma has_column_rename_other old new df c :
  c ≠ old → has_column c df = true → has_column c (rename old new df) = true.
Proof.
  intros Hne. unfold has_column, rename. simpl. rewrite !bool_decide_eq_true.
  intros Hc. apply list_elem_of_fmap. exists c. split; [|done].
  destruct (String.eqb c old) eqn:E; [|done]. by apply String.eqb_eq in E.
Qed.

Lemma has_column_rename_new old new df :
  has_column new (rename old new df) = has_column old df || has_column new df.
Proof.
  unfold has_column, rename. simpl.
  apply eq_true_iff_eq. rewrite orb_true_iff, !bool_decide_eq_true, list_elem_of_fmap.
  split.
  - intros (c & Hc & Hin). destruct (String.eqb c old) eqn:E.
    + apply String.eqb_eq in E as ->. by left.
    + subst. by right.
  - intros [H|H].
    + exists old. by rewrite String.eqb_refl.
    + exists new. split; [|done]. destruct (String.eqb new old) eqn:E; [|done]. done.
Qed.

Lemma has_column_rename_old old new df :
  old ≠ new → has_column old (rename old new df) = false.
Proof.
  intros Hne. unfold has_column, rename. simpl. apply bool_decide_eq_false.
  intros (c & Hc & Hin)%list_elem_of_fmap.
  destruct (String.eqb c old) eqn:E; [done|].
  subst. by rewrite String.eqb_refl in E.
Qed.

Lemma has_column_with_month c df rs :
  c ≠ "month" →
  has_column c {| columns := if has_column "month" df then columns df
                              else columns df ++ ["month"];
                   rows := rs |}
  = has_column c df.
Proof.
  intros Hne. destruct (has_column "month" df) eqn:E; [done|].
  unfold has_column. cbn [columns]. apply bool_decide_ext.
  rewrite elem_of_app, list_elem_of_singleton. split; [|by left]. by intros [?|?].
Qed.

Lemma bind_ok {A B} (r : result A) (k : A → result B) b :
  r ≫= k = Ok b → ∃ a, r = Ok a ∧ k a = Ok b.
Proof. destruct r as [a|e]; [|done]. intros H. by exists a. Qed.

Section LoaderFacts.
Variable read_json : str → result DataFrame.
Variable to_numeric : value → float.
Variable to_datetime : value → option Timestamp.
Variable http_get : world → str → response.
Variable CACHE_DIR : string.
Variable API_BASE_URL : str.

Let stream := stream_to_dataframe read_json http_get.
Let load_311 := get_311_data read_json to_numeric to_datetime http_get CACHE_DIR API_BASE_URL.
Let load_shots :=
get_shots_fired_data read_json to_numeric to_datetime http_get CACHE_DIR API_BASE_URL.
Let path311 := path_311 CACHE_DIR.
Let url311 := url_311 API_BASE_URL.
Let pshots := path_shots CACHE_DIR.
Let pmatched := path_matched CACHE_DIR.
Let ushots := url_shots API_BASE_URL.
Let umatched := url_matched API_BASE_URL.
Let prepare311 := prepare_311 to_numeric to_datetime.
Let prepareshots := prepare_shots to_numeric to_datetime.
Let preparematched := prepare_matched to_numeric to_datetime.
Let process := process_dataframe to_numeric to_datetime.

Lemma stream_logs url w : (stream url w).2 = log_request url w.
Proof. unfold stream, stream_to_dataframe. by case_bool_decide. Qed.

(** A load that goes to the network. *)
Lemma get_311_data_fetch force_refresh w :
negb force_refresh && negb (cache_stale path311 30 w) = false →
load_311 force_refresh w
= match (stream url311 w).1 ≫= prepare311 with
  | Ok df => (Ok df, write_file path311 (Parquet df) (log_request url311 w))
  | Raise e => (Raise e, log_request url311 w)
  end.
Proof.
intros Hf. unfold load_311, get_311_data. fold path311. rewrite Hf.
fold stream url311. pose proof (stream_logs url311 w) as Hw.
destruct (stream url311 w) as [fetched w']. simpl in Hw. by subst w'.
Qed.

(** A load served from the cache. *)
Lemma get_311_data_hit force_refresh w :
negb force_refresh && negb (cache_stale path311 30 w) = true →
load_311 force_refresh w = (read_parquet path311 w, w).
Proof. intros Hf. unfold load_311, get_311_data. fold path311. by rewrite Hf. Qed.

Lemma get_shots_fired_data_fetch force_refresh w :
negb force_refresh && negb (cache_stale pshots 30 w) && negb (cache_stale pmatched 30 w)
= false →
load_shots force_refresh w
= match (stream ushots w).1 ≫= prepareshots with
  | Raise e => (Raise e, log_request ushots w)
  | Ok df =>
      let w1 := log_request ushots w in
      match (stream umatched w1).1 ≫= preparematched with
      | Raise e => (Raise e, log_request umatched w1)
      | Ok df_matched =>
          (Ok (df, df_matched),
           write_file pmatched (Parquet df_matched)
             (write_file pshots (Parquet df) (log_request umatched w1)))
      end
  end.
Proof.
intros Hf. unfold load_shots, get_shots_fired_data. fold pshots pmatched. rewrite Hf.
fold stream ushots umatched. pose proof (stream_logs ushots w) as Hw.
destruct (stream ushots w) as [fetched w']. simpl in Hw. subst w'.
fold prepareshots. simpl. destruct (fetched ≫= prepareshots) as [df|e]; [|done].
pose proof (stream_logs umatched (log_request ushots w)) as Hw.
destruct (stream umatched (log_request ushots w)) as [fetched2 w']. simpl in Hw. subst w'.
fold preparematched. simpl. by destruct (fetched2 ≫= preparematched).
Qed.

Lemma get_shots_fired_data_hit force_refresh w :
negb force_refresh && negb (cache_stale pshots 30 w) && negb (cache_stale pmatched 30 w)
= true →
load_shots force_refresh w
= (df ← read_parquet pshots w; df_matched ← read_parquet pmatched w;
   Ok (df, df_matched), w).
Proof.
intros Hf. unfold load_shots, get_shots_fired_data. fold pshots pmatched. by rewrite Hf.
Qed.

Lemma paths_distinct : path311 ≠ pshots ∧ path311 ≠ pmatched ∧ pshots ≠ pmatched.
Proof.
split_and!; intros H; by apply path_join_inj in H.
Qed.

(** ** What a load of the 311 records touches *)


(** ** What a freshly fetched table of 311 records holds *)

Lemma prepare_311_ok raw df :
prepare311 raw = Ok df →
has_columns ["latitude"; "longitude"; "date"] raw = true
∧ ∃ df1, process raw true true = Ok df1
         ∧ dropna ["latitude"; "longitude"; "date"; "category"]
             (rename "normalized_type" "category" df1) = Ok df.
Proof.
unfold prepare311, prepare_311. intros (df1 & H1 & H2)%bind_ok.
split; [by eapply process_dataframe_inv|]. by exists df1.
Qed.

(** A table fetched from the API (one that has no column [category]
  of its own) and returned by the loader: it had the three columns
  the normaliser needs and the column [normalized_type], which is
  now called [category]; the other columns are kept and [month] is
  there; no row was added; and every row has coordinates that are
  numbers strictly inside the box, a date that is a timestamp, the
  first instant of that date's month as its month, and a category
  that is not missing. *)
Theorem get_311_data_rows_valid force_refresh w raw df w1 :
negb force_refresh && negb (cache_stale path311 30 w) = false →
(stream url311 w).1 = Ok raw →
has_column "category" raw = false →
load_311 force_refresh w = (Ok df, w1) →
has_columns ["latitude"; "longitude"; "date"; "normalized_type"] raw = true
∧ has_columns ["latitude"; "longitude"; "date"; "month"; "category"] df = true
∧ has_column "normalized_type" df = false
∧ (∀ c, c ≠ "normalized_type" → has_column c raw = true → has_column c df = true)
∧ length (rows df) ≤ length (rows raw)
∧ ∀ r, r ∈ rows df →
    ∃ lat lon t,
      r !!! "latitude" = VFloat lat ∧ r !!! "longitude" = VFloat lon
      ∧ inside_box lat lon = true
      ∧ r !!! "date" = VTime t
      ∧ r !!! "month" = VTime {| ts_year := ts_year t; ts_month := ts_month t;
                                 ts_nanos := 0 |}
      ∧ isna (r !!! "category") = false.
Proof.
intros Hf Hraw Hcat Hload. rewrite (get_311_data_fetch _ _ Hf), Hraw in Hload.
simpl in Hload. destruct (prepare311 raw) as [df'|e] eqn:Hp; [|done].
injection Hload as -> _.
apply prepare_311_ok in Hp as (Hc & df1 & Hproc & Hdrop).
unfold process in Hproc. rewrite (process_dataframe_all _ _ raw Hc) in Hproc.
injection Hproc as <-.
set (kept := List.filter (λ r : row, inside_box (to_numeric (r !!! "latitude"))
                                       (to_numeric (r !!! "longitude"))) (rows raw)) in *.
set (df1 := {| columns := if has_column "month" raw then columns raw
                          else columns raw ++ ["month"];
               rows := add_month to_datetime <$> (coerce_location to_numeric <$> kept) |})
  in *.
apply dropna_ok in Hdrop as [Hcols ->].
assert (∀ c, has_column c raw = true → has_column c df1 = true) as Hkeep.
{ intros c. unfold has_column at 1 2. unfold df1. cbn [columns].
  rewrite !bool_decide_eq_true.
  destruct (has_column "month" raw); [done|]. intros ?. apply elem_of_app. by left. }
assert (has_column "month" df1 = true) as Hmonth.
{ unfold has_column at 1. unfold df1. cbn [columns]. apply bool_decide_eq_true.
  destruct (has_column "month" raw) eqn:E.
  - by apply bool_decide_eq_true in E.
  - apply elem_of_app. right. by apply list_elem_of_singleton. }
assert (has_column "category" df1 = false) as Hcat1.
{ unfold has_column at 1. unfold df1. cbn [columns]. apply bool_decide_eq_false.
  unfold has_column in Hcat. apply bool_decide_eq_false in Hcat.
  destruct (has_column "month" raw); [done|].
  intros [?|?%list_elem_of_singleton]%elem_of_app; done. }
assert (has_column "normalized_type" df1 = has_column "normalized_type" raw) as Hnt1.
{ unfold has_column at 1 2. unfold df1. cbn [columns]. apply bool_decide_ext.
  destruct (has_column "month" raw); [done|].
  rewrite elem_of_app, list_elem_of_singleton. split; [|by left]. by intros [?|?]. }
pose proof Hcols as Hcols'. split_columns.
match goal with H : has_column "category" (rename _ _ _) = true |- _ =>
  rewrite has_column_rename_new, Hcat1, orb_false_r, Hnt1 in H; rename H into Hnt
end.
split_and!.
- pose proof Hc as Hc2. split_columns. unfold has_columns. simpl.
  by repeat match goal with H : has_column _ raw = true |- _ => rewrite H; clear H end.
- unfold has_columns. simpl. change (has_column ?c (select_rows _ ?d)) with (has_column c d).
  rewrite (has_column_rename_other _ _ df1 "month") by done.
  by repeat match goal with
            | H : has_column _ (rename _ _ _) = true |- _ => rewrite H; clear H
            end.
- change (has_column ?c (select_rows _ ?d)) with (has_column c d).
  by apply has_column_rename_old.
- intros c Hne Hcraw. change (has_column ?c (select_rows _ ?d)) with (has_column c d).
  apply has_column_rename_other; [done|]. by apply Hkeep.
- cbn [rows select_rows rename]. etrans; [apply List.filter_length_le|].
  rewrite length_fmap. unfold df1. cbn [rows]. rewrite !length_fmap.
  apply List.filter_length_le.
- intros r Hr. cbn [rows select_rows rename] in Hr.
  apply list_elem_of_In, filter_In in Hr as [Hr Hna].
  apply list_elem_of_In, list_elem_of_fmap in Hr as (r1 & -> & Hr1).
  cbn [rows df1] in Hr1.
  apply list_elem_of_fmap in Hr1 as (r2 & -> & (r0 & -> & Hr0)%list_elem_of_fmap).
  apply list_elem_of_In, filter_In in Hr0 as [_ Hin].
  simpl in Hna. rewrite !andb_true_iff, !negb_true_iff in Hna.
  destruct Hna as (_ & _ & Hdate & Hcategory & _).
  rewrite rename_row_other_total in Hdate by done.
  rewrite (rename_row_other_total _ _ _ "latitude"),
    (rename_row_other_total _ _ _ "longitude"),
    (rename_row_other_total _ _ _ "date"),
    (rename_row_other_total _ _ _ "month") by done.
  rewrite (lookup_total_eq _ (coerce_location to_numeric r0) "latitude")
    by (by apply with_month_other).
  rewrite (lookup_total_eq _ (coerce_location to_numeric r0) "longitude")
    by (by apply with_month_other).
  rewrite coerced_latitude, coerced_longitude.
  rewrite with_month_date in Hdate |- *. rewrite with_month_month.
  destruct (to_datetime (coerce_location to_numeric r0 !!! "date")) as [t|]; [|done].
  by exists (to_numeric (r0 !!! "latitude")), (to_numeric (r0 !!! "longitude")), t.
Qed.

(** ** Answers that lack a column *)

Lemma process_dataframe_raise df :
has_columns ["latitude"; "longitude"; "date"] df = false →
∃ e, process df true true = Raise e ∧ exn_class e = "KeyError".
Proof.
intros H. destruct (process df true true) as [out|e] eqn:E.
- apply process_dataframe_inv in E. congruence.
- exists e. split; [done|]. revert E.
  unfold process, process_dataframe, normalize_location, require_column.
  destruct (has_column "latitude" df); [|by intros [= <-]].
  destruct (has_column "longitude" _); [|by intros [= <-]].
  cbn [mbind result_bind]. unfold normalize_date, require_column.
  destruct (has_column "date" _); [done|by intros [= <-]].
Qed.

(** A table that the API answers with and that lacks one of the
  columns [latitude], [longitude], [date], or both of
  [normalized_type] and [category], makes the load fail with a
  [KeyError]: the request was made and nothing is cached. So does, in
  particular, the array of no record, which the reader turns into
  the table with no column. A load of the shots that goes to the
  network (forced, or with a stale cache file) fails in the same
  way, before the matched homicides are requested. *)
Theorem get_311_data_missing_column force_refresh w :
let response := http_get w url311 in
negb force_refresh && negb (cache_stale path311 30 w) = false →
(∀ raw, (stream url311 w).1 = Ok raw →
        has_columns ["latitude"; "longitude"; "date"] raw = false
        ∨ (has_column "normalized_type" raw = false ∧ has_column "category" raw = false) →
        ∃ e, load_311 force_refresh w = (Raise e, log_request url311 w)
             ∧ exn_class e = "KeyError")
∧ (status_code response = 200%Z →
   concat (chunks response) = OPEN ++ CLOSE →
   read_json (lit "[]") = Ok empty_frame →
   ∃ e, load_311 force_refresh w = (Raise e, log_request url311 w)
        ∧ exn_class e = "KeyError")
∧ (∀ force raw,
     negb force && negb (cache_stale pshots 30 w) && negb (cache_stale pmatched 30 w)
     = false →
     (stream ushots w).1 = Ok raw →
     has_columns ["latitude"; "longitude"; "date"] raw = false →
     ∃ e, load_shots force w = (Raise e, log_request ushots w)
          ∧ exn_class e = "KeyError").
Proof.
intros response Hf.
assert (∀ raw, (stream url311 w).1 = Ok raw →
          has_columns ["latitude"; "longitude"; "date"] raw = false
          ∨ (has_column "normalized_type" raw = false ∧ has_column "category" raw = false) →
          ∃ e, load_311 force_refresh w = (Raise e, log_request url311 w)
               ∧ exn_class e = "KeyError") as Hmissing.
{ intros raw Hraw Hcols. rewrite (get_311_data_fetch _ _ Hf), Hraw. simpl.
  unfold prepare311, prepare_311. fold process.
  destruct (decide (has_columns ["latitude"; "longitude"; "date"] raw = true)) as [Hc|Hc].
  - destruct Hcols as [Hcols|[Hnt Hcat]]; [congruence|].
    unfold process. rewrite (process_dataframe_all _ _ raw Hc). cbn [mbind result_bind].
    match goal with |- context [dropna ?cols ?d] =>
      destruct (dropna_raise cols d) as (e & -> & He)
    end; [|by exists e].
    apply not_true_is_false. intros Hall. split_columns.
    match goal with H : has_column "category" (rename _ _ _) = true |- _ =>
      rewrite has_column_rename_new in H; apply orb_true_iff in H; rename H into Hor
    end.
    destruct Hor as [Hor|Hor]; rewrite has_column_with_month in Hor by done; congruence.
  - apply not_true_is_false in Hc.
    destruct (process_dataframe_raise raw Hc) as (e & -> & He). by exists e. }
split_and!.
- exact Hmissing.
- intros Hs Hbody Hread. apply (Hmissing empty_frame); [|by left].
  unfold stream, stream_to_dataframe. fold response.
  rewrite bool_decide_eq_false_2 by (by intros ?). simpl.
  unfold decode_stream.
  rewrite (assemble_wellformed [] (chunks response)); [|constructor|done|exact Hbody].
  by apply parse_assembled_ok.
- intros force raw Hforce Hraw Hcols.
  rewrite (get_shots_fired_data_fetch force w) by done. rewrite Hraw. simpl.

  unfold prepareshots, prepare_shots. fold process.
  destruct (process_dataframe_raise raw Hcols) as (e & -> & He). by exists e.
Qed.
End LoaderFacts.

(** * Start-up *)

(** ** The slider's range *)

Ltac comparisons :=
  repeat first
    [ rewrite orb_true_iff | rewrite andb_true_iff
    | rewrite orb_false_iff | rewrite andb_false_iff
    | rewrite Z.ltb_lt | rewrite Z.ltb_ge | rewrite Z.eqb_eq | rewrite Z.eqb_neq
    | rewrite Z.leb_le | rewrite Z.leb_gt ].

Lemma ts_leb_index a b :
  valid_month a → valid_month b → ts_leb a b = true → (month_index a ≤ month_index b)%Z.
Proof.
  unfold valid_month, ts_leb, month_index. intros Ha Hb. comparisons. lia.
Qed.

Lemma ts_leb_total a b : ts_leb a b = false → ts_leb b a = true.
Proof. unfold ts_leb. comparisons. lia. Qed.

Lemma series_max_time_fold cells acc :
  (∀ t, VTime t ∈ cells → valid_month t) →
  (∀ m, acc = Some m → valid_month m) →
  let res := fold_left max_step cells acc in
  (res = None ↔ acc = None ∧ ∀ t, VTime t ∉ cells)
  ∧ ∀ m, res = Some m →
      valid_month m
      ∧ (acc = Some m ∨ VTime m ∈ cells)
      ∧ (∀ m0, acc = Some m0 → (month_index m0 ≤ month_index m)%Z)
      ∧ (∀ t, VTime t ∈ cells → (month_index t ≤ month_index m)%Z).
Proof.
  revert acc. induction cells as [|v cells IH]; intros acc Hcells Hacc; cbn zeta.
  - simpl. split.
    + split; [intros ->; split; [done|]; by intros t ?%elem_of_nil|by intros [-> _]].
    + intros m ->. split_and!; [by apply Hacc|by left| |by intros t ?%elem_of_nil].
      by intros m0 [= ->].
  - cbn [fold_left].
    assert (∀ t, VTime t ∈ cells → valid_month t) as Hcells'.
    { intros t Ht. apply Hcells. by right. }
    assert (∀ m, max_step acc v = Some m → valid_month m) as Hacc'.
    { intros m. unfold max_step. destruct v as [| | | |t|]; try apply Hacc.
      destruct acc as [m0|]; intros [= <-].
      - destruct (ts_leb m0 t); [apply Hcells; by left|by apply Hacc].
      - apply Hcells. by left. }
    destruct (IH (max_step acc v) Hcells' Hacc') as [Hnone Hsome]. split.
    + rewrite Hnone. unfold max_step. split.
      * intros [Hn Hno]. destruct v as [| | | |t|];
          try (split; [done|]; intros t' [?|?]%elem_of_cons; [done|by eapply Hno]).
        by destruct acc.
      * intros [-> Hno]. destruct v as [| | | |t|];
          try (split; [done|]; intros t' ?; eapply Hno; by right).
        exfalso. apply (Hno t). by left.
    + intros m Hm. destruct (Hsome m Hm) as (Hv & Hfrom & Hge & Hall).
      split; [done|]. unfold max_step in Hfrom, Hge.
      destruct v as [| | | |t|];
        try (split_and!; [destruct Hfrom; [by left|right; by right]|done|
                          intros t' [?|?]%elem_of_cons; [done|by apply Hall]]).
      assert (valid_month t) as Ht by (apply Hcells; by left).
      destruct acc as [m0|].
      * pose proof (Hacc m0 eq_refl) as Hm0.
        destruct (ts_leb m0 t) eqn:E.
        -- pose proof (ts_leb_index m0 t Hm0 Ht E) as Hle.
           pose proof (Hge t eq_refl) as Hge'. split_and!.
           ++ right. destruct Hfrom as [[= <-]|?]; [by left|by right].
           ++ intros ? [= <-]. lia.
           ++ intros t' [[= ->]|?]%elem_of_cons; [done|by apply Hall].
        -- apply ts_leb_total in E.
           pose proof (ts_leb_index t m0 Ht Hm0 E) as Hle.
           pose proof (Hge m0 eq_refl) as Hge'. split_and!.
           ++ destruct Hfrom as [?|?]; [by left|right; by right].
           ++ by intros ? [= <-].
           ++ intros t' [[= ->]|?]%elem_of_cons; [lia|by apply Hall].
      * pose proof (Hge t eq_refl) as Hge'. split_and!.
        -- right. destruct Hfrom as [[= <-]|?]; [by left|by right].
        -- done.
        -- intros t' [[= ->]|?]%elem_of_cons; [done|by apply Hall].
Qed.

(** The slider's last position is the month of the latest record,
    counted from January 2018: every record's month is at or before
    it and some record's month is it. A table with no dated record has
    no last position. *)
Theorem slider_max_covers df_311 :
  has_column "date" df_311 = true →
  (∀ r t, r ∈ rows df_311 → r !!! "date" = VTime t → (1 ≤ ts_month t ≤ 12)%Z) →
  ∃ max_value,
    slider_max df_311 = Ok max_value
    ∧ (max_value = None ↔ ∀ r t, r ∈ rows df_311 → r !!! "date" ≠ VTime t)
    ∧ ∀ v, max_value = Some v →
        (∃ r t, r ∈ rows df_311 ∧ r !!! "date" = VTime t
                ∧ v = ((ts_year t - 2018) * 12 + (ts_month t - 1))%Z)
        ∧ ∀ r t, r ∈ rows df_311 → r !!! "date" = VTime t →
                 ((ts_year t - 2018) * 12 + (ts_month t - 1) ≤ v)%Z.
Proof.
  intros Hd Hvalid. unfold slider_max. rewrite require_column_ok by done.
  eexists. split; [done|].
  set (cells := (λ r : row, r !!! "date") <$> rows df_311).
  assert (∀ t, VTime t ∈ cells ↔ ∃ r, r ∈ rows df_311 ∧ r !!! "date" = VTime t) as Hcells.
  { intros t. unfold cells. rewrite list_elem_of_fmap.
    split; intros (r & ? & ?); by exists r. }
  destruct (series_max_time_fold cells None) as [Hnone Hsome].
  { intros t (r & Hr & Ht)%Hcells. by apply (Hvalid r t). }
  { done. }
  change (fold_left max_step cells None) with (series_max_time cells) in Hnone, Hsome.
  split.
  - rewrite fmap_None, Hnone. split.
    + intros [_ Hno] r t Hr Ht. apply (Hno t). apply Hcells. by exists r.
    + intros Hno. split; [done|]. intros t (r & Hr & Ht)%Hcells. by apply (Hno r t).
  - intros v (m & Hm & ->)%fmap_Some.
    destruct (Hsome m Hm) as (_ & Hfrom & _ & Hall). split.
    + destruct Hfrom as [?|(r & Hr & Ht)%Hcells]; [done|]. by exists r, m.
    + intros r t Hr Ht. apply (Hall t). apply Hcells. by exists r.
Qed.

(** ** The loads made at import *)

Lemma cache_stale_ext path age w w' :
  files w' !! path = files w !! path → clock w' = clock w →
  cache_stale path age w' = cache_stale path age w.
Proof. intros Hf Hc. unfold cache_stale. by rewrite Hf, Hc. Qed.

Lemma read_parquet_ext path w w' :
  files w' !! path = files w !! path → read_parquet path w' = read_parquet path w.
Proof. intros Hf. unfold read_parquet. by rewrite Hf. Qed.

Lemma cache_fresh_written path c w :
  cache_stale path 30 (write_file path c w) = false.
Proof.
  apply cache_stale_false. exists (clock w), c. split.
  - simpl. by rewrite lookup_insert_eq.
  - simpl. lra.
Qed.

Section Startup.
Variable read_json : str → result DataFrame.
Variable to_numeric : value → float.
Variable to_datetime : value → option Timestamp.
Variable http_get : world → str → response.
Variable CACHE_DIR : string.
Variable API_BASE_URL : str.

Let stream := stream_to_dataframe read_json http_get.
Let load_311 := get_311_data read_json to_numeric to_datetime http_get CACHE_DIR API_BASE_URL.
Let load_shots :=
get_shots_fired_data read_json to_numeric to_datetime http_get CACHE_DIR API_BASE_URL.
Let start := startup read_json to_numeric to_datetime http_get CACHE_DIR API_BASE_URL.
Let path311 := path_311 CACHE_DIR.
Let url311 := url_311 API_BASE_URL.
Let pshots := path_shots CACHE_DIR.
Let pmatched := path_matched CACHE_DIR.
Let ushots := url_shots API_BASE_URL.
Let umatched := url_matched API_BASE_URL.

Let shots_fresh (w : world) : bool :=
negb (cache_stale pshots 30 w) && negb (cache_stale pmatched 30 w).

(** What the load of the shots leaves behind. *)
Lemma load_shots_after w :
let r := (load_shots false w).1 in
let w1 := (load_shots false w).2 in
clock w1 = clock w
∧ files w1 !! path311 = files w !! path311
∧ (∃ made, requested w1 = rev made ++ requested w
           ∧ (if shots_fresh w then made = []
              else made = [ushots] ∨ made = [ushots; umatched])
           ∧ ∀ out, r = Ok out → shots_fresh w = false → made = [ushots; umatched])
∧ ∀ df dfm, r = Ok (df, dfm) →
    shots_fresh w1 = true
    ∧ read_parquet pshots w1 = Ok df ∧ read_parquet pmatched w1 = Ok dfm.
Proof.
destruct (paths_distinct CACHE_DIR) as (H1 & H2 & H3).
fold path311 pshots pmatched in H1, H2, H3.
intros r w1. subst r w1. unfold shots_fresh.
destruct (negb (cache_stale pshots 30 w) && negb (cache_stale pmatched 30 w)) eqn:Hf.
- unfold load_shots.
  rewrite (get_shots_fired_data_hit read_json to_numeric to_datetime http_get
             CACHE_DIR API_BASE_URL false w) by (simpl; exact Hf).
  cbn [fst snd]. split_and!; try done.
  + by exists [].
  + intros df dfm Hr. fold pshots pmatched in Hr. rewrite Hf.
    destruct (read_parquet pshots w) as [a|]; [|done].
    destruct (read_parquet pmatched w) as [b|]; [|done].
    by injection Hr as -> ->.
- unfold load_shots.
  rewrite (get_shots_fired_data_fetch read_json to_numeric to_datetime http_get
             CACHE_DIR API_BASE_URL false w) by (simpl; exact Hf).
  fold stream ushots umatched pshots pmatched.
  destruct ((stream ushots w).1 ≫= _) as [df|e]; cbn zeta.
  2:{ cbn [fst snd]. split_and!; try done.
      exists [ushots]. split_and!; [done|by left|done]. }
  destruct ((stream umatched (log_request ushots w)).1 ≫= _) as [dfm|e].
  2:{ cbn [fst snd]. split_and!; try done.
      exists [ushots; umatched]. split_and!; [done|by right|done]. }
  cbn [fst snd]. split_and!.
  + done.
  + simpl. by rewrite !lookup_insert_ne by done.
  + exists [ushots; umatched]. split_and!; [done|by right|done].
  + intros ? ? [= <- <-]. split_and!.
    * rewrite cache_fresh_written.
      rewrite (cache_stale_ext pshots 30
                 (write_file pshots (Parquet df)
                    (log_request umatched (log_request ushots w)))).
      -- by rewrite cache_fresh_written.
      -- simpl. by rewrite lookup_insert_ne by done.
      -- done.
    * unfold read_parquet. simpl.
      rewrite lookup_insert_ne by done. by rewrite lookup_insert_eq.
    * unfold read_parquet. simpl. by rewrite lookup_insert_eq.
Qed.

(** What the load of the 311 records leaves behind. *)
Lemma load_311_after w :
let r := (load_311 false w).1 in
let w1 := (load_311 false w).2 in
clock w1 = clock w
∧ (∀ p, p ≠ path311 → files w1 !! p = files w !! p)
∧ (∃ made, requested w1 = rev made ++ requested w
           ∧ (if cache_stale path311 30 w then made = [url311] else made = []))
∧ ∀ df, r = Ok df →
    cache_stale path311 30 w1 = false ∧ read_parquet path311 w1 = Ok df.
Proof.
intros r w1. subst r w1.
destruct (cache_stale path311 30 w) eqn:Hs.
- unfold load_311.
  rewrite (get_311_data_fetch read_json to_numeric to_datetime http_get
             CACHE_DIR API_BASE_URL false w) by (simpl; fold path311; by rewrite Hs).
  fold stream url311 path311.
  destruct ((stream url311 w).1 ≫= _) as [df|e]; cbn [fst snd].
  + split_and!; try done.
    * intros p Hp. simpl. by rewrite lookup_insert_ne.
    * by exists [url311].
    * intros ? [= <-]. split; [apply cache_fresh_written|].
      unfold read_parquet. simpl. by rewrite lookup_insert_eq.
  + split_and!; try done. by exists [url311].
- unfold load_311.
  rewrite (get_311_data_hit read_json to_numeric to_datetime http_get
             CACHE_DIR API_BASE_URL false w) by (simpl; fold path311; by rewrite Hs).
  cbn [fst snd]. split_and!; try done. by exists [].
Qed.

Lemma start_eq w :
start w
= match (load_shots false w).1 with
  | Raise e => (Raise e, (load_shots false w).2)
  | Ok (df_shots, df_hom) =>
      let w1 := (load_shots false w).2 in
      match (load_311 false w1).1 with
      | Raise e => (Raise e, (load_311 false w1).2)
      | Ok df_311 =>
          (max_value ← slider_max df_311; Ok (df_shots, df_hom, df_311, max_value),
           (load_311 false w1).2)
      end
  end.
Proof.
unfold start, startup. fold load_shots load_311.
destruct (load_shots false w) as [[[s h]|e] w1]; [|done]. cbn [fst snd].
by destruct (load_311 false w1) as [[d|e] w2].
Qed.

(** The import loads the shots with the matched homicides and then
  the 311 records: at most three requests, in that order, and none
  when the three cache files are fresh; the clock is not moved.
  After an import that succeeded the three files are fresh and hold
  the tables it returned, so that importing again at once requests
  nothing and returns the same tables and the same slider range. *)
Theorem startup_requests w :
let w1 := (start w).2 in
clock w1 = clock w
∧ (∃ made, requested w1 = rev made ++ requested w
           ∧ made ∈ [[]; [url311]; [ushots]; [ushots; umatched];
                     [ushots; umatched; url311]])
∧ (shots_fresh w = true → cache_stale path311 30 w = false →
   requested w1 = requested w)
∧ (∀ out, (start w).1 = Ok out →
     (shots_fresh w = false → cache_stale path311 30 w = true →
      requested w1 = url311 :: umatched :: ushots :: requested w)
     ∧ shots_fresh w1 = true ∧ cache_stale path311 30 w1 = false
     ∧ ∀ w2, files w2 = files w1 → clock w2 = clock w →
             start w2 = (Ok out, w2)).
Proof.
destruct (paths_distinct CACHE_DIR) as (H1 & H2 & H3).
fold path311 pshots pmatched in H1, H2, H3.
assert (∀ w0 s h wa,
          (load_shots false w0).1 = Ok (s, h) → (load_shots false w0).2 = wa →
          ∀ d wb, (load_311 false wa).1 = Ok d → (load_311 false wa).2 = wb →
          shots_fresh wb = true ∧ cache_stale path311 30 wb = false
          ∧ read_parquet pshots wb = Ok s ∧ read_parquet pmatched wb = Ok h
          ∧ read_parquet path311 wb = Ok d ∧ clock wb = clock w0) as Hafter.
{ intros w0 s h wa Hs Hwa d wb Hd Hwb.
  destruct (load_shots_after w0) as (Hc1 & _ & _ & Hok1). rewrite Hwa in Hc1, Hok1.
  destruct (Hok1 s h Hs) as (Hfresh & Hrs & Hrh).
  destruct (load_311_after wa) as (Hc2 & Hframe & _ & Hok2). rewrite Hwb in Hc2, Hframe, Hok2.
  destruct (Hok2 d Hd) as (Hfresh3 & Hrd).
  split_and!; try done; [| | |congruence].
  - unfold shots_fresh in *.
    rewrite (cache_stale_ext pshots 30 wa wb), (cache_stale_ext pmatched 30 wa wb);
      try done; apply Hframe; by apply not_eq_sym.
  - rewrite (read_parquet_ext pshots wa wb); [done|]. apply Hframe. by apply not_eq_sym.
  - rewrite (read_parquet_ext pmatched wa wb); [done|]. apply Hframe. by apply not_eq_sym. }
intros w1. subst w1. rewrite start_eq.
destruct (load_shots_after w) as (Hc1 & Hf1 & (made1 & Hreq1 & Hmade1 & Hmade1') & Hok1).
destruct (load_shots false w) as [[[s h]|e] wa] eqn:Els; cbn [fst snd] in *.
2:{ split_and!; try done.
    - exists made1. split; [done|]. destruct (shots_fresh w).
      + subst made1. by left.
      + destruct Hmade1 as [-> | ->]; rewrite !elem_of_cons; auto 10.
    - intros Hfresh _. rewrite Hfresh in Hmade1. by subst made1. }
cbn zeta.
destruct (load_311_after wa) as (Hc2 & Hframe & (made2 & Hreq2 & Hmade2) & Hok2).
assert (cache_stale path311 30 wa = cache_stale path311 30 w) as Hstale.
{ by apply cache_stale_ext. }
rewrite Hstale in Hmade2.
assert (requested (load_311 false wa).2 = rev (made1 ++ made2) ++ requested w) as Hreq.
{ rewrite Hreq2, Hreq1, rev_app_distr. by rewrite (assoc_L (++)). }
assert ((made1 ++ made2) ∈ [[]; [url311]; [ushots]; [ushots; umatched];
                             [ushots; umatched; url311]]) as Hin.
{ pose proof (Hmade1' (s, h) eq_refl) as Hboth.
  destruct (shots_fresh w).
  - subst made1.
    destruct (cache_stale path311 30 w); subst made2; rewrite !elem_of_cons; auto 10.
  - rewrite Hboth by done.
    destruct (cache_stale path311 30 w); subst made2; rewrite !elem_of_cons; auto 10. }
assert (shots_fresh w = true → cache_stale path311 30 w = false →
        requested (load_311 false wa).2 = requested w) as Hnone.
{ intros Hfresh Hs. rewrite Hfresh in Hmade1. rewrite Hs in Hmade2.
  rewrite Hreq. by subst. }
destruct (load_311 false wa) as [[d|e] wb] eqn:El3; cbn [fst snd] in *.
2:{ split_and!; try done; [congruence|]. by exists (made1 ++ made2). }
split_and!; [congruence|by exists (made1 ++ made2)|exact Hnone|].
intros out Hout.
destruct (Hafter w s h wa) with (d := d) (wb := wb)
  as (Hfresh & Hfresh3 & Hrs & Hrh & Hrd & Hclock);
  [by rewrite Els|by rewrite Els|by rewrite El3|by rewrite El3|].
split_and!; try done.
- intros Hsf Hs. rewrite Hreq, (Hmade1' (s, h) eq_refl Hsf).
  rewrite Hs in Hmade2. by subst made2.
- intros w2 Hfiles Hclock2. rewrite start_eq.
  assert (shots_fresh w2 = true) as Hfresh2.
  { unfold shots_fresh in *.
    rewrite (cache_stale_ext pshots 30 wb w2), (cache_stale_ext pmatched 30 wb w2);
      try done; try congruence; by rewrite Hfiles. }
  assert (load_shots false w2 = (Ok (s, h), w2)) as ->.
  { unfold load_shots.
    rewrite (get_shots_fired_data_hit read_json to_numeric to_datetime http_get
               CACHE_DIR API_BASE_URL false w2) by (simpl; exact Hfresh2).
    fold pshots pmatched.
    rewrite (read_parquet_ext pshots wb w2), (read_parquet_ext pmatched wb w2)
      by (by rewrite Hfiles).
    by rewrite Hrs, Hrh. }
  cbn [fst snd]. cbn zeta.
  assert (load_311 false w2 = (Ok d, w2)) as ->.
  { unfold load_311.
    rewrite (get_311_data_hit read_json to_numeric to_datetime http_get
               CACHE_DIR API_BASE_URL false w2).
    - rewrite (read_parquet_ext (path_311 CACHE_DIR) wb w2) by (by rewrite Hfiles).
      fold path311. by rewrite Hrd.
    - simpl. fold path311.
      rewrite (cache_stale_ext path311 30 wb w2); [by rewrite Hfresh3| |congruence].
      by rewrite Hfiles. }
  cbn [fst snd]. by rewrite Hout.
Qed.
End Startup.

(** * Further properties of the batch resolver *)

Section ResolverFacts.
Variable read_json : str → result DataFrame.
Variable series_sum : list value → result value.
Variable sort_keys : list value → list value.
Variable concat_error : list DataFrame → option exn.
Variable to_csv : DataFrame → result str.
Variable read_csv : str → result DataFrame.
Variable http_get : world → str → response.
Variable API_BASE_URL : str.

Let stream := stream_to_dataframe read_json http_get.
Let select :=
get_select_311_data read_json series_sum sort_keys concat_error to_csv http_get
  API_BASE_URL.
Let counts :=
compute_area_category_counts read_json series_sum sort_keys concat_error to_csv read_csv
  http_get API_BASE_URL.
Let date_url (event_date : str) : str := url_summary API_BASE_URL (lit "date") event_date.
Let results_of := batch_results read_json http_get API_BASE_URL.

(** ** The file the resolver writes *)



(** ** The counts of an area *)

(** Without ids the counts are the empty dictionary and nothing is
  requested. With ids, the request log is that of the resolver; when
  the resolver returns the empty text (every batch failed) the
  counts are not empty but the error the CSV reader raises on an
  empty text. A dictionary that is returned has no label twice, and
  holds under each text label the value of the last row of the CSV
  table with that label. *)
Theorem compute_area_category_counts_edges event_ids date_str w :
(event_ids = [] → counts event_ids date_str w = (Ok [], w))
∧ (event_ids ≠ [] →
   (counts event_ids date_str w).2 = (select (join (lit ",") event_ids) [] w).2)
∧ (∀ e, event_ids ≠ [] →
        (select (join (lit ",") event_ids) [] w).1 = Ok [] →
        read_csv [] = Raise e →
        (counts event_ids date_str w).1 = Raise e)
∧ (∀ d, (counts event_ids date_str w).1 = Ok d →
     (∀ i j ki kj, i < j → d.*1 !! i = Some ki → d.*1 !! j = Some kj →
                   value_eqb ki kj = false)
     ∧ (event_ids ≠ [] →
        ∃ csv df_area label_col value_col,
          (select (join (lit ",") event_ids) [] w).1 = Ok csv
          ∧ read_csv csv = Ok df_area
          ∧ label_value_columns df_area = Ok (label_col, value_col)
          ∧ ∀ s v, (VStr s, v) ∈ d
                   ↔ ∃ r : row,
                       last (List.filter
                               (λ r : row, value_eqb (VStr s) (r !!! label_col))
                               (rows df_area)) = Some r
                       ∧ r !!! value_col = v)).
Proof.
split_and!.
- by intros ->.
- intros Hne. unfold counts, compute_area_category_counts.
  destruct event_ids as [|i ids]; [done|]. fold select.
  by destruct (select (join (lit ",") (i :: ids)) [] w).
- intros e Hne Hsel Hcsv. unfold counts, compute_area_category_counts.
  destruct event_ids as [|i ids]; [done|]. fold select.
  destruct (select (join (lit ",") (i :: ids)) [] w) as [r w1].
  cbn [fst] in *. subst r. cbn. by rewrite Hcsv.
- intros d Hd. unfold counts, compute_area_category_counts in Hd.
  destruct event_ids as [|i ids].
  + injection Hd as <-. split; [apply keys_apart_nil|done].
  + fold select in Hd.
    destruct (select (join (lit ",") (i :: ids)) [] w) as [r w1]. cbn [fst] in *.
    destruct r as [csv|]; [|done]. cbn in Hd.
    destruct (read_csv csv) as [df_area|] eqn:Ecsv; [|done]. cbn in Hd.
    destruct (label_value_columns df_area) as [[label_col value_col]|] eqn:El; [|done].
    cbn in Hd. injection Hd as <-.
    split; [apply dict_of_keys_apart|]. intros _.
    exists csv, df_area, label_col, value_col. split_and!; try done.
    intros s v. rewrite dict_of_label.
    change ((λ r : row, (r !!! label_col, r !!! value_col)) <$> rows df_area)
      with (map (λ r : row, (r !!! label_col, r !!! value_col)) (rows df_area)).
    rewrite filter_map_swap. cbn [fst].
    change (map ?f ?l) with (f <$> l). rewrite fmap_last.
    set (matching := List.filter (λ r : row, value_eqb (VStr s) (r !!! label_col))
                       (rows df_area)).
    destruct (last matching) as [r|] eqn:E; simpl.
    * assert (r !!! label_col = VStr s) as ->.
      { apply last_Some_elem_of in E. unfold matching in E.
        apply list_elem_of_In, filter_In in E as [_ E]. by apply value_eqb_str in E. }
      split.
      -- intros [= <-]. by exists r.
      -- intros (r' & [= <-] & <-). done.
    * split; [done|]. by intros (r' & ? & _).
Qed.
End ResolverFacts.

(** * Further properties of the hexagon views *)



Section Views.
Variable latlng_to_cell : value → value → Z → str.
Variable cell_to_boundary : str → (float * float) * list (float * float).
Variable cell_to_latlng : str → float * float.
Variable latlng_error : value → value → option exn.
Variable py_str : value → str.
Variable strptime_month_year : str → option (Z * Z).

Let cell_of := row_cell latlng_to_cell RESOLUTION.
Let id_of (r : row) : str := py_str (r !!! "id").
Let make_month := make_month_feature cell_to_boundary cell_to_latlng.
Let make_all := make_all_feature cell_to_boundary cell_to_latlng.








(** ** The point layers of the monthly view *)


(** ** The monthly and the all-time view *)








(** ** The two ways of counting shots *)



(** ** The polygons *)

(** Every hexagon of the two views carries the centre of its cell and
  the ring of its cell: the boundary's vertices in order, each
  turned from (lat, lng) into (lng, lat), and the first of them once
  more at the end, so that the ring is closed and has one vertex
  more than the boundary. *)
Theorem hexagon_rings_closed hex_id point_ids max_value :
let f := make_month (hex_id, point_ids) in
let g := make_all max_value (hex_id, point_ids) in
let boundary := (cell_to_boundary hex_id).1 :: (cell_to_boundary hex_id).2 in
mf_coordinates f = af_coordinates g
∧ (mf_lat f, mf_lon f) = cell_to_latlng hex_id
∧ (af_lat g, af_lon g) = cell_to_latlng hex_id
∧ length (mf_coordinates f) = S (length boundary)
∧ head (mf_coordinates f) = last (mf_coordinates f)
∧ (∀ i lat lng, boundary !! i = Some (lat, lng) →
                mf_coordinates f !! i = Some (lng, lat))
∧ mf_value f = length point_ids ∧ af_count g = length point_ids
∧ mf_ids f = point_ids.
Proof.
intros f g boundary. subst f g boundary.
unfold make_month, make_month_feature, make_all, make_all_feature, ring.
destruct (cell_to_latlng hex_id) as [lat_center lon_center].
destruct (cell_to_boundary hex_id) as [first others]. cbn [fst snd mf_coordinates
  af_coordinates mf_lat mf_lon af_lat af_lon mf_value af_count mf_ids].
split_and!; try done.
- rewrite length_app, length_fmap. simpl. lia.
- by rewrite last_snoc.
- intros i lat lng Hi.
  rewrite lookup_app_l by (rewrite length_fmap; by eapply lookup_lt_Some).
  by rewrite list_lookup_fmap, Hi.
Qed.
End Views.

(** * The category counts *)

Lemma distinct_subset u l : u ∈ distinct l → u ∈ l.
Proof.
  induction l as [|v l IH]; [done|]. cbn [distinct].
  intros [->|Hu]%elem_of_cons; [by left|]. right. apply IH.
  apply list_elem_of_In, filter_In in Hu as [Hu _]. by apply list_elem_of_In.
Qed.

Lemma distinct_text_member s l : VStr s ∈ l → VStr s ∈ distinct l.
Proof.
  intros Hin.
  assert (VStr s ∈ List.filter (value_eqb (VStr s)) (distinct l)) as H.
  { rewrite distinct_str_filter.
    assert (existsb (value_eqb (VStr s)) l = true) as ->; [|by left].
    apply existsb_exists. exists (VStr s).
    split; [by apply list_elem_of_In|apply value_eqb_str_refl]. }
  apply list_elem_of_In, filter_In in H as [H _]. by apply list_elem_of_In.
Qed.

Lemma distinct_text_NoDup l : Forall is_text l → NoDup (distinct l).
Proof.
  induction l as [|v l IH]; intros Hl; [constructor|].
  apply Forall_cons in Hl as [[s ->] Hl]. cbn [distinct]. apply NoDup_cons. split.
  - intros Hin. apply list_elem_of_In, filter_In in Hin as [_ Hin].
    by rewrite value_eqb_str_refl in Hin.
  - specialize (IH Hl). revert IH. generalize (distinct l). intros d Hd.
    induction Hd as [|x d Hx Hd IHd]; cbn [List.filter]; [constructor|].
    destruct (negb (value_eqb (VStr s) x)); [|done].
    apply NoDup_cons. split; [|done].
    intros Hin. apply Hx. apply list_elem_of_In, filter_In in Hin as [Hin _].
    by apply list_elem_of_In.
Qed.

Lemma count_of_cons k v l :
  count_of k (v :: l) = (if value_eqb k v then 1 else 0) + count_of k l.
Proof. unfold count_of. simpl. by destruct (value_eqb k v). Qed.

Lemma count_of_absent s l :
  existsb (value_eqb (VStr s)) l = false → count_of (VStr s) l = 0.
Proof.
  induction l as [|v l IH]; [done|]. cbn [existsb]. rewrite count_of_cons.
  intros [-> H]%orb_false_iff. by rewrite IH.
Qed.

Lemma sum_filter_split {A} (f : A → nat) (p : A → bool) l :
  sum_list (f <$> l)
  = sum_list (f <$> List.filter p l) + sum_list (f <$> List.filter (λ x, negb (p x)) l).
Proof.
  assert (∀ a r, sum_list (a :: r) = a + sum_list r) as Hcons by done.
  induction l as [|x l IH]; [done|].
  cbn [List.filter]. destruct (p x); cbn [negb]; rewrite !fmap_cons, !Hcons, IH; lia.
Qed.

(** The counts of the distinct members add up to the length. *)
Lemma count_of_distinct_sum l :
  Forall is_text l →
  sum_list ((λ k, count_of k l) <$> distinct l) = length l.
Proof.
  induction l as [|v l IH]; intros Hl; [done|].
  apply Forall_cons in Hl as [[s ->] Hl]. cbn [distinct fmap list_fmap sum_list length].
  change (list_fmap _ _ ?f ?d) with (f <$> d).
  rewrite count_of_cons, value_eqb_str_refl.
  assert (sum_list ((λ k, count_of k (VStr s :: l))
                    <$> List.filter (λ u, negb (value_eqb (VStr s) u)) (distinct l))
          = sum_list ((λ k, count_of k l)
                      <$> List.filter (λ u, negb (value_eqb (VStr s) u)) (distinct l)))
    as ->.
  { f_equal. apply list_fmap_ext. intros _ k Hk%list_elem_of_lookup_2.
    apply list_elem_of_In, filter_In in Hk as [Hk Hne].
    apply list_elem_of_In, distinct_subset in Hk.
    rewrite Forall_forall in Hl. destruct (Hl k Hk) as [s' ->].
    rewrite count_of_cons.
    destruct (value_eqb (VStr s') (VStr s)) eqn:E; [|done].
    apply value_eqb_str in E. injection E as <-.
    by rewrite value_eqb_str_refl in Hne. }
  specialize (IH Hl).
  rewrite (sum_filter_split _ (value_eqb (VStr s))) in IH.
  rewrite distinct_str_filter in IH.
  assert (∀ (f : value → nat) x, sum_list (f <$> [x]) = f x) as Hone
    by (intros; simpl; lia).
  unfold id. change (sum_list_with (λ x : nat, x)) with sum_list.
  destruct (existsb (value_eqb (VStr s)) l) eqn:E.
  - rewrite Hone in IH. lia.
  - rewrite (count_of_absent s l E). change (sum_list (_ <$> [])) with 0 in IH. lia.
Qed.

Lemma count_of_present k l : 1 ≤ count_of k l ↔ ∃ v, v ∈ l ∧ value_eqb k v = true.
Proof.
  unfold count_of. split.
  - destruct (List.filter (value_eqb k) l) as [|v f] eqn:E; simpl; [lia|]. intros _.
    assert (v ∈ List.filter (value_eqb k) l) as H by (rewrite E; by left).
    apply list_elem_of_In, filter_In in H as [H1 H2]. exists v.
    split; [by apply list_elem_of_In|done].
  - intros (v & Hv & Hk).
    assert (v ∈ List.filter (value_eqb k) l) as H.
    { apply list_elem_of_In, filter_In. split; [by apply list_elem_of_In|done]. }
    destruct (List.filter (value_eqb k) l); [by apply elem_of_nil in H|simpl; lia].
Qed.

Lemma count_of_present_cells s l :
  count_of (VStr s) (List.filter (λ v, negb (isna v)) l) = count_of (VStr s) l.
Proof.
  unfold count_of. induction l as [|v l IH]; [done|]. cbn [List.filter].
  destruct (isna v) eqn:En; cbn [negb List.filter].
  - destruct (value_eqb (VStr s) v) eqn:E; [|done].
    apply value_eqb_str in E. by subst.
  - destruct (value_eqb (VStr s) v); cbn [length]; by rewrite IH.
Qed.

Section CountFacts.
Variable py_str : value → str.
Variable strptime_month_year : str → option (Z * Z).
Variable order_counts : list (value * nat) → list (value * nat).
Hypothesis order_counts_perm : ∀ l, order_counts l ≡ₚ l.

Let tally := update_category_counts py_str strptime_month_year order_counts.
Let category (r : row) : value := r !!! "category".

(** The counts of the month's records, or of those among them whose
  id is selected: every entry is a category that is not missing
  with the number of the records that have it, at least one; every
  text category of a record has its entry; and when the categories
  are texts no category is listed twice and the counts add up to
  the number of the records whose category is not missing. *)
Theorem update_category_counts_total selected date_str df_311 :
let ts := selected_month strptime_month_year date_str in
let df_month :=
  List.filter (λ r : row, value_eqb (r !!! "month") (VTime ts)) (rows df_311) in
let ids := default [] (selected_ids selected) in
let df_sel := match ids with
              | [] => df_month
              | _ :: _ =>
                  List.filter (λ r : row, bool_decide (py_str (r !!! "id") ∈ ids)) df_month
              end in
let known := List.filter (λ r, negb (isna (category r))) df_sel in
has_columns ["month"; "id"; "category"] df_311 = true →
∃ counts,
  tally selected date_str df_311 = Ok counts
  ∧ (∀ k n, (k, n) ∈ counts →
       (∃ r, r ∈ known ∧ category r = k)
       ∧ n = length (List.filter (λ r, value_eqb k (category r)) df_sel))
  ∧ (∀ s r, r ∈ df_sel → category r = VStr s →
       ∃ n, (VStr s, n) ∈ counts ∧ 1 ≤ n
            ∧ n = length (List.filter (λ r, value_eqb (VStr s) (category r)) df_sel))
  ∧ ((∀ r, r ∈ known → is_text (category r)) →
     NoDup counts.*1 ∧ sum_list counts.*2 = length known).
Proof.
intros ts df_month ids df_sel known Hc. split_columns.
set (cells := category <$> df_sel).
set (present := List.filter (λ v, negb (isna v)) cells).
set (entries := (λ k, (k, count_of k cells)) <$> distinct present).
assert (tally selected date_str df_311 = Ok (order_counts entries)) as Hrun.
{ unfold tally, update_category_counts. fold ts.
  rewrite (require_column_ok "month") by done. fold df_month ids.
  unfold entries, present, cells, df_sel, value_counts.
  destruct ids as [|i ids']; cbn [mbind result_bind].
  - by rewrite require_column_ok by done.
  - rewrite (require_column_ok "id") by done. cbn [mbind result_bind].
    by rewrite require_column_ok by done. }
assert (∀ k, count_of k cells
             = length (List.filter (λ r, value_eqb k (category r)) df_sel)) as Hcount.
{ intros k. unfold count_of, cells.
  change (category <$> df_sel) with (map category df_sel).
  by rewrite filter_map_swap, length_map. }
assert (present = category <$> known) as Hpresent.
{ unfold present, cells, known.
  change (category <$> df_sel) with (map category df_sel).
  by rewrite filter_map_swap. }
exists (order_counts entries). split; [exact Hrun|]. split_and!.
- intros k n Hin. rewrite order_counts_perm in Hin.
  apply list_elem_of_fmap in Hin as (k' & [= -> ->] & Hk).
  apply distinct_subset in Hk. rewrite Hpresent in Hk.
  apply list_elem_of_fmap in Hk as (r & -> & Hr).
  split; [by exists r|apply Hcount].
- intros s r Hr Hs. exists (count_of (VStr s) cells).
  assert (VStr s ∈ cells) as Hcell.
  { apply list_elem_of_fmap. by exists r. }
  split_and!.
  + rewrite order_counts_perm. apply list_elem_of_fmap. exists (VStr s).
    split; [done|]. apply distinct_text_member.
    apply list_elem_of_In, filter_In. split; [by apply list_elem_of_In|done].
  + apply count_of_present. exists (VStr s). split; [done|apply value_eqb_str_refl].
  + apply Hcount.
- intros Htext.
  assert (Forall is_text present) as Hall.
  { rewrite Hpresent. apply Forall_fmap, Forall_forall. intros r Hr. by apply Htext. }
  assert (entries.*1 = distinct present) as Hkeys.
  { unfold entries. rewrite <-list_fmap_compose. apply list_fmap_id. }
  assert (entries.*2 = (λ k, count_of k present) <$> distinct present) as Hvals.
  { unfold entries. rewrite <-list_fmap_compose. apply list_fmap_ext.
    intros _ k Hk%list_elem_of_lookup_2. simpl.
    apply distinct_subset in Hk. rewrite Forall_forall in Hall.
    destruct (Hall k Hk) as [s ->]. unfold present. by rewrite count_of_present_cells. }
  split.
  + rewrite (order_counts_perm entries), Hkeys. by apply distinct_text_NoDup.
  + rewrite (order_counts_perm entries), Hvals, count_of_distinct_sum by done.
    by rewrite Hpresent, length_fmap.
Qed.
End CountFacts.

(** * The callbacks *)

(** ** Stripped text *)

Lemma lstrip_spaces s : lstrip s = [] ↔ Forall (λ c, isspace c = true) s.
Proof.
  induction s as [|c s IH]; simpl; [split; [constructor|done]|].
  destruct (isspace c) eqn:E.
  - rewrite IH. split; [by constructor|by intros [_ ?]%Forall_cons].
  - split; [done|]. intros [? _]%Forall_cons. congruence.
Qed.

Lemma lstrip_head s c : head (lstrip s) = Some c → isspace c = false.
Proof.
  induction s as [|a s IH]; simpl; [done|].
  destruct (isspace a) eqn:E; [done|]. simpl. by intros [= <-].
Qed.

Lemma lstrip_fixed s : (∀ c, head s = Some c → isspace c = false) → lstrip s = s.
Proof. destruct s as [|a s]; [done|]. intros H. simpl. by rewrite (H a). Qed.

Lemma lstrip_suffix s : lstrip s `suffix_of` s.
Proof.
  induction s as [|a s IH]; simpl; [done|].
  destruct (isspace a); [by apply suffix_cons_r|done].
Qed.

Lemma rstrip_prefix s : rstrip s `prefix_of` s.
Proof.
  unfold rstrip. destruct (lstrip_suffix (rev s)) as [k Hk]. exists (rev k).
  apply (f_equal (@rev ascii)) in Hk. by rewrite rev_involutive, rev_app_distr in Hk.
Qed.

Lemma last_rev_head {A} (l : list A) : last (rev l) = head l.
Proof. destruct l as [|a l]; [done|]. simpl. by rewrite last_snoc. Qed.

Lemma rstrip_last s c : last (rstrip s) = Some c → isspace c = false.
Proof. unfold rstrip. rewrite last_rev_head. apply lstrip_head. Qed.

Lemma rstrip_fixed s : (∀ c, last s = Some c → isspace c = false) → rstrip s = s.
Proof.
  unfold rstrip. intros H. rewrite lstrip_fixed; [apply rev_involutive|].
  intros c Hc. apply H. by rewrite <-(rev_involutive s), last_rev_head.
Qed.

Lemma strip_ends s c :
  head (strip s) = Some c ∨ last (strip s) = Some c → isspace c = false.
Proof.
  unfold strip. intros [H|H]; [|by eapply rstrip_last].
  apply (lstrip_head s). destruct (rstrip_prefix (lstrip s)) as [k Hk].
  rewrite Hk. by destruct (rstrip (lstrip s)).
Qed.

Lemma strip_strip s : strip (strip s) = strip s.
Proof.
  unfold strip at 1.
  rewrite lstrip_fixed, rstrip_fixed; [done|..]; intros c Hc; apply (strip_ends s); auto.
Qed.

Lemma strip_spaces s : strip s = [] ↔ Forall (λ c, isspace c = true) s.
Proof.
  unfold strip, rstrip. split.
  - intros H. apply lstrip_spaces.
    apply (f_equal (@rev ascii)) in H. rewrite rev_involutive in H. simpl in H.
    apply lstrip_spaces in H.
    destruct (lstrip s) as [|c l] eqn:E; [done|]. exfalso.
    assert (isspace c = false) as Hc by (apply (lstrip_head s); by rewrite E).
    rewrite Forall_forall in H. rewrite (H c) in Hc; [done|].
    apply list_elem_of_In, in_rev. rewrite rev_involutive. by left.
  - intros H. apply lstrip_spaces in H. by rewrite H.
Qed.

Lemma blank_spaces s : blank (Some s) = true ↔ Forall (λ c, isspace c = true) s.
Proof.
  rewrite <-strip_spaces. unfold blank, str_eqb. destruct s as [|c s]; [done|].
  case_bool_decide; split; done.
Qed.

(** ** The community chat box *)

(** The community box lets a message through when the callback was
    triggered and the text has a character that is not white space.
    The message is shown as typed, the box is cleared, the spinner is
    shown, and what is stored for the chat is the text without the
    white space around it: not empty, starting and ending with a
    character that is not white space, and unchanged by another
    [strip]. In every other case nothing is updated. *)
Theorem handle_chat_input_right_stored triggered n_clicks n_submit input_value msgs :
  match handle_chat_input_right triggered n_clicks n_submit input_value msgs with
  | Ok (shown, box, spinner, stored) =>
      triggered ≠ []
      ∧ (∃ value,
           input_value = Some value ∧ stored = strip value
           ∧ shown = default [] msgs ++ [Div (Single (Str value)) "user-message"])
      ∧ stored ≠ [] ∧ strip stored = stored
      ∧ (∀ c, head stored = Some c ∨ last stored = Some c → isspace c = false)
      ∧ box = [] ∧ spinner = SHOWN
  | Raise e =>
      e = PreventUpdate
      ∧ (triggered = [] ∨ input_value = None
         ∨ ∃ value, input_value = Some value ∧ Forall (λ c, isspace c = true) value)
  end.
Proof.
  unfold handle_chat_input_right.
  destruct triggered as [|t ts]; [split; [done|by left]|].
  destruct input_value as [value|]; [|split; [done|right; by left]].
  destruct (blank (Some value)) eqn:E.
  - split; [done|]. right. right. exists value. split; [done|by apply blank_spaces].
  - split_and!; try done.
    + by exists value.
    + intros Hs. apply strip_spaces, blank_spaces in Hs. congruence.
    + apply strip_strip.
    + apply strip_ends.
Qed.

(** ** Tabs and the shared input box *)

(** One chat panel is shown at a time, and the tab stored is the one
    shown: the community panel after a click on anything but the
    statistics tab, the statistics panel otherwise. A message typed in
    the shared box is routed to the panel of the stored tab and only
    there, and the spinner that is switched on is the one of the panel
    shown; the message reaches the community box as typed, with a
    click, and that box never drops what the shared box let through. *)
Theorem spinner_follows_tab triggered stats_clicks community_clicks old_tab
    sent n_clicks n_submit input_value :
  let '(stats_style, community_style, stats_class, community_class, tab) :=
    switch_tabs triggered stats_clicks community_clicks old_tab in
  ((stats_style, community_style, stats_class, community_class, tab)
   = (SHOWN, HIDDEN, "chat-tab active", "chat-tab", lit "stats")
   ∨ (stats_style, community_style, stats_class, community_class, tab)
     = (HIDDEN, SHOWN, "chat-tab", "chat-tab active", lit "community"))
  ∧ (tab = lit "community"
     ↔ ∃ prop_id rest, triggered = prop_id :: rest ∧ button_of prop_id ≠ lit "stats-tab")
  ∧ match handle_combined_chat_input sent n_clicks n_submit input_value tab with
    | Ok r =>
        left_loading r = stats_style ∧ right_loading r = community_style
        ∧ sent ≠ []
        ∧ ∃ value,
            input_value = Some value
            ∧ ¬ Forall (λ c, isspace c = true) value
            ∧ (tab = lit "stats" →
               left_input r = updated value ∧ right_input r = no_update
               ∧ right_submit r = no_update ∧ right_clicks r = no_update)
            ∧ (tab = lit "community" →
               left_input r = no_update ∧ right_input r = updated value
               ∧ right_submit r = updated 1%Z ∧ right_clicks r = updated 1%Z
               ∧ ∀ prop_id rest msgs,
                   handle_chat_input_right (prop_id :: rest) (Some 1%Z) (Some 1%Z)
                     (Some value) msgs
                   = Ok (default [] msgs ++ [Div (Single (Str value)) "user-message"],
                         [], SHOWN, strip value))
    | Raise e =>
        e = PreventUpdate
        ∧ (sent = [] ∨ input_value = None
           ∨ ∃ value, input_value = Some value ∧ Forall (λ c, isspace c = true) value)
    end.
Proof.
  assert (∀ tab,
    match handle_combined_chat_input sent n_clicks n_submit input_value tab with
    | Ok r =>
        sent ≠ []
        ∧ ∃ value,
            input_value = Some value
            ∧ ¬ Forall (λ c, isspace c = true) value
            ∧ (tab = lit "stats" →
               r = {| left_input := updated value; right_input := no_update;
                      right_submit := no_update; right_clicks := no_update;
                      left_loading := SHOWN; right_loading := HIDDEN |})
            ∧ (tab ≠ lit "stats" →
               r = {| left_input := no_update; right_input := updated value;
                      right_submit := updated 1%Z; right_clicks := updated 1%Z;
                      left_loading := HIDDEN; right_loading := SHOWN |})
            ∧ ∀ prop_id rest msgs,
                handle_chat_input_right (prop_id :: rest) (Some 1%Z) (Some 1%Z)
                  (Some value) msgs
                = Ok (default [] msgs ++ [Div (Single (Str value)) "user-message"],
                      [], SHOWN, strip value)
    | Raise e =>
        e = PreventUpdate
        ∧ (sent = [] ∨ input_value = None
           ∨ ∃ value, input_value = Some value ∧ Forall (λ c, isspace c = true) value)
    end) as Hroute.
  { intros tab. unfold handle_combined_chat_input, handle_chat_input_right.
    destruct sent as [|t ts]; [split; [done|by left]|].
    destruct input_value as [value|]; [|split; [done|right; by left]].
    destruct (blank (Some value)) eqn:E.
    - split; [done|]. right. right. exists value. split; [done|by apply blank_spaces].
    - unfold str_eqb. case_bool_decide as Ht.
      + split; [done|]. exists value. split_and!; try done.
        * intros Hs%blank_spaces. congruence.
        * intros p r msgs. by rewrite E.
      + split; [done|]. exists value. split_and!; try done.
        * intros Hs%blank_spaces. congruence.
        * intros p r msgs. by rewrite E. }
  unfold switch_tabs. destruct triggered as [|prop_id rest].
  - split; [by left|]. split.
    + split; [done|]. by intros (p & r & ? & _).
    + specialize (Hroute (lit "stats")).
      destruct (handle_combined_chat_input _ _ _ _ _) as [r|e]; [|done].
      destruct Hroute as (Hs & value & Hv & Hns & Hst & _ & Hright).
      rewrite (Hst eq_refl). split_and!; try done. exists value. by split_and!.
  - unfold str_eqb. case_bool_decide as Hb.
    + split; [by left|]. split.
      * split; [done|]. intros (p & r & [= <- <-] & Hne). done.
      * specialize (Hroute (lit "stats")).
        destruct (handle_combined_chat_input _ _ _ _ _) as [r|e]; [|done].
        destruct Hroute as (Hs & value & Hv & Hns & Hst & _ & Hright).
        rewrite (Hst eq_refl). split_and!; try done. exists value. by split_and!.
    + split; [by right|]. split.
      * split; [|done]. intros _. by exists prop_id, rest.
      * specialize (Hroute (lit "community")).
        destruct (handle_combined_chat_input _ _ _ _ _) as [r|e]; [|done].
        destruct Hroute as (Hs & value & Hv & Hns & _ & Hco & Hright).
        rewrite Hco by done. split_and!; try done. exists value. by split_and!.
Qed.

(** * The chat callbacks *)

(** ** The date sent to the API *)

Lemma lit_inj a b : lit a = lit b → a = b.
Proof.
  unfold lit. intros H. apply (f_equal string_of_list_ascii) in H.
  by rewrite !string_of_list_ascii_of_string in H.
Qed.

Lemma format_02d_month m :
  (1 ≤ m ≤ 12)%Z →
  ∃ d1 d2, format_02d m = [d1; d2]
           ∧ m = (10 * (Z.of_nat (nat_of_ascii d1) - 48)
                  + (Z.of_nat (nat_of_ascii d2) - 48))%Z.
Proof.
  intros Hm.
  assert (m ∈ [1; 2; 3; 4; 5; 6; 7; 8; 9; 10; 11; 12]%Z) as Hin.
  { rewrite !elem_of_cons. lia. }
  repeat (apply elem_of_cons in Hin as [->|Hin]; [by eexists _, _|]).
  by apply elem_of_nil in Hin.
Qed.

Lemma year_month_text_nonempty ym : year_month_text ym ≠ [].
Proof.
  unfold year_month_text. intros H. apply app_eq_nil in H as [_ H]. discriminate H.
Qed.

Lemma join_nil (sep : str) ids : sep ≠ [] → join sep ids = [] → ids = [] ∨ ids = [[]].
Proof.
  intros Hsep. destruct ids as [|a [|b r]]; simpl.
  - by left.
  - intros ->. by right.
  - intros H. apply app_eq_nil in H as [_ H]. by apply app_eq_nil in H as [H _].
Qed.

Section DateFacts.
Variable strptime_month_year : str → option (Z * Z).

Let display := update_date_display strptime_month_year.

(** The text of the selected month. A slider value that does not
  parse shows as December 2024. A value that parses to a year and a
  month from 1 to 12 shows as the year, a dash and two digits that
  read as the month, and two values show the same text only when
  they parse to the same year and month. *)
Theorem update_date_display_format value :
(strptime_month_year value = None → display value = lit "2024-12")
∧ ∀ y m, strptime_month_year value = Some (y, m) → (1 ≤ m ≤ 12)%Z →
    (∃ d1 d2,
       display value = lit (pretty y) ++ ["-"%char; d1; d2]
       ∧ m = (10 * (Z.of_nat (nat_of_ascii d1) - 48)
              + (Z.of_nat (nat_of_ascii d2) - 48))%Z)
    ∧ ∀ value' y' m',
        strptime_month_year value' = Some (y', m') → (1 ≤ m' ≤ 12)%Z →
        display value = display value' ↔ y = y' ∧ m = m'.
Proof.
unfold display, update_date_display, selected_date, date_string_to_year_month.
split; [by intros ->|]. intros y m -> Hm.
destruct (format_02d_month m Hm) as (d1 & d2 & Hf & Hd).
unfold year_month_text. cbn [fst snd]. rewrite Hf. split; [by exists d1, d2|].
intros value' y' m' -> Hm'.
destruct (format_02d_month m' Hm') as (e1 & e2 & Hf' & Hd').
cbn [fst snd]. rewrite Hf'. split.
- intros [Hy Hrest]%app_inj_2; [|done].
  apply lit_inj, (inj pretty) in Hy. injection Hrest as -> ->. split; [done|lia].
- intros [-> ->]. by rewrite Hf in Hf'; injection Hf' as -> ->.
Qed.
End DateFacts.

(** ** The requests of the chat callbacks *)

Section ChatFacts.
Variable read_json : str → result DataFrame.
Variable series_sum : list value → result value.
Variable sort_keys : list value → list value.
Variable concat_error : list DataFrame → option exn.
Variable to_csv : DataFrame → result str.
Variable http_get : world → str → response.
Variable API_BASE_URL : str.
Variable strptime_month_year : str → option (Z * Z).
Variable http_post : world → str → str → result (option str).

Let stream := stream_to_dataframe read_json http_get.
Let select :=
select_311 read_json series_sum sort_keys concat_error to_csv http_get API_BASE_URL.
Let chat := get_chat_response API_BASE_URL http_post.
Let chat_at := chat_url API_BASE_URL.
Let date_of := selected_date strptime_month_year.
Let ids_url (batch_ids : list str) : str :=
url_summary API_BASE_URL (lit "event_ids") (join (lit ",") batch_ids).
Let date_url (event_date : str) : str := url_summary API_BASE_URL (lit "date") event_date.
Let respond :=
handle_chat_response read_json series_sum sort_keys concat_error to_csv http_get
  API_BASE_URL strptime_month_year http_post.
Let initial :=
handle_initial_prompts read_json series_sum sort_keys concat_error to_csv http_get
  API_BASE_URL strptime_month_year http_post.
Let tell := handle_tell_me_prompt API_BASE_URL http_post.

Lemma write_and_return_world df w :
clock (write_and_return to_csv df w).2 = clock w
∧ requested (write_and_return to_csv df w).2 = requested w.
Proof. unfold write_and_return. by destruct (to_csv df). Qed.

(** The look-up of the ids of a selected area: one request per batch,
  whatever it returns. *)
Lemma select_ids_world ids w :
ids ≠ [] → ids ≠ [[]] → Forall (λ i : str, ","%char ∉ i) ids →
requested (select (join (lit ",") ids) [] w).2
= rev (ids_url <$> batches BATCH_SIZE ids) ++ requested w
∧ clock (select (join (lit ",") ids) [] w).2 = clock w.
Proof.
intros Hne Hone Hcomma.
assert (join (lit ",") ids ≠ []) as Hj.
{ intros [?|?]%join_nil; done. }
pose proof (select_batches read_json series_sum sort_keys concat_error to_csv http_get
              API_BASE_URL (join (lit ",") ids) [] w Hj) as Hsel.
rewrite split_join_comma in Hsel by done. cbv zeta in Hsel.
assert (get_select_311_data read_json series_sum sort_keys concat_error to_csv http_get
          API_BASE_URL (join (lit ",") ids) [] w
        = select (join (lit ",") ids) [] w) as Hfold by done.
rewrite Hfold in Hsel. rewrite Hsel.
destruct (oks _) as [|d l]; [done|].
destruct (_ ≫= _) as [df|e]; [|done].
match goal with
| |- context [write_and_return to_csv ?d ?w0] =>
    destruct (write_and_return_world d w0) as [-> ->]
end.
done.

Qed.

(** The look-up of the month: one request; its error, or that of
  [to_csv], is raised. *)
Lemma select_date_call date w :
date ≠ [] →
requested (select [] date w).2 = date_url date :: requested w
∧ clock (select [] date w).2 = clock w
∧ (select [] date w).1 = (df ← (stream (date_url date) w).1; to_csv df).
Proof.
intros Hdate. unfold select, select_311, get_select_311_data.
destruct date as [|c date]; [done|]. fold stream. fold (date_url (c :: date)).
pose proof (stream_logs read_json http_get (date_url (c :: date)) w) as Hw.
fold stream in Hw.
destruct (stream (date_url (c :: date)) w) as [[df|e] w']; simpl in Hw; subst w';
  cbn [fst snd mbind result_bind]; [|done].
destruct (write_and_return_world df (log_request (date_url (c :: date)) w)) as [-> ->].
split_and!; try done. unfold write_and_return. by destruct (to_csv df).
Qed.

Lemma area_batches (ids : list str) n :
length ids ≤ n → length (batches BATCH_SIZE ids) ≤ (n + 49) / 50.
Proof.
intros Hn. rewrite batches_length. unfold BATCH_SIZE.
apply Nat.Div0.div_le_mono. lia.
Qed.

Lemma chat_world prompt structured w :
requested (chat prompt structured w).2 = chat_at structured :: requested w
∧ clock (chat prompt structured w).2 = clock w.
Proof. done. Qed.

(** The statistics chat. The typed message takes no part in it. With
  no id selected one chat request is made. With ids, every id is
  looked up, fifty to a request; when a step after those requests
  raises, the callback raises its error and asks nothing more;
  otherwise the month is looked up, and when that request fails, or
  its table cannot be rendered, the callback raises that error and
  the chat is not asked; otherwise the chat is asked once. A reply,
  or the error of the chat API, is appended to the messages as one
  bot message, the spinner is hidden and the refresh counter moves
  on. *)
Theorem handle_chat_response_requests stored_input slider_value current_messages
  selected refresh_clicks w :
let ids := default [] (selected_ids selected) in
let bs := batches BATCH_SIZE ids in
let date := date_of slider_value in
let by_id := select (join (lit ",") ids) [] w in
let by_date := select [] date by_id.2 in
let out := respond stored_input slider_value current_messages selected refresh_clicks w in
let answered (r : result (list component * style * Z)) :=
  ∃ reply, r = Ok (default [] current_messages ++ [bot_message [Markdown reply true]],
                   HIDDEN, next_clicks refresh_clicks) in
ids ≠ [[]] → Forall (λ i : str, ","%char ∉ i) ids →
out = respond None slider_value current_messages selected refresh_clicks w
∧ length bs = (length ids + 49) / 50
∧ clock out.2 = clock w
∧ (ids = [] → requested out.2 = chat_at true :: requested w ∧ answered out.1)
∧ (ids ≠ [] →
   requested by_id.2 = rev (ids_url <$> bs) ++ requested w
   ∧ requested by_date.2 = date_url date :: rev (ids_url <$> bs) ++ requested w
   ∧ by_date.1 = (df ← (stream (date_url date) by_id.2).1; to_csv df)
   ∧ match by_id.1, by_date.1 with
     | Raise e, _ => out = (Raise e, by_id.2)
     | Ok _, Raise e => out = (Raise e, by_date.2)
     | Ok _, Ok _ =>
         requested out.2
         = chat_at true :: date_url date :: rev (ids_url <$> bs) ++ requested w
         ∧ answered out.1
     end).
Proof.
intros ids bs date by_id by_date out answered Hone Hcomma. split; [done|]. split.
{ unfold bs. rewrite batches_length. unfold BATCH_SIZE. f_equal. lia. }
subst out. unfold respond, handle_chat_response. fold ids date_of. fold date.
destruct ids as [|i l] eqn:Eids.
- cbn [fst snd]. split; [done|]. split; [|done]. intros _. split; [done|]. by eexists.
- assert (i :: l ≠ []) as Hne by done.
  destruct (select_ids_world (i :: l) w Hne Hone Hcomma) as [Hreq Hclk].
  destruct (select_date_call date by_id.2 (year_month_text_nonempty _))
    as (Hreq2 & Hclk2 & Hres2).
  fold by_id in Hreq, Hclk. fold by_date in Hreq2, Hclk2, Hres2.
  fold select. fold by_id.
  assert (by_id = (by_id.1, by_id.2)) as Ebi by (by destruct by_id).
  rewrite Ebi. clearbody by_id.
  destruct (by_id.1) as [csv|e] eqn:E1; cbn [fst snd].
  + fold by_date. assert (by_date = (by_date.1, by_date.2)) as Ebd by (by destruct by_date).
    rewrite Ebd. clearbody by_date.
    destruct (by_date.1) as [date_csv|e] eqn:E2;
      unfold get_chat_response; cbn [fst snd log_request clock requested].
    * split; [congruence|]. split; [done|]. intros _.
      rewrite Hreq2, Hreq. split_and!; try done. by eexists.
    * split; [congruence|]. split; [done|]. intros _.
      rewrite Hreq2, Hreq. by split_and!.
  + split; [done|]. split; [done|]. intros _.
    rewrite Hreq2, Hreq. by split_and!.
Qed.

(** The first prompts. Without a click on the button nothing is
  updated. Otherwise, with no id selected two chat requests are
  made; with ids, only the first 150 are looked up, in at most three
  requests; when a step after those requests raises, the callback
  raises its error and asks nothing more; otherwise the month is
  looked up, and when that request fails, or its table cannot be
  rendered, the callback raises that error and no chat is asked;
  otherwise the two chats are asked, in that order. The two panels
  are each replaced by one bot message. *)
Theorem handle_initial_prompts_requests n_clicks selected slider_value refresh_clicks w :
let ids := default [] (selected_ids selected) in
let limited_ids := take LIMIT ids in
let bs := batches BATCH_SIZE limited_ids in
let date := date_of slider_value in
let by_id := select (join (lit ",") limited_ids) [] w in
let by_date := select [] date by_id.2 in
let out := initial n_clicks selected slider_value refresh_clicks w in
let answered (r : result (list component * list component * Z)) :=
  ∃ stats_reply community_reply,
    r = Ok ([bot_message
               [Strong (lit "A by-the-numbers overview of your neighborhood:");
                Markdown stats_reply true]],
            [bot_message
               [Strong (lit "From recent community meetings:");
                Markdown community_reply true]],
            next_clicks refresh_clicks) in
ids ≠ [[]] → Forall (λ i : str, ","%char ∉ i) ids →
(n_clicks = None ∨ n_clicks = Some 0%Z → out = (Raise PreventUpdate, w))
∧ (∀ n, n_clicks = Some n → n ≠ 0%Z →
   length bs ≤ 3 ∧ concat bs = limited_ids
   ∧ clock out.2 = clock w
   ∧ (ids = [] →
      requested out.2 = chat_at false :: chat_at true :: requested w ∧ answered out.1)
   ∧ (ids ≠ [] →
      requested by_id.2 = rev (ids_url <$> bs) ++ requested w
      ∧ requested by_date.2 = date_url date :: rev (ids_url <$> bs) ++ requested w
      ∧ by_date.1 = (df ← (stream (date_url date) by_id.2).1; to_csv df)
      ∧ match by_id.1, by_date.1 with
        | Raise e, _ => out = (Raise e, by_id.2)
        | Ok _, Raise e => out = (Raise e, by_date.2)
        | Ok _, Ok _ =>
            requested out.2
            = chat_at false :: chat_at true :: date_url date
                :: rev (ids_url <$> bs) ++ requested w
            ∧ answered out.1
        end)).
Proof.
intros ids limited_ids bs date by_id by_date out answered Hone Hcomma. split.
{ by intros [->| ->]. }
intros n -> Hn. split.
{ apply (area_batches limited_ids 150). unfold limited_ids, LIMIT.
  rewrite length_take. lia. }
split; [apply batches_concat; unfold BATCH_SIZE; lia|].
assert (out = initial (Some 1%Z) selected slider_value refresh_clicks w) as ->.
{ subst out. unfold initial, handle_initial_prompts. by destruct n. }
unfold initial, handle_initial_prompts. fold ids date_of. fold date.
destruct ids as [|i l] eqn:Eids.
- cbn [fst snd]. split; [done|]. split; [|done]. intros _. split; [done|].
  by eexists _, _.
- fold limited_ids.
  assert (limited_ids ≠ []) as Hne by done.
  assert (limited_ids ≠ [[]]) as Hone'.
  { unfold limited_ids, LIMIT. simpl. intros [= -> Hl]. apply Hone.
    by destruct l. }
  assert (Forall (λ i : str, ","%char ∉ i) limited_ids) as Hcomma'.
  { by apply Forall_take. }
  destruct (select_ids_world limited_ids w Hne Hone' Hcomma') as [Hreq Hclk].
  destruct (select_date_call date by_id.2 (year_month_text_nonempty _))
    as (Hreq2 & Hclk2 & Hres2).
  fold by_id in Hreq, Hclk. fold by_date in Hreq2, Hclk2, Hres2.
  fold select. fold by_id.
  assert (by_id = (by_id.1, by_id.2)) as Ebi by (by destruct by_id).
  rewrite Ebi. clearbody by_id.
  destruct (by_id.1) as [csv|e] eqn:E1; cbn [fst snd].
  + fold by_date. assert (by_date = (by_date.1, by_date.2)) as Ebd by (by destruct by_date).
    rewrite Ebd. clearbody by_date.
    destruct (by_date.1) as [date_csv|e] eqn:E2;
      unfold get_chat_response; cbn [fst snd log_request clock requested].
    * split; [congruence|]. split; [done|]. intros _.
      rewrite Hreq2, Hreq. split_and!; try done. by eexists _, _.
    * split; [congruence|]. split; [done|]. intros _.
      rewrite Hreq2, Hreq. by split_and!.
  + split; [done|]. split; [done|]. intros _.
    rewrite Hreq2, Hreq. by split_and!.
Qed.

(** ** The overlay buttons *)

(** A click on an overlay button fades the overlay and arms the timer
  that hides it, and never focuses the map and the chat together.
  Only the tell-me button sets the prompt: then the chat is asked
  once, with that prompt, its reply is appended to the messages and
  the prompt becomes the placeholder of the emptied input box. For
  every other button no prompt is set, the chat is not asked and
  the input box is left alone. *)
Theorem tell_me_only_from_its_button prop_id others show_clicks tell_clicks listen_clicks
  current_messages refresh_clicks w :
let o := handle_overlay_buttons (prop_id :: others) show_clicks tell_clicks
           listen_clicks in
overlay_style o = updated FADE ∧ max_intervals o = updated 1%Z
∧ complete_overlay_transition 1 = (updated HIDDEN, updated 0%Z)
∧ ¬ (map_class o = updated "map-controls focused"
     ∧ chat_class o = updated "chat-main-container focused")
∧ ∃ prompt,
    tell_me_prompt o = updated prompt
    ∧ (button_of prop_id = lit "tell-me-btn" →
       prompt = Some TELL_ME
       ∧ update_chat_input_from_trigger prompt = (updated [], updated TELL_ME)
       ∧ tell prompt current_messages refresh_clicks w
         = (Ok (default [] current_messages
                  ++ [bot_message
                        [Strong (lit "This is what your neighbors are concerned with:");
                         Markdown (chat TELL_ME false w).1 true]],
                [], no_update, next_clicks refresh_clicks),
            log_request (chat_at false) w))
    ∧ (button_of prop_id ≠ lit "tell-me-btn" →
       prompt = None
       ∧ update_chat_input_from_trigger prompt = (no_update, no_update)
       ∧ tell prompt current_messages refresh_clicks w = (Raise PreventUpdate, w)).
Proof.
intros o. subst o. unfold handle_overlay_buttons, str_eqb.
repeat case_bool_decide; cbn [overlay_style max_intervals map_class chat_class
                                tell_me_prompt];
  (split; [done|]); (split; [done|]); (split; [done|]);
  (split; [by intros [[=] [=]]|]); eexists; (split; [reflexivity|]);
  split; intros Hb; try done;
  match goal with
  | H : button_of prop_id = _ |- _ => rewrite H in Hb; by vm_compute in Hb
  end.
Qed.
End ChatFacts.

(** * Instances *)

Ltac by_evaluation := apply (bool_decide_unpack _); vm_compute; exact I.

Lemma nonempty_length {A} (l : list A) n : length l = S n → l ≠ [].
Proof. by destruct l. Qed.




(** The month's query on the demo records: with a cell selected, with
    no selection, and with a cell selected in a month that has no shot
    row, where it raises. *)
Lemma update_shot_count_spec_witness :
  demo_update_shot_count
    {| selected_hexbins := Some [lit "8a2a1072b59ffff"]; selected_ids := None |}
    (lit "December 2024") demo_311 = Ok 2
  ∧ demo_update_shot_count {| selected_hexbins := None; selected_ids := None |}
      (lit "December 2024") demo_311 = Ok 3
  ∧ demo_update_shot_count
      {| selected_hexbins := Some [lit "8a2a1072b59ffff"]; selected_ids := None |}
      (lit "January 2025") demo_december
    = Raise (ValueError_columns
               "Cannot set a DataFrame with multiple columns to the single column cell").
Proof.
  split_and!.
  - destruct (update_shot_count_spec demo_latlng_to_cell demo_latlng_error demo_strptime
                {| selected_hexbins := Some [lit "8a2a1072b59ffff"]; selected_ids := None |}
                (lit "December 2024") demo_311)
      as (_ & Hrows & _); [reflexivity|].
    unfold demo_update_shot_count. rewrite Hrows.
    + vm_compute. reflexivity.
    + discriminate.
    + apply (nonempty_length _ 2). vm_compute. reflexivity.
    + reflexivity.
    + intros r Hr. apply list_elem_of_In in Hr. vm_compute in Hr.
      destruct Hr as [<-|[<-|[<-|[]]]]; vm_compute; reflexivity.
  - destruct (update_shot_count_spec demo_latlng_to_cell demo_latlng_error demo_strptime
                {| selected_hexbins := None; selected_ids := None |}
                (lit "December 2024") demo_311)
      as (Hall & _); [reflexivity|].
    unfold demo_update_shot_count. rewrite Hall; vm_compute; reflexivity.
  - destruct (update_shot_count_spec demo_latlng_to_cell demo_latlng_error demo_strptime
                {| selected_hexbins := Some [lit "8a2a1072b59ffff"]; selected_ids := None |}
                (lit "January 2025") demo_december)
      as (_ & _ & Hnone & _); [reflexivity|].
    unfold demo_update_shot_count. rewrite Hnone.
    + vm_compute. reflexivity.
    + discriminate.
    + vm_compute. reflexivity.
    + reflexivity.
Defined.



Lemma process_dataframe_bounding_box_witness :
  ∃ df, process_dataframe demo_to_numeric demo_to_datetime demo_raw true false = Ok df
        ∧ length (rows df) = 1.
Proof.
  destruct (process_dataframe_bounding_box demo_to_numeric demo_to_datetime demo_raw)
    as (Heq & _).
  - vm_compute. reflexivity.
  - eexists. split; [exact Heq|]. vm_compute. reflexivity.
Defined.

(** Three batches for the 120 demo ids; the first is refused, the other
    two come back and are summed. *)
Lemma get_select_311_data_batches_witness :
  length <$> batches BATCH_SIZE (split ","%char demo_event_ids) = [50; 50; 20]
  ∧ length (requested (demo_get_select_311_data demo_event_ids [] demo_world).2) = 3
  ∧ (demo_get_select_311_data demo_event_ids [] demo_world).1
    = Ok (lit "reported_issue,total" ++ [NL] ++ lit "Trash,4").
Proof.
  destruct (get_select_311_data_batches demo_read_json demo_series_sum demo_sort_keys
              demo_concat_error demo_to_csv demo_read_csv demo_http_get
              (lit "http://127.0.0.1:8888")
              (λ l, Permutation_refl l) demo_event_ids [] demo_world)
    as ((_ & _ & Hsizes) & Hreq & Hres & _).
  - vm_compute. discriminate.
  - split_and!.
    + apply Hsizes. vm_compute. reflexivity.
    + unfold demo_get_select_311_data. rewrite Hreq. vm_compute. reflexivity.
    + unfold demo_get_select_311_data. rewrite Hres. vm_compute. reflexivity.
Defined.

(** A first load on an empty cache and a second one ten minutes
    later, for the 311 records and for the shots with the matched
    homicides. *)
Lemma cached_load_fetches_once_witness :
  let first := demo_get_311_data false demo_world in
  let later := {| clock := 1600; files := files first.2; requested := requested first.2 |} in
  let first_shots := demo_get_shots_fired_data false demo_world in
  let later_shots :=
    {| clock := 1600; files := files first_shots.2;
       requested := requested first_shots.2 |} in
  (length (requested first.2) = 1
   ∧ (demo_get_311_data false later).1 = first.1
   ∧ requested (demo_get_311_data false later).2 = requested first.2)
  ∧ (length (requested first_shots.2) = 2
     ∧ (demo_get_shots_fired_data false later_shots).1 = first_shots.1
     ∧ requested (demo_get_shots_fired_data false later_shots).2
       = requested first_shots.2).
Proof.
  intros first later first_shots later_shots.
  destruct (cached_load_fetches_once demo_read_json demo_to_numeric demo_to_datetime
              demo_http_get "./cache" (lit "http://127.0.0.1:8888") demo_world)
    as [H311 Hshots].
  split.
  - assert (∃ df, first = (Ok df, first.2)) as [df Hfirst].
    { eexists. vm_compute. reflexivity. }
    destruct (H311 df first.2 Hfirst) as (mtime & Hfile & Hcold & _ & Hsecond).
    assert (mtime = 1000%Q) as ->.
    { assert (fst <$> files first.2 !! path_311 "./cache" = Some 1000%Q) as Hm
        by (vm_compute; reflexivity).
      rewrite Hfile in Hm. by injection Hm as ->. }
    specialize (Hsecond later eq_refl).
    split_and!.
    + rewrite Hcold; vm_compute; reflexivity.
    + unfold demo_get_311_data. rewrite Hsecond; [by rewrite Hfirst|].
      vm_compute. discriminate.
    + unfold demo_get_311_data. rewrite Hsecond; [reflexivity|].
      vm_compute. discriminate.
  - assert (∃ df dm, first_shots = (Ok (df, dm), first_shots.2)) as (df & dm & Hfirst).
    { eexists _, _. vm_compute. reflexivity. }
    destruct (Hshots df dm first_shots.2 Hfirst)
      as (m1 & m2 & Hf1 & Hf2 & Hcold & _ & Hsecond).
    assert (m1 = 1000%Q) as ->.
    { assert (fst <$> files first_shots.2 !! path_shots "./cache" = Some 1000%Q) as Hm
        by (vm_compute; reflexivity).
      rewrite Hf1 in Hm. by injection Hm as ->. }
    assert (m2 = 1000%Q) as ->.
    { assert (fst <$> files first_shots.2 !! path_matched "./cache" = Some 1000%Q) as Hm
        by (vm_compute; reflexivity).
      rewrite Hf2 in Hm. by injection Hm as ->. }
    specialize (Hsecond later_shots eq_refl).
    split_and!.
    + rewrite Hcold; vm_compute; reflexivity.
    + unfold demo_get_shots_fired_data. rewrite Hsecond; [by rewrite Hfirst| |];
        vm_compute; discriminate.
    + unfold demo_get_shots_fired_data. rewrite Hsecond; [reflexivity| |];
        vm_compute; discriminate.
Defined.


(** The stream of 1, 2, 3 cut off after the 3: the rows 1 and 2 come
    back, by repair; the whole stream gives three rows; a stream cut
    off inside its only element is refused. *)
Lemma truncated_stream_loses_last_row :
  assemble [demo_cut] = lit "[1,2,"
  ∧ decode_stream demo_read_json [demo_cut] = Ok (int_frame [1; 2]%Z)
  ∧ decode_stream demo_read_json [demo_whole] = Ok (int_frame [1; 2; 3]%Z)
  ∧ decode_stream demo_read_json [OPEN ++ lit "1" ++ [NL]]
    = Raise (ValueError "Expected object or value").
Proof. vm_compute. repeat split. Qed.

Lemma decode_truncated_stream_witness :
  assemble [take 4 demo_cut; drop 4 demo_cut] = lit "[1,2,"
  ∧ decode_stream demo_read_json [take 4 demo_cut; drop 4 demo_cut]
    = Ok (int_frame [1; 2]%Z).
Proof.
  destruct (decode_truncated_stream demo_read_json [lit "1"; lit "2"] (lit "3") [NL]
              [take 4 demo_cut; drop 4 demo_cut])
    as (Hcut & _ & Hdec & _).
  - discriminate.
  - unfold clean. by_evaluation.
  - unfold clean. by_evaluation.
  - split; discriminate.
  - by right.
  - reflexivity.
  - split; [exact Hcut|]. rewrite Hdec. vm_compute. reflexivity.
Defined.

(** No body at all: the reader's error comes back, from the decoder
    and from the request that wraps it. An empty array written without
    line breaks fares the same; the layout's empty array is read. *)
Lemma empty_body_reraises_witness :
  decode_stream demo_read_json [] = Raise (ValueError "Expected object or value")
  ∧ stream_to_dataframe demo_read_json demo_http_get_blank demo_url demo_world
    = (Raise (ValueError "Expected object or value"), log_request demo_url demo_world)
  ∧ decode_stream demo_read_json [lit "[]"] = Raise (ValueError "Expected object or value")
  ∧ decode_stream demo_read_json [OPEN ++ CLOSE] = Ok empty_frame.
Proof.
  destruct (empty_body_reraises demo_read_json [] (ValueError "Expected object or value"))
    as (_ & _ & Hraise); [reflexivity..|].
  split; [exact Hraise|]. split_and!; vm_compute; reflexivity.
Defined.

(** * Instances of the further properties *)

(** The record endpoint, whose body comes in two chunks. *)
Lemma stream_to_dataframe_wellformed_witness :
  stream_to_dataframe demo_read_json demo_http_get demo_url demo_world
  = (Ok demo_record_frame, log_request demo_url demo_world).
Proof.
  destruct (stream_to_dataframe_wellformed demo_read_json demo_http_get demo_url demo_world
              [demo_record_json])
    as (_ & Hok & _).
  - reflexivity.
  - repeat constructor. unfold clean. by_evaluation.
  - intros l [= <-]. split; [split|]; vm_compute; discriminate.
  - vm_compute. reflexivity.
  - apply Hok. vm_compute. reflexivity.
Defined.

(** The date phase on the four demo records. *)
Lemma process_dataframe_month_column_witness :
  ∃ out,
    process_dataframe demo_to_numeric demo_to_datetime demo_311 false true = Ok out
    ∧ length (rows out) = 4.
Proof.
  destruct (process_dataframe_month_column demo_to_numeric demo_to_datetime demo_311)
    as (out & Hout & Hlen & _).
  - reflexivity.
  - exists out. split; [exact Hout|exact Hlen].
Defined.

(** Normalising the four demo records twice. *)
Lemma process_dataframe_idempotent_witness :
  ∃ out,
    process_dataframe demo_to_numeric demo_to_datetime demo_311 true true = Ok out
    ∧ process_dataframe demo_to_numeric demo_to_datetime out true true = Ok out.
Proof.
  assert (∃ out, process_dataframe demo_to_numeric demo_to_datetime demo_311 true true
                 = Ok out) as [out E].
  { eexists. vm_compute. reflexivity. }
  exists out. split; [exact E|].
  apply (process_dataframe_idempotent demo_to_numeric demo_to_datetime demo_311 out).
  - reflexivity.
  - reflexivity.
  - reflexivity.
  - exact E.
Defined.

(** A forced load of the record endpoint. *)
Lemma get_311_data_rows_valid_witness :
  ∃ df w1,
    demo_get_311_data true demo_world = (Ok df, w1)
    ∧ has_columns ["latitude"; "longitude"; "date"; "month"; "category"] df = true
    ∧ length (rows df) ≤ 1.
Proof.
  assert (∃ df w1, demo_get_311_data true demo_world = (Ok df, w1)) as (df & w1 & E).
  { eexists _, _. vm_compute. reflexivity. }
  destruct (get_311_data_rows_valid demo_read_json demo_to_numeric demo_to_datetime
              demo_http_get "./cache" (lit "http://127.0.0.1:8888")
              true demo_world demo_record_frame df w1)
    as (_ & Hcols & _ & _ & Hlen & _).
  - reflexivity.
  - vm_compute. reflexivity.
  - reflexivity.
  - exact E.
  - exists df, w1. split; [exact E|]. split; [exact Hcols|exact Hlen].
Defined.

(** Loads from an API that answers with the array of no record: the
    311 records, and the shots on an empty cache, not forced. *)
Lemma get_311_data_missing_column_witness :
  (∃ e w1,
     get_311_data demo_read_json demo_to_numeric demo_to_datetime demo_http_get_empty
       "./cache" (lit "http://127.0.0.1:8888") false demo_world = (Raise e, w1)
     ∧ exn_class e = "KeyError" ∧ files w1 = ∅ ∧ length (requested w1) = 1)
  ∧ (∃ e w1,
       get_shots_fired_data demo_read_json demo_to_numeric demo_to_datetime
         demo_http_get_empty "./cache" (lit "http://127.0.0.1:8888") false demo_world
       = (Raise e, w1)
       ∧ exn_class e = "KeyError" ∧ files w1 = ∅ ∧ length (requested w1) = 1).
Proof.
  destruct (get_311_data_missing_column demo_read_json demo_to_numeric demo_to_datetime
              demo_http_get_empty "./cache" (lit "http://127.0.0.1:8888")
              false demo_world)
    as (_ & Hempty & Hshots).
  - reflexivity.
  - split.
    + destruct Hempty as (e & He & Hclass); [reflexivity|reflexivity|reflexivity|].
      eexists e, _. split; [exact He|]. split; [exact Hclass|]. split; reflexivity.
    + destruct (Hshots false empty_frame) as (e & He & Hclass);
        [reflexivity|vm_compute; reflexivity|reflexivity|].
      eexists e, _. split; [exact He|]. split; [exact Hclass|]. split; reflexivity.
Defined.

(** The slider over the four demo records ends at January 2025. *)
Lemma slider_max_covers_witness :
  ∃ v, slider_max demo_311 = Ok (Some v)
       ∧ ∃ r t, r ∈ rows demo_311 ∧ r !!! "date" = VTime t
                ∧ v = ((ts_year t - 2018) * 12 + (ts_month t - 1))%Z.
Proof.
  destruct (slider_max_covers demo_311) as (m & Hm & _ & Hsome).
  - reflexivity.
  - intros r t Hr Ht. simpl in Hr. rewrite !elem_of_cons, elem_of_nil in Hr.
    destruct Hr as [->|[->|[->|[->|[]]]]]; vm_compute in Ht; injection Ht as <-;
      simpl; lia.
  - destruct m as [v|].
    + exists v. split; [exact Hm|]. exact (proj1 (Hsome v eq_refl)).
    + vm_compute in Hm. discriminate Hm.
Defined.




(** The categories of the two selected records of December 2024. *)
Lemma update_category_counts_total_witness :
  ∃ counts,
    demo_update_category_counts demo_selection (lit "December 2024") demo_311 = Ok counts
    ∧ sum_list counts.*2 = 2.
Proof.
  destruct (update_category_counts_total demo_str demo_strptime demo_order_counts
              (λ l, reflexivity l) demo_selection (lit "December 2024") demo_311)
    as (counts & Hrun & _ & _ & Htotal).
  - reflexivity.
  - exists counts. split; [exact Hrun|].
    destruct Htotal as [_ Hsum].
    + intros r Hr. apply list_elem_of_In in Hr. vm_compute in Hr.
      destruct Hr as [<-|[<-|[]]]; eexists; vm_compute; reflexivity.
    + rewrite Hsum. vm_compute. reflexivity.
Defined.

(** The statistics chat for a selection of two records: one request
    for the ids, one for the month, one for the chat. *)
Lemma handle_chat_response_requests_witness :
  let out := demo_handle_chat_response None (lit "December 2024") None demo_selection
               None demo_world in
  clock out.2 = clock demo_world ∧ length (requested out.2) = 3
  ∧ ∃ messages, out.1 = Ok (messages, HIDDEN, 0%Z).
Proof.
  intros out.
  destruct (handle_chat_response_requests demo_read_json demo_series_sum demo_sort_keys
              demo_concat_error demo_to_csv demo_http_get (lit "http://127.0.0.1:8888")
              demo_strptime demo_http_post None (lit "December 2024") None demo_selection
              None demo_world)
    as (_ & _ & Hclock & _ & Hids).
  - discriminate.
  - repeat constructor; by_evaluation.
  - split; [exact Hclock|].
    destruct Hids as (_ & _ & _ & Hout); [discriminate|].
    fold demo_handle_chat_response in Hout. fold out in Hout.
    match type of Hout with
    | match ?a with _ => _ end =>
        assert (∃ csv, a = Ok csv) as [csv Ea] by (eexists; vm_compute; reflexivity);
        rewrite Ea in Hout
    end.
    match type of Hout with
    | match ?b with _ => _ end =>
        assert (∃ csv, b = Ok csv) as [date_csv Eb] by (eexists; vm_compute; reflexivity);
        rewrite Eb in Hout
    end.
    destruct Hout as [Hreq [reply Hmsg]]. split.
    + rewrite Hreq. vm_compute. reflexivity.
    + eexists. exact Hmsg.
Defined.

(** The first prompts for a selection of 160 records: three batches,
    the month, and the two chats. *)
Lemma handle_initial_prompts_requests_witness :
  let out := demo_handle_initial_prompts (Some 1%Z) demo_wide_selection
               (lit "December 2024") None demo_world in
  length (requested out.2) = 6
  ∧ ∃ stats_messages community_messages,
      out.1 = Ok (stats_messages, community_messages, 0%Z).
Proof.
  intros out.
  destruct (handle_initial_prompts_requests demo_read_json demo_series_sum demo_sort_keys
              demo_concat_error demo_to_csv demo_http_get (lit "http://127.0.0.1:8888")
              demo_strptime demo_http_post (Some 1%Z) demo_wide_selection
              (lit "December 2024") None demo_world)
    as (_ & Hclicked).
  - vm_compute. discriminate.
  - apply (bool_decide_unpack _). vm_compute. exact I.
  - destruct (Hclicked 1%Z eq_refl) as (_ & _ & _ & _ & Hids); [discriminate|].
    destruct Hids as (_ & _ & _ & Hout); [vm_compute; discriminate|].
    fold demo_handle_initial_prompts in Hout. fold out in Hout.
    match type of Hout with
    | match ?a with _ => _ end =>
        assert (∃ csv, a = Ok csv) as [csv Ea] by (eexists; vm_compute; reflexivity);
        rewrite Ea in Hout
    end.
    match type of Hout with
    | match ?b with _ => _ end =>
        assert (∃ csv, b = Ok csv) as [date_csv Eb] by (eexists; vm_compute; reflexivity);
        rewrite Eb in Hout
    end.
    destruct Hout as [Hreq (stats_reply & community_reply & Hmsg)]. split.
    + rewrite Hreq. vm_compute. reflexivity.
    + eexists _, _. exact Hmsg.
Defined.
